(** * Farcaster direct casting: the server's request handlers and flat-file store

    A shallow embedding of [server.js] (rate limiter, create-signer,
    signer-status, post-cast, user, QR code and statistics handlers), of
    the flat-file store [database/db.js] and of
    [checkSignedKeyRequestStatus] and [waitForSignerApproval] from
    [farcaster-signer.js], followed by the properties of the specification
    that are settled on it and by further properties of the code.

    Conventions of the embedding.
    - A JavaScript object is a finite map from property names to values
      ([gmap string jsval]); an absent property and a property holding
      [undefined] are both a failed lookup.
    - Numbers are the integers; [NaN] is written [JNull], which is what both
      [res.json] and [JSON.stringify] print for it.  A [Date] and its ISO
      string are both written as the epoch milliseconds, [JNum ms].
    - A character of a [string] stands for one UTF-16 code unit.
    - The request body fields [signerUuid], [text] and [parentUrl] are JSON
      strings when present; [fid] is any JSON primitive.
    - A directory of JSON documents is a finite map from file names to
      objects.  The store builds the name of a file from a key (a
      [signerUuid], a [fid], the hash of a cast).  For a key that is a file
      name ([file_name]: printable ASCII characters other than the path
      separator, at most 64 of them) [path.join] names a file of the
      directory and the write succeeds: this is the case the maps show.  A
      key that holds a path separator can make the write fail or reach
      another directory, which the maps do not show; so what is proved of a
      read or a write under a key that the caller chooses is proved for
      file names.  The hashes and account ids issued by the hub and the SDK
      are file names.  Reads and writes of the file system do not fail
      otherwise.
    - One clock reading [now] is used for a whole request. *)

From stdpp Require Import gmap strings list fin_maps pretty sorting.

(** ** JavaScript values *)

#[warnings="-register-all"]
Inductive jsval :=
| JNull
| JBool (b : bool)
| JNum (n : Z)
| JStr (s : string)
| JObj (o : gmap string jsval).

Abbreviation jsobj := (gmap string jsval).

(** The result of a call that may throw: the exception's [message], or the
    returned value. *)
Inductive Outcome (A : Type) :=
| Throws (message : string)
| Returns (a : A).
Arguments Throws {A} message.
Arguments Returns {A} a.

(** [if (v)]: truthiness of a possibly-undefined value. *)
Definition truthy (v : option jsval) : bool :=
  match v with
  | None => false
  | Some JNull => false
  | Some (JBool b) => b
  | Some (JNum n) => negb (n =? 0)%Z
  | Some (JStr s) => negb (String.eqb s "")
  | Some (JObj _) => true
  end.

(** [if (s)] for a possibly-absent string. *)
Definition truthy_str (s : option string) : bool := truthy (JStr <$> s).

(** [v === 'lit']. *)
Definition is_str (v : option jsval) (lit : string) : bool :=
  match v with
  | Some (JStr s) => String.eqb s lit
  | _ => false
  end.

(** [a === b]; two objects are the same only by reference, and the objects
    compared by the handlers never are. *)
Definition strict_eq (a b : option jsval) : bool :=
  match a, b with
  | None, None => true
  | Some JNull, Some JNull => true
  | Some (JBool x), Some (JBool y) => Bool.eqb x y
  | Some (JNum x), Some (JNum y) => (x =? y)%Z
  | Some (JStr x), Some (JStr y) => String.eqb x y
  | _, _ => false
  end.

(** [v.k] for one of the data properties the handlers read: a [TypeError] on
    [null], [undefined] on the other primitives. *)
Definition prop (v : jsval) (k : string) : Outcome (option jsval) :=
  match v with
  | JNull => Throws ("Cannot read properties of null (reading '" +:+ k +:+ "')")
  | JObj o => Returns (o !! k)
  | _ => Returns None
  end.

(** [o.k = v]; assigning [undefined] leaves the property unreadable. *)
Definition set_prop (k : string) (v : option jsval) (o : jsobj) : jsobj :=
  match v with
  | Some x => <[k := x]> o
  | None => delete k o
  end.

(** An object some of whose own properties hold [undefined].  Reading a
    property and [JSON.stringify] do not tell such a property from an absent
    one; a spread over another object does, since it overrides with it. *)
Abbreviation jsprops := (gmap string (option jsval)).

(** The object [o] once [o.k = v] has run, for a [v] that may be
    [undefined]. *)
Definition own (k : string) (v : option jsval) (o : jsobj) : jsprops :=
  <[k := v]> (Some <$> o).

(** [{...o, ...updates}], as it reads and prints. *)
Definition spread_over (updates : jsprops) (o : jsobj) : jsobj :=
  omap id (updates ∪ (Some <$> o)).

(** [`${v}`]. *)
Definition to_string (v : option jsval) : string :=
  match v with
  | None => "undefined"
  | Some JNull => "null"
  | Some (JBool true) => "true"
  | Some (JBool false) => "false"
  | Some (JNum n) => pretty n
  | Some (JStr s) => s
  | Some (JObj _) => "[object Object]"
  end.

(** [{...v}]: the own enumerable properties of [v]; those of a string are
    its characters under their indices. *)
Definition spread (v : jsval) : jsobj :=
  match v with
  | JObj o => o
  | JStr s =>
      list_to_map
        (imap (λ i c, (pretty i, JStr (String c EmptyString)))
              (String.list_ascii_of_string s))
  | _ => ∅
  end.

(** ** Rate limiter ([server.js], [checkRateLimit]) *)

Definition RATE_LIMIT_WINDOW : Z := 60000.
Definition MAX_REQUESTS_PER_WINDOW : nat := 10.

Definition checkRateLimit (now : Z) (identifier : string)
    (rateLimit : gmap string (list Z)) : bool * gmap string (list Z) :=
  let windowStart := (now - RATE_LIMIT_WINDOW)%Z in
  let rateLimit :=
    match rateLimit !! identifier with
    | Some _ => rateLimit
    | None => <[identifier := []]> rateLimit
    end in
  let requests := default [] (rateLimit !! identifier) in
  let recentRequests := filter (λ timestamp, (windowStart < timestamp)%Z) requests in
  if decide (MAX_REQUESTS_PER_WINDOW ≤ length recentRequests) then
    (false, rateLimit)
  else
    (true, <[identifier := recentRequests ++ [now]]> rateLimit).

(** The limiter run on the successive requests of one identifier, given by
    their clock readings. *)
Fixpoint serve_all (identifier : string) (times : list Z)
    (rateLimit : gmap string (list Z)) : list bool * gmap string (list Z) :=
  match times with
  | [] => ([], rateLimit)
  | now :: times' =>
      let '(ok, rateLimit) := checkRateLimit now identifier rateLimit in
      let '(oks, rateLimit) := serve_all identifier times' rateLimit in
      (ok :: oks, rateLimit)
  end.

(** ** Sequencing calls that may throw *)

Global Instance Outcome_ret : MRet Outcome := λ A a, Returns a.
Global Instance Outcome_bind : MBind Outcome := λ A B f m,
  match m with
  | Throws message => Throws message
  | Returns a => f a
  end.

(** [try { ... return r } catch { }] followed by the code after it: the
    response of the block when it returned one, and none when it threw or
    ran to its end. *)
Definition try_block {A : Type} (block : Outcome (option A)) : option A :=
  match block with
  | Throws _ => None
  | Returns r => r
  end.

(** ** Flat-file store ([database/db.js]) *)

Record Database := {
  users : gmap string jsobj;
  posts : gmap string jsobj;
  sessions : gmap string jsobj
}.

(** Whether [key] is a file name whatever the file system: printable ASCII
    characters other than the path separator, at most 64 of them.  A path
    built from such a key names a file of the directory it is joined to. *)
Definition file_name (key : string) : bool :=
  forallb (λ c, let n := Ascii.N_of_ascii c in
                (32 <=? n)%N && (n <=? 126)%N && negb (n =? 47)%N)
          (String.list_ascii_of_string key)
  && (String.length key <=? 64).

(** [readJsonFile] and [writeJsonFile] on the file [filePath] of the
    directory [dir].  The path is one that names a file of [dir], as
    [path.join(dir, key + ".json")] does for a key that is a file name: the
    write then succeeds and [true] is returned.  The [catch] of
    [writeJsonFile], which returns [false] when the path leaves the
    directory for one that is not there, is outside these maps. *)
Definition readJsonFile (dir : gmap string jsobj) (filePath : string) : option jsobj :=
  dir !! filePath.

Definition writeJsonFile (dir : gmap string jsobj) (filePath : string) (data : jsobj)
  : bool * gmap string jsobj :=
  (true, <[filePath := data]> dir).

(** [saveUser] and [getUser]; the file is named after the [fid], a file
    name. *)
Definition saveUser (now : Z) (userData : jsval) (db : Database)
  : Outcome (bool * Database) :=
  fid ← prop userData "fid";
  let filePath := to_string fid +:+ ".json" in
  let '(written, dir) :=
    writeJsonFile (users db) filePath (<["updatedAt" := JNum now]> (spread userData)) in
  mret (written, {| users := dir; posts := posts db; sessions := sessions db |}).

Definition getUser (fid : option jsval) (db : Database) : option jsobj :=
  readJsonFile (users db) (to_string fid +:+ ".json").

(** [s.replace(pat, rep)] for a string pattern: the first occurrence only. *)
Fixpoint replace_first (pat rep s : string) : string :=
  if String.prefix pat s then
    rep +:+ String.substring (String.length pat) (String.length s - String.length pat) s
  else
    match s with
    | EmptyString => EmptyString
    | String c s' => String c (replace_first pat rep s')
    end.

(** [savePost]; the file is named after the clock and the hash of the
    post, a file name. *)
Definition savePost (now : Z) (postData : jsobj) (db : Database) : bool * Database :=
  let timestamp := now in
  let fileName := pretty timestamp +:+ "_" +:+ to_string (postData !! "hash") +:+ ".json" in
  let postRecord :=
    <["timestamp" := JNum timestamp]>
      (<["createdAt" := JNum now]>
         (<["id" := JStr (replace_first ".json" "" fileName)]> postData)) in
  let '(written, dir) := writeJsonFile (posts db) fileName postRecord in
  (written, {| users := users db; posts := dir; sessions := sessions db |}).

(** [saveSession], [getSession], [updateSession] and [deleteSession]; the
    file is named after the [signerUuid], a file name. *)
Definition saveSession (now : Z) (sessionData : jsobj) (db : Database) : bool * Database :=
  let filePath := to_string (sessionData !! "signerUuid") +:+ ".json" in
  let '(written, dir) :=
    writeJsonFile (sessions db) filePath (<["updatedAt" := JNum now]> sessionData) in
  (written, {| users := users db; posts := posts db; sessions := dir |}).

Definition getSession (signerUuid : option jsval) (db : Database) : option jsobj :=
  readJsonFile (sessions db) (to_string signerUuid +:+ ".json").

Definition updateSession (now : Z) (signerUuid : option jsval) (updates : jsprops)
    (db : Database) : bool * Database :=
  match getSession signerUuid db with
  | Some session =>
      let updatedSession := <["updatedAt" := JNum now]> (spread_over updates session) in
      saveSession now updatedSession db
  | None => (false, db)
  end.

Definition deleteSession (signerUuid : option jsval) (db : Database) : bool * Database :=
  let filePath := to_string signerUuid +:+ ".json" in
  match sessions db !! filePath with
  | Some _ =>
      (true, {| users := users db; posts := posts db;
                sessions := delete filePath (sessions db) |})
  | None => (false, db)
  end.

(** ** The world outside the server *)

Record HttpResponse := {
  ok : bool;
  http_status : Z;
  json : Outcome jsval
}.

(** What the clock, the network and the managed SDK answer during one
    request.  [neynarClient] tells whether the SDK client was configured at
    startup; its methods return the objects the SDK documents, and
    [fetchBulkUsers] the array under [users]. *)
Record World := {
  now : Z;
  neynarClient : bool;
  getSigner : string → Outcome jsval;
  publishCast : jsobj → Outcome jsval;
  fetchBulkUsers : jsval → Outcome (list jsval);
  fetch : string → Outcome HttpResponse
}.

Definition FARCASTER_API_BASE : string := "https://api.farcaster.xyz".

(** [FarcasterSignerManager.checkSignedKeyRequestStatus]: every failure is
    thrown again under the prefix of its [catch]. *)
Definition checkSignedKeyRequestStatus (w : World) (token : option jsval) : Outcome jsval :=
  let attempt : Outcome jsval :=
    response ← fetch w (FARCASTER_API_BASE +:+ "/v2/signed-key-request?token=" +:+ to_string token);
    if negb (ok response) then
      Throws ("Status check failed: " +:+ pretty (http_status response))
    else
      data ← json response;
      result ← prop data "result";
      match result with
      | None => Throws "Cannot read properties of undefined (reading 'signedKeyRequest')"
      | Some result =>
          signedKeyRequest ← prop result "signedKeyRequest";
          match signedKeyRequest with
          | None => Throws "Cannot read properties of undefined (reading 'state')"
          | Some signedKeyRequest =>
              _ ← prop signedKeyRequest "state";
              mret signedKeyRequest
          end
      end in
  match attempt with
  | Throws message => Throws ("Failed to check status: " +:+ message)
  | Returns signedKeyRequest => Returns signedKeyRequest
  end.

(** ** Server state and responses *)

Record ServerState := {
  activeSigners : gmap string jsobj;
  rateLimit : gmap string (list Z);
  db : Database
}.

Definition with_signers (signers : gmap string jsobj) (st : ServerState) : ServerState :=
  {| activeSigners := signers; rateLimit := rateLimit st; db := db st |}.
Definition with_rateLimit (rl : gmap string (list Z)) (st : ServerState) : ServerState :=
  {| activeSigners := activeSigners st; rateLimit := rl; db := db st |}.
Definition with_db (d : Database) (st : ServerState) : ServerState :=
  {| activeSigners := activeSigners st; rateLimit := rateLimit st; db := d |}.

(** [res.status(code).json(body)]; a property holding [undefined] is not
    printed. *)
Record Response := {
  code : Z;
  body : jsobj
}.

Definition rate_limited : Response :=
  {| code := 429;
     body := {[ "error" := JStr "Rate limit exceeded. Please try again later." ]} |}.

(** ** Request handlers ([server.js]) *)

Section Handlers.

(** The built-in [parseInt], read on a possibly-undefined value. *)
Variable parseInt : option jsval → jsval.

(** [POST /api/create-signer]. *)
Definition create_signer (w : World) (clientIP : string)
    (fid : option jsval) (signerUuid : option string) (st : ServerState)
  : Response * ServerState :=
  if negb (truthy fid) || negb (truthy_str signerUuid) then
    ({| code := 400;
        body := {[ "error" := JStr "FID and signerUuid are required for SIWN flow" ]} |},
     st)
  else
    let fidNum := parseInt fid in
    let '(allowed, rl) := checkRateLimit (now w) clientIP (rateLimit st) in
    let st := with_rateLimit rl st in
    if negb allowed then (rate_limited, st)
    else
      let signerInfo : jsobj :=
        set_prop "signerUuid" (JStr <$> signerUuid)
          {[ "status" := JStr "approved";
             "fid" := fidNum;
             "createdAt" := JNum (now w);
             "provider" := JStr "neynar_siwn" ]} in
      let st := with_signers (<[default "" signerUuid := signerInfo]> (activeSigners st)) st in
      let st := with_db (saveSession (now w) signerInfo (db st)).2 st in
      ({| code := 200;
          body := {[ "success" := JBool true;
                     "signer" := JObj signerInfo;
                     "provider" := JStr "neynar_siwn";
                     "message" := JStr "SIWN signer connected successfully! Ready to cast.";
                     "note" := JStr "Sign In with Neynar handles all authentication automatically" ]} |},
       st).

(** [GET /api/signer-status/:signerUuid], the block for managed signers. *)
Definition neynar_status (w : World) (signerUuid : string) (signer : jsobj)
    (st : ServerState) : Outcome (option (Response * ServerState)) :=
  neynarSigner ← getSigner w signerUuid;
  status ← prop neynarSigner "status";
  let signerInfo := <["updatedAt" := JNum (now w)]> (set_prop "status" status signer) in
  let st := with_signers (<[signerUuid := signerInfo]> (activeSigners st)) st in
  let st :=
    with_db (updateSession (now w) (signer !! "signer_uuid") (own "status" status signerInfo)
               (db st)).2 st in
  mret (Some ({| code := 200;
                 body := {[ "success" := JBool true; "signer" := JObj signerInfo ]} |},
              st)).

(** The block for direct signers; the signer object is updated in place, so
    the table entry changes with it. *)
Definition direct_status (w : World) (signerUuid : string) (signer : jsobj)
    (st : ServerState) : Outcome (option (Response * ServerState)) :=
  realStatus ← checkSignedKeyRequestStatus w (signer !! "token");
  state ← prop realStatus "state";
  updated ←
    (if negb (strict_eq state (signer !! "status")) then
       let signer := set_prop "status" state signer in
       userFid ← prop realStatus "userFid";
       let signer := if truthy userFid then set_prop "fid" userFid signer else signer in
       let st := with_signers (<[signerUuid := signer]> (activeSigners st)) st in
       let st :=
         with_db (updateSession (now w) (Some (JStr signerUuid)) (own "status" state signer)
                    (db st)).2 st in
       mret (signer, st)
     else mret (signer, st));
  let '(signer, st) := updated in
  mret (Some ({| code := 200;
                 body :=
                   set_prop "status" (signer !! "status")
                     (set_prop "provider" (signer !! "provider")
                        {[ "success" := JBool true;
                           "signer" := JObj signer;
                           "realTimeStatus" := realStatus;
                           "message" :=
                             JStr (if is_str state "completed"
                                   then "🎉 Signer approved and ready for casting!"
                                   else "Signer status: " +:+ to_string state) ]}) |},
              st)).

(** The answer from the table alone, for the other cases. *)
Definition stored_status (signer : jsobj) : Response :=
  {| code := 200;
     body :=
       set_prop "status" (signer !! "status")
         (set_prop "provider" (signer !! "provider")
            {[ "success" := JBool true; "signer" := JObj signer ]}) |}.

Definition signer_status (w : World) (signerUuid : string) (st : ServerState)
  : Response * ServerState :=
  match activeSigners st !! signerUuid with
  | None => ({| code := 404; body := {[ "error" := JStr "Signer not found" ]} |}, st)
  | Some signer =>
      let managed :=
        if is_str (signer !! "provider") "neynar" && neynarClient w
        then try_block (neynar_status w signerUuid signer st) else None in
      match managed with
      | Some answer => answer
      | None =>
          let direct :=
            if is_str (signer !! "provider") "direct_farcaster" && truthy (signer !! "token")
            then try_block (direct_status w signerUuid signer st) else None in
          match direct with
          | Some answer => answer
          | None => (stored_status signer, st)
          end
      end
  end.

(** [POST /api/post-cast]: the checks that come before the provider
    branches. *)
Definition fields_missing (signerUuid text : option string) : bool :=
  negb (truthy_str signerUuid) || negb (truthy_str text).

Definition text_too_long (text : string) : bool :=
  bool_decide (320 < String.length text).

Definition not_approved (signer : jsobj) : bool :=
  negb (is_str (signer !! "status") "approved").

Definition fields_required : Response :=
  {| code := 400; body := {[ "error" := JStr "Signer UUID and text are required" ]} |}.

Definition too_long : Response :=
  {| code := 400; body := {[ "error" := JStr "Cast text must be 320 characters or less" ]} |}.

Definition signer_not_found : Response :=
  {| code := 400; body := {[ "error" := JStr "Signer not found" ]} |}.

Definition not_approved_yet : Response :=
  {| code := 400;
     body := {[ "error" :=
                  JStr "Signer not approved yet. Please complete the approval process first." ]} |}.

(** [parentUrl || null]. *)
Definition or_null (parentUrl : option string) : jsval :=
  if truthy_str parentUrl then JStr (default "" parentUrl) else JNull.

(** Pre-approved hosted signers. *)
Definition post_siwn (w : World) (text : string) (signer : jsobj) (st : ServerState)
  : Response * ServerState :=
  if neynarClient w then
    let posted : Outcome (Response * ServerState) :=
      cast ← publishCast w (set_prop "signerUuid" (signer !! "signerUuid")
                              {[ "text" := JStr text ]});
      hash ← prop cast "hash";
      castText ← prop cast "text";
      let castInfo : jsobj :=
        set_prop "hash" hash
          (set_prop "text" castText
             (set_prop "signerUuid" (signer !! "signerUuid")
                (set_prop "fid" (signer !! "fid")
                   {[ "timestamp" := JNum (now w);
                      "provider" := JStr "neynar_siwn" ]}))) in
      let st := with_db (savePost (now w) castInfo (db st)).2 st in
      mret ({| code := 200;
               body := {[ "success" := JBool true;
                          "cast" := JObj castInfo;
                          "provider" := JStr "neynar_siwn";
                          "message" := JStr "🎉 Cast posted successfully to Farcaster!" ]} |},
            st) in
    match posted with
    | Returns answer => answer
    | Throws message =>
        ({| code := 500;
            body := {[ "error" := JStr "Failed to post cast via Neynar";
                       "details" := JStr message;
                       "note" := JStr "SIWN signer is approved but Neynar posting failed. Please try again." ]} |},
         st)
    end
  else
    ({| code := 500;
        body := {[ "error" := JStr "Neynar client not available";
                   "message" := JStr "SIWN signer is approved but Neynar client is not configured.";
                   "note" := JStr "Please add NEYNAR_API_KEY to your .env file to enable posting." ]} |},
     st).

(** [signer.keypair.privateKey], read only once [signer.keypair] is truthy. *)
Definition privateKey (signer : jsobj) : option jsval :=
  match signer !! "keypair" with
  | Some (JObj keypair) => keypair !! "privateKey"
  | _ => None
  end.

(** [signer.publicKey.substring(0, 10)] of the log line: a [TypeError]
    unless the property holds a string. *)
Definition publicKey_prefix (signer : jsobj) : Outcome string :=
  match signer !! "publicKey" with
  | Some (JStr publicKey) => Returns (String.substring 0 10 publicKey)
  | Some JNull => Throws "Cannot read properties of null (reading 'substring')"
  | Some _ => Throws "signer.publicKey.substring is not a function"
  | None => Throws "Cannot read properties of undefined (reading 'substring')"
  end.

(** Direct (Ed25519) signers. *)
Definition post_direct (w : World) (signerUuid text : string) (parentUrl : option string)
    (signer : jsobj) (st : ServerState) : Response * ServerState :=
  if negb (truthy (signer !! "keypair")) || negb (truthy (privateKey signer)) then
    ({| code := 400;
        body := set_prop "currentStatus" (signer !! "status")
                  {[ "error" := JStr "Ed25519 keys not found";
                     "message" := JStr "Signer setup incomplete. Please reconnect your Farcaster account." ]} |},
     st)
  else if truthy (signer !! "token") then
    let verified : Outcome (Response * ServerState) :=
      status ← checkSignedKeyRequestStatus w (signer !! "token");
      state ← prop status "state";
      if is_str state "completed" then
        _ ← publicKey_prefix signer;
        let castInfo : jsobj :=
          set_prop "fid" (signer !! "fid")
            {[ "hash" := JStr "pending_hub_submission";
               "text" := JStr text;
               "signerUuid" := JStr signerUuid;
               "timestamp" := JNum (now w);
               "parentUrl" := or_null parentUrl;
               "provider" := JStr "direct_farcaster";
               "status" := JStr "ready_for_hub_submission";
               "note" := JStr "Ed25519 keys approved! Cast is ready to submit to Farcaster hub.";
               "nextStep" := JStr "Implement cast submission to Farcaster hub using @farcaster/hub-nodejs" ]} in
        let st := with_db (savePost (now w) castInfo (db st)).2 st in
        mret ({| code := 200;
                 body := {[ "success" := JBool true;
                            "cast" := JObj castInfo;
                            "provider" := JStr "direct_farcaster";
                            "message" := JStr "🎉 Ed25519 signer approved! Cast ready for Farcaster hub submission.";
                            "note" := JStr "Your cryptographic keys are working! The final step is submitting to Farcaster hubs.";
                            "nextStep" := JStr "Implement hub submission to complete real Farcaster posting" ]} |},
              st)
      else if is_str state "approved" then
        mret ({| code := 400;
                 body := set_prop "currentStatus" state
                           (set_prop "approvalUrl" (signer !! "approvalUrl")
                              {[ "error" := JStr "Signer approved, waiting for on-chain confirmation";
                                 "message" := JStr "Your signer is approved but waiting for blockchain confirmation. Please wait a few minutes." ]}) |},
              st)
      else
        mret ({| code := 400;
                 body := set_prop "currentStatus" state
                           (set_prop "approvalUrl" (signer !! "approvalUrl")
                              {[ "error" := JStr "Signer not fully approved";
                                 "message" := JStr ("Signer status: " +:+ to_string state
                                                    +:+ ". Please complete the approval process.") ]}) |},
              st) in
    match verified with
    | Returns answer => answer
    | Throws message =>
        ({| code := 500;
            body := {[ "error" := JStr "Failed to verify signer status";
                       "details" := JStr message;
                       "note" := JStr "Could not verify if your Ed25519 keys are approved. Please try again." ]} |},
         st)
    end
  else
    ({| code := 400;
        body := set_prop "currentStatus" (signer !! "status")
                  {[ "error" := JStr "Signer token missing";
                     "message" := JStr "Signer setup incomplete. Please reconnect your Farcaster account." ]} |},
     st).

(** Managed signers. *)
Definition post_neynar (w : World) (signerUuid text : string) (parentUrl : option string)
    (signer : jsobj) (st : ServerState) : Response * ServerState :=
  let posted : Outcome (Response * ServerState) :=
    cast ← publishCast w
             (set_prop "parentUrl" (if truthy_str parentUrl then JStr <$> parentUrl else None)
                {[ "signerUuid" := JStr signerUuid; "text" := JStr text ]});
    hash ← prop cast "hash";
    castText ← prop cast "text";
    let castInfo : jsobj :=
      set_prop "hash" hash
        (set_prop "text" castText
           (set_prop "fid" (signer !! "fid")
              {[ "signerUuid" := JStr signerUuid;
                 "timestamp" := JNum (now w);
                 "parentUrl" := or_null parentUrl;
                 "provider" := JStr "neynar" ]})) in
    let st := with_db (savePost (now w) castInfo (db st)).2 st in
    mret ({| code := 200;
             body := {[ "success" := JBool true;
                        "cast" := JObj castInfo;
                        "provider" := JStr "neynar" ]} |},
          st) in
  match posted with
  | Returns answer => answer
  | Throws message =>
      ({| code := 500;
          body := {[ "error" := JStr "Neynar posting failed, but Direct API is available";
                     "details" := JStr message ]} |},
       st)
  end.

Definition post_cast (w : World) (clientIP : string)
    (signerUuid text parentUrl : option string) (st : ServerState)
  : Response * ServerState :=
  if fields_missing signerUuid text then (fields_required, st)
  else
    let signerUuid := default "" signerUuid in
    let text := default "" text in
    let '(allowed, rl) := checkRateLimit (now w) clientIP (rateLimit st) in
    let st := with_rateLimit rl st in
    if negb allowed then (rate_limited, st)
    else if text_too_long text then (too_long, st)
    else
      match activeSigners st !! signerUuid with
      | None => (signer_not_found, st)
      | Some signer =>
          if not_approved signer then (not_approved_yet, st)
          else if is_str (signer !! "provider") "neynar_siwn" then
            post_siwn w text signer st
          else if is_str (signer !! "provider") "direct_farcaster" then
            post_direct w signerUuid text parentUrl signer st
          else if is_str (signer !! "provider") "neynar" && neynarClient w then
            post_neynar w signerUuid text parentUrl signer st
          else
            ({| code := 400; body := {[ "error" := JStr "Unknown signer provider" ]} |}, st)
      end.

(** [GET /api/user/:fid].  The handler's calls to the two upstream
    providers are recorded as they are made. *)
Inductive UpstreamCall :=
| DirectRead (url : string)
| SdkRead (fids : jsval).

(** A computation that calls the providers: the calls it has made, in
    order, and the outcome it has reached. *)
Record Calls (A : Type) := {
  made : list UpstreamCall;
  outcome : Outcome A
}.
Global Arguments made {A} _.
Global Arguments outcome {A} _.

Global Instance Calls_ret : MRet Calls := λ A a, {| made := []; outcome := Returns a |}.
Global Instance Calls_bind : MBind Calls := λ A B f m,
  match outcome m with
  | Throws message => {| made := made m; outcome := Throws message |}
  | Returns a => {| made := made m ++ made (f a); outcome := outcome (f a) |}
  end.

(** A step that calls no provider. *)
Definition quiet {A : Type} (step : Outcome A) : Calls A :=
  {| made := []; outcome := step |}.

(** [await fetch(url)] and [await neynarClient.fetchBulkUsers({ fids: [fids] })]:
    the call is recorded and the world answers it. *)
Definition call_fetch (w : World) (url : string) : Calls HttpResponse :=
  {| made := [DirectRead url]; outcome := fetch w url |}.

Definition call_fetchBulkUsers (w : World) (fids : jsval) : Calls (list jsval) :=
  {| made := [SdkRead fids]; outcome := fetchBulkUsers w fids |}.

(** What the handler reads in the answer of the direct API: the user of
    [data.result.user] when the response is [ok] and holds one. *)
Definition read_user (response : HttpResponse) : Outcome (option jsval) :=
  if ok response then
    data ← json response;
    result ← prop data "result";
    match result with
    | Some result =>
        if truthy (Some result) then
          user ← prop result "user";
          mret (if truthy user then user else None)
        else mret None
    | None => mret None
    end
  else mret None.

(** The direct read. *)
Definition direct_user (w : World) (fid : string) : Calls (option jsval) :=
  response ← call_fetch w (FARCASTER_API_BASE +:+ "/v2/user?fid=" +:+ fid);
  quiet (read_user response).

(** The managed read: the first of the users returned. *)
Definition sdk_user (w : World) (fid : string) : Calls (option jsval) :=
  users ← call_fetchBulkUsers w (parseInt (Some (JStr fid)));
  mret (head users).

(** A user found by [provider] is saved and returned. *)
Definition found_user (w : World) (provider : string) (user : jsval) (st : ServerState)
  : Outcome (option (Response * ServerState)) :=
  saved ← saveUser (now w) user (db st);
  mret (Some ({| code := 200;
                 body := {[ "success" := JBool true;
                            "user" := user;
                            "provider" := JStr provider ]} |},
              with_db saved.2 st)).

Definition both_failed : Response :=
  {| code := 500;
     body := {[ "error" := JStr "Failed to fetch user";
                "details" := JStr "Both Direct Farcaster API and Neynar failed to fetch user";
                "suggestion" := JStr "Check if the FID is correct and try again" ]} |}.

(** [try { ... return r } catch { }] around calls to the providers: the
    calls made, and the response of the block when it returned one. *)
Definition try_calls {A : Type} (block : Calls (option A)) : list UpstreamCall * option A :=
  (made block, try_block (outcome block)).

(** The two [try] blocks of the handler. *)
Definition direct_lookup (w : World) (fid : string) (st : ServerState)
  : list UpstreamCall * option (Response * ServerState) :=
  try_calls (user ← direct_user w fid;
             quiet (match user with
                    | Some user => found_user w "direct_farcaster" user st
                    | None => mret None
                    end)).

Definition managed_lookup (w : World) (fid : string) (st : ServerState)
  : list UpstreamCall * option (Response * ServerState) :=
  try_calls (user ← sdk_user w fid;
             quiet (match user with
                    | Some user => found_user w "neynar" user st
                    | None => mret None
                    end)).

(** The handler: the calls it made, its answer and the state it leaves. *)
Definition get_user (w : World) (fid : string) (st : ServerState)
  : list UpstreamCall * (Response * ServerState) :=
  let direct := direct_lookup w fid st in
  match direct.2 with
  | Some answer => (direct.1, answer)
  | None =>
      if neynarClient w then
        let managed := managed_lookup w fid st in
        match managed.2 with
        | Some answer => (direct.1 ++ managed.1, answer)
        | None => (direct.1 ++ managed.1, (both_failed, st))
        end
      else (direct.1, (both_failed, st))
  end.

End Handlers.

(** ** Vocabulary of the properties *)

(** The timestamps of [l] that are still inside the window at [now]. *)
Definition in_window (now : Z) (l : list Z) : list Z :=
  filter (λ timestamp, (now - RATE_LIMIT_WINDOW < timestamp)%Z) l.

(** Whether the limiter lets the request of [clientIP] through, and the
    state once the limiter has run. *)
Definition admitted (w : World) (clientIP : string) (st : ServerState) : bool :=
  (checkRateLimit (now w) clientIP (rateLimit st)).1.

Definition counted (w : World) (clientIP : string) (st : ServerState) : ServerState :=
  with_rateLimit (checkRateLimit (now w) clientIP (rateLimit st)).2 st.

(** The same post-cast request sent once in each of the worlds [ws]. *)
Fixpoint post_casts (ws : list World) (clientIP : string)
    (signerUuid text parentUrl : option string) (st : ServerState)
  : list Response * ServerState :=
  match ws with
  | [] => ([], st)
  | w :: ws' =>
      let '(answer, st) := post_cast w clientIP signerUuid text parentUrl st in
      let '(answers, st) := post_casts ws' clientIP signerUuid text parentUrl st in
      (answer :: answers, st)
  end.

(** The answer of the user handler for a user found by [provider]. *)
Definition profile (provider : string) (user : jsval) : Response :=
  {| code := 200;
     body := {[ "success" := JBool true; "user" := user; "provider" := JStr provider ]} |}.

(** The direct read finds [user]: the direct API answers the request for
    [fid] with an [ok] response whose [result.user] is [user], a truthy
    value. *)
Definition direct_finds (w : World) (fid : string) (user : jsval) : Prop :=
  ∃ response data result,
    fetch w (FARCASTER_API_BASE +:+ "/v2/user?fid=" +:+ fid) = Returns response
    ∧ ok response = true
    ∧ json response = Returns data
    ∧ prop data "result" = Returns (Some result)
    ∧ truthy (Some result) = true
    ∧ prop result "user" = Returns (Some user)
    ∧ truthy (Some user) = true.

(** The SDK finds [user]: it is the first of the users returned for the
    parsed [fid]. *)
Definition sdk_finds (parseInt : option jsval → jsval) (w : World) (fid : string)
    (user : jsval) : Prop :=
  ∃ others, fetchBulkUsers w (parseInt (Some (JStr fid))) = Returns (user :: others).

(** ** Sample worlds and states *)

(** No SDK client is configured and the network is down. *)
Definition offline (t : Z) : World :=
  {| now := t;
     neynarClient := false;
     getSigner := λ _, Throws "Neynar client not configured";
     publishCast := λ _, Throws "Neynar client not configured";
     fetchBulkUsers := λ _, Throws "Neynar client not configured";
     fetch := λ _, Throws "fetch failed" |}.

(** The direct API reports every signed key request in [state], approved by
    account 42. *)
Definition key_request (state : string) : HttpResponse :=
  {| ok := true;
     http_status := 200;
     json :=
       Returns
         (JObj {[ "result" :=
                    JObj {[ "signedKeyRequest" :=
                              JObj {[ "state" := JStr state; "userFid" := JNum 42 ]} ]} ]}) |}.

Definition hub (t : Z) (state : string) : World :=
  {| now := t;
     neynarClient := false;
     getSigner := λ _, Throws "Neynar client not configured";
     publishCast := λ _, Throws "Neynar client not configured";
     fetchBulkUsers := λ _, Throws "Neynar client not configured";
     fetch := λ _, Returns (key_request state) |}.

(** The direct API is down and the SDK knows one user, whatever the id. *)
Definition alice : jsval := JObj {[ "fid" := JNum 42; "username" := JStr "alice" ]}.

Definition sdk_only (t : Z) : World :=
  {| now := t;
     neynarClient := true;
     getSigner := λ _, Throws "not a managed signer";
     publishCast := λ _, Throws "not a managed signer";
     fetchBulkUsers := λ _, Returns [alice];
     fetch := λ _, Throws "fetch failed" |}.

(** The direct API answers every request with [body]; the SDK knows the
    same user. *)
Definition direct_answers (t : Z) (found : bool) (body : jsval) : World :=
  {| now := t;
     neynarClient := true;
     getSigner := λ _, Throws "not a managed signer";
     publishCast := λ _, Throws "not a managed signer";
     fetchBulkUsers := λ _, Returns [alice];
     fetch := λ _, Returns {| ok := found;
                              http_status := if found then 200 else 404;
                              json := Returns body |} |}.

Definition bob : jsval := JObj {[ "fid" := JNum 7; "username" := JStr "bob" ]}.

(** A direct signer with its keys, as the table holds it under ["s1"]. *)
Definition direct_signer (status : string) : jsobj :=
  {[ "signerUuid" := JStr "s1";
     "status" := JStr status;
     "provider" := JStr "direct_farcaster";
     "token" := JStr "0xtoken";
     "publicKey" := JStr "0x5a1f3c9e7b2d4f60";
     "keypair" := JObj {[ "publicKey" := JStr "0x5a1f3c9e7b2d4f60";
                          "privateKey" := JStr "0x0b7e151628aed2a6" ]};
     "approvalUrl" := JStr "farcaster://signed-key-request?token=0xtoken";
     "createdAt" := JNum 0 ]}.

(** The same signer once its keys are lost. *)
Definition keyless_signer : jsobj := delete "keypair" (direct_signer "approved").

Definition no_files : Database := {| users := ∅; posts := ∅; sessions := ∅ |}.

(** A server that holds [signer] under ["s1"] and has admitted the client
    ["203.0.113.7"] at the times [history]. *)
Definition server (signer : jsobj) (history : list Z) : ServerState :=
  {| activeSigners := {[ "s1" := signer ]};
     rateLimit := {[ "203.0.113.7" := history ]};
     db := no_files |}.

Definition ten_requests : list Z := [1; 2; 3; 4; 5; 6; 7; 8; 9; 10]%Z.

(** A text of 321 characters. *)
Definition long_text : string := foldr String.append "" (replicate 321 "a").

(** Eleven clock readings one second apart. *)
Definition eleven_seconds : list World :=
  offline <$> [1000; 2000; 3000; 4000; 5000; 6000; 7000; 8000; 9000; 10000; 11000]%Z.

(** ** The rest of the store ([database/db.js]) *)

(** [s.endsWith(suffix)]. *)
Fixpoint ends_with (suffix s : string) : bool :=
  String.eqb s suffix
  || match s with
     | EmptyString => false
     | String _ s' => ends_with suffix s'
     end.

(** [l.slice(0, limit)]: a negative [limit] counts from the end. *)
Definition slice_to {A : Type} (limit : Z) (l : list A) : list A :=
  if decide (0 ≤ limit)%Z then take (Z.to_nat limit) l
  else take (Z.to_nat (Z.of_nat (length l) + limit)) l.

Definition timestamp_number (post : jsobj) : option Z :=
  match post !! "timestamp" with
  | Some (JNum n) => Some n
  | _ => None
  end.

(** [posts.sort((a, b) => b.timestamp - a.timestamp)].  The built-in sort is
    stable, so on numbers its result is that of inserting each post, from
    the last to the first, before the posts that are not more recent.
    Where a timestamp is not a number the comparison goes through the
    conversion to a number and the order is the engine's own: no result is
    given there. *)
Fixpoint insert_recent (post : Z * jsobj) (sorted : list (Z * jsobj))
  : list (Z * jsobj) :=
  match sorted with
  | [] => [post]
  | p :: rest =>
      if decide (post.1 < p.1)%Z then p :: insert_recent post rest
      else post :: p :: rest
  end.

Definition keyed_post (post : jsobj) : option (Z * jsobj) :=
  n ← timestamp_number post; Some (n, post).

Definition sort_by_recency (posts : list jsobj) : option (list jsobj) :=
  keyed ← mapM keyed_post posts;
  Some ((foldr insert_recent [] keyed).*2).

(** The order the sort leaves the keyed posts in. *)
Definition recent_first (a b : Z * jsobj) : Prop := (b.1 ≤ a.1)%Z.

(** [if (v)] for a stored time: the ISO string that [JNum] stands for there
    is never empty, so it is truthy whatever the time. *)
Definition truthy_time (v : option jsval) : bool :=
  match v with
  | Some (JNum _) => true
  | _ => truthy v
  end.

(** [new Date(v).getTime()] for a stored time; a string that is no date,
    and an object, give [NaN]. *)
Definition getTime (v : jsval) : option Z :=
  match v with
  | JNum n => Some n
  | JBool true => Some 1%Z
  | JBool false => Some 0%Z
  | JNull => Some 0%Z
  | JStr _ => None
  | JObj _ => None
  end.

Definition oneDay : Z := 24 * 60 * 60 * 1000.

Section Listing.

(** [fs.readdirSync]: the names of the files of a directory, in the order
    the file system gives them. *)
Variable readdirSync : gmap string jsobj → list string.

(** The loop of [getPostsByUser] and [getAllPosts] over the files. *)
Definition collect_posts (keep : jsobj → bool) (db : Database) : list jsobj :=
  omap (λ file,
          if ends_with ".json" file then
            match readJsonFile (posts db) file with
            | Some post => if keep post then Some post else None
            | None => None
            end
          else None)
       (readdirSync (posts db)).

(** [getPostsByUser(fid, limit = 50)]. *)
Definition getPostsByUser (fid : option jsval) (limit : Z) (db : Database)
  : option (list jsobj) :=
  slice_to limit
    <$> sort_by_recency (collect_posts (λ post, strict_eq (post !! "fid") fid) db).

(** [getAllPosts(limit = 100)]. *)
Definition getAllPosts (limit : Z) (db : Database) : option (list jsobj) :=
  slice_to limit <$> sort_by_recency (collect_posts (λ _, true) db).

(** One turn of the loop of [cleanupOldSessions]. *)
Definition sweep_file (now : Z) (db : Database) (file : string) : Database :=
  if ends_with ".json" file then
    match readJsonFile (sessions db) file with
    | Some session =>
        if truthy_time (session !! "updatedAt") then
          match session !! "updatedAt" ≫= getTime with
          | Some updated =>
              if decide (oneDay < now - updated)%Z
              then (deleteSession (session !! "signerUuid") db).2
              else db
          | None => db
          end
        else db
    | None => db
    end
  else db.

Definition cleanupOldSessions (now : Z) (db : Database) : Database :=
  foldl (sweep_file now) db (readdirSync (sessions db)).

Definition count_json (dir : gmap string jsobj) : nat :=
  length (filter (λ file, ends_with ".json" file = true) (readdirSync dir)).

Definition getDatabaseStats (now : Z) (db : Database) : jsobj :=
  {[ "users" := JNum (Z.of_nat (count_json (users db)));
     "posts" := JNum (Z.of_nat (count_json (posts db)));
     "sessions" := JNum (Z.of_nat (count_json (sessions db)));
     "lastUpdated" := JNum now ]}.

(** [GET /api/stats] ([server.js]). *)
Definition stats (w : World) (st : ServerState) : Response :=
  {| code := 200;
     body :=
       {[ "success" := JBool true;
          "stats" := JObj (getDatabaseStats (now w) (db st));
          "providers" :=
            JObj {[ "direct_farcaster" := JStr "primary";
                    "neynar" := JStr (if neynarClient w then "fallback" else "unavailable") ]};
          "api_status" :=
            JObj {[ "direct_farcaster" := JStr "active";
                    "neynar" := JStr (if neynarClient w then "available" else "no_api_key") ]} ]} |}.

End Listing.

(** ** The QR code handler ([server.js]) *)

(** The answer of the handler: the JSON object, and the list under
    [instructions] where there is one. *)
Record QrAnswer := {
  qr_status : Z;
  qr_body : jsobj;
  qr_instructions : option (list string)
}.

Definition WARPCAST_SETTINGS : string := "https://warpcast.com/~/settings/apps".

(** [v.startsWith('farcaster://')] for a truthy [v]: a [TypeError] unless
    [v] is a string. *)
Definition starts_with_farcaster (v : option jsval) : Outcome bool :=
  match v with
  | Some (JStr s) => Returns (String.prefix "farcaster://" s)
  | _ => Throws "signer.approvalUrl.startsWith is not a function"
  end.

Section QrCode.

(** [qrcode.toDataURL]. *)
Variable toDataURL : option jsval → Outcome string.

(** [GET /api/qr-code/:signerUuid]. *)
Definition qr_code (signerUuid : string) (st : ServerState) : QrAnswer :=
  match activeSigners st !! signerUuid with
  | None =>
      {| qr_status := 404;
         qr_body := {[ "error" := JStr "Signer not found" ]};
         qr_instructions := None |}
  | Some signer =>
      let answer : Outcome QrAnswer :=
        if is_str (signer !! "provider") "neynar" then
          qrCodeDataUrl ← toDataURL (signer !! "approvalUrl");
          mret {| qr_status := 200;
                  qr_body := set_prop "approvalUrl" (signer !! "approvalUrl")
                               {[ "success" := JBool true;
                                  "qrCode" := JStr qrCodeDataUrl;
                                  "provider" := JStr "neynar" ]};
                  qr_instructions := None |}
        else
          deeplink ← (if truthy (signer !! "approvalUrl")
                      then starts_with_farcaster (signer !! "approvalUrl")
                      else Returns false);
          if deeplink : bool then
            qrCodeDataUrl ← toDataURL (signer !! "approvalUrl");
            mret {| qr_status := 200;
                    qr_body := set_prop "approvalUrl" (signer !! "approvalUrl")
                                 {[ "success" := JBool true;
                                    "qrCode" := JStr qrCodeDataUrl;
                                    "provider" := JStr "direct_farcaster";
                                    "message" := JStr "🔐 Scan QR code to approve your Ed25519 signer in Farcaster";
                                    "note" := JStr "This approval URL will open directly in your Farcaster app" ]};
                    qr_instructions :=
                      Some [ "1. Open Farcaster app (Warpcast, etc.)";
                             "2. Scan this QR code or click the approval link";
                             "3. Approve the signer request in your app";
                             "4. Return here to check approval status" ] |}
          else
            let approvalUrl := WARPCAST_SETTINGS in
            qrCodeDataUrl ← toDataURL (Some (JStr approvalUrl));
            mret {| qr_status := 200;
                    qr_body := {[ "success" := JBool true;
                                  "qrCode" := JStr qrCodeDataUrl;
                                  "approvalUrl" := JStr approvalUrl;
                                  "provider" := JStr "direct_farcaster";
                                  "message" := JStr "Please go to Warpcast settings to approve this app" ]};
                    qr_instructions :=
                      Some [ "1. Open Warpcast app";
                             "2. Go to Settings → Apps";
                             "3. Find this app and approve it";
                             "4. Return here to continue" ] |} in
      match answer with
      | Returns answer => answer
      | Throws message =>
          {| qr_status := 500;
             qr_body := {[ "error" := JStr "Failed to generate QR code";
                           "details" := JStr message ]};
             qr_instructions := None |}
      end
  end.

End QrCode.

(** ** Polling for approval ([farcaster-signer.js]) *)

(** [waitForSignerApproval(token, maxAttempts = 30, intervalMs = 2000)],
    from attempt [attempt] on, with [remaining] turns of the loop left;
    [worlds k] is the world at the time of attempt [k], and nothing is
    returned when the loop runs out. *)
Fixpoint wait_from (worlds : nat → World) (token : option jsval)
    (maxAttempts remaining attempt : nat) : option jsobj :=
  match remaining with
  | O => None
  | S remaining =>
      let turn : Outcome (option jsobj) :=
        status ← checkSignedKeyRequestStatus (worlds attempt) token;
        state ← prop status "state";
        if is_str state "completed" then
          userFid ← prop status "userFid";
          mret (Some (set_prop "state" state
                        (set_prop "userFid" userFid
                           {[ "success" := JBool true;
                              "message" := JStr "Signer has been approved and is ready to use!" ]})))
        else if is_str state "approved" then
          userFid ← prop status "userFid";
          mret (Some (set_prop "state" state
                        (set_prop "userFid" userFid
                           {[ "success" := JBool true;
                              "message" := JStr "Signer approved, waiting for blockchain confirmation..." ]})))
        else if is_str state "revoked" then
          mret (Some (set_prop "state" state
                        {[ "success" := JBool false;
                           "message" := JStr "User revoked the signer request" ]}))
        else mret None in
      match turn with
      | Returns (Some result) => Some result
      | Returns None => wait_from worlds token maxAttempts remaining (S attempt)
      | Throws _ =>
          if decide (attempt = maxAttempts) then
            Some {[ "success" := JBool false;
                    "error" := JStr "Max attempts reached";
                    "message" := JStr "User did not approve signer within the expected time" ]}
          else wait_from worlds token maxAttempts remaining (S attempt)
      end
  end.

Definition waitForSignerApproval (worlds : nat → World) (token : option jsval)
    (maxAttempts : nat) : option jsobj :=
  wait_from worlds token maxAttempts maxAttempts 1.

(** ** The server as a whole *)

(** What reaches the server: the five routes with their inputs, and the
    hourly tick of the session sweep. *)
Inductive Request :=
| CreateSigner (clientIP : string) (fid : option jsval) (signerUuid : option string)
| SignerStatus (signerUuid : string)
| PostCast (clientIP : string) (signerUuid text parentUrl : option string)
| GetUser (fid : string)
| QrCode (signerUuid : string)
| Stats
| Sweep.

Section Server.

Variable parseInt : option jsval → jsval.
Variable readdirSync : gmap string jsobj → list string.

(** The state after one request is served in world [w]. *)
Definition step (st : ServerState) (event : World * Request) : ServerState :=
  let '(w, request) := event in
  match request with
  | CreateSigner clientIP fid signerUuid =>
      (create_signer parseInt w clientIP fid signerUuid st).2
  | SignerStatus signerUuid => (signer_status w signerUuid st).2
  | PostCast clientIP signerUuid text parentUrl =>
      (post_cast w clientIP signerUuid text parentUrl st).2
  | GetUser fid => (get_user parseInt w fid st).2.2
  | QrCode _ => st
  | Stats => st
  | Sweep => with_db (cleanupOldSessions readdirSync (now w) (db st)) st
  end.

Definition run (events : list (World * Request)) (st : ServerState) : ServerState :=
  foldl step st events.

End Server.

(** The server at startup. *)
Definition startup : ServerState :=
  {| activeSigners := ∅; rateLimit := ∅; db := no_files |}.

(** ** Invariants of the store *)

(** Every session file is named after the [signerUuid] it holds and holds
    the time of its last write. *)
Definition sessions_wf (dir : gmap string jsobj) : Prop :=
  ∀ file session, dir !! file = Some session →
    file = to_string (session !! "signerUuid") +:+ ".json"
    ∧ ∃ updated, session !! "updatedAt" = Some (JNum updated).

(** Every post file is named after the timestamp and the hash it holds. *)
Definition posts_wf (dir : gmap string jsobj) : Prop :=
  ∀ file post, dir !! file = Some post →
    ∃ timestamp,
      post !! "timestamp" = Some (JNum timestamp)
      ∧ file = pretty timestamp +:+ "_" +:+ to_string (post !! "hash") +:+ ".json".

(** Every file of a directory has a name in [.json]. *)
Definition all_json (dir : gmap string jsobj) : Prop :=
  ∀ file, is_Some (dir !! file) → ends_with ".json" file = true.

Definition store_wf (db : Database) : Prop :=
  all_json (users db) ∧ posts_wf (posts db) ∧ sessions_wf (sessions db).

(** Every file of the three directories has a name in [.json]. *)
Definition store_json (db : Database) : Prop :=
  all_json (users db) ∧ all_json (posts db) ∧ all_json (sessions db).

(** What is asked of [fs.readdirSync]: it names each file of the
    directory, once. *)
Definition lists_files (readdirSync : gmap string jsobj → list string) : Prop :=
  ∀ dir, NoDup (readdirSync dir) ∧ ∀ file, file ∈ readdirSync dir ↔ is_Some (dir !! file).

(** A post is at least as recent as another. *)
Definition not_older (a b : jsobj) : Prop :=
  ∃ ta tb, timestamp_number a = Some ta ∧ timestamp_number b = Some tb ∧ (tb ≤ ta)%Z.

(** Whether the sweep at [now] removes a session. *)
Definition expired (now : Z) (session : jsobj) : bool :=
  truthy_time (session !! "updatedAt")
  && match session !! "updatedAt" ≫= getTime with
     | Some updated => bool_decide (oneDay < now - updated)%Z
     | None => false
     end.

(** A listing of a directory: each file once, in the order of the map. *)
Definition listing (dir : gmap string jsobj) : list string := (map_to_list dir).*1.

(** Every signer of the table is a pre-approved hosted one. *)
Definition all_siwn (signers : gmap string jsobj) : Prop :=
  ∀ signerUuid signer, signers !! signerUuid = Some signer →
    signer !! "provider" = Some (JStr "neynar_siwn")
    ∧ signer !! "status" = Some (JStr "approved")
    ∧ signer !! "signerUuid" = Some (JStr signerUuid).

(** ** Vocabulary of the properties of the whole server *)

(** A branch of post-cast either refuses and leaves the state alone, or
    answers 200 with the cast it has saved. *)
Definition refused_or_saved (w : World) (st : ServerState)
    (answer : Response * ServerState) : Prop :=
  (code answer.1 ≠ 200%Z ∧ answer.2 = st)
  ∨ ∃ castInfo,
      code answer.1 = 200%Z
      ∧ body answer.1 !! "cast" = Some (JObj castInfo)
      ∧ answer.2 = with_db (savePost (now w) castInfo (db st)).2 st.

(** A post-cast request that passes the checks on its fields and the
    limiter. *)
Definition valid_call (w : World) (ip uuid txt : string) (st : ServerState) : Prop :=
  uuid ≠ "" ∧ txt ≠ "" ∧ String.length txt ≤ 320 ∧ admitted w ip st = true.

(** The signer that create-signer files. *)
Definition siwn_signer (now : Z) (fidNum : jsval) (uuid : string) : jsobj :=
  <["signerUuid" := JStr uuid]>
    {[ "status" := JStr "approved";
       "fid" := fidNum;
       "createdAt" := JNum now;
       "provider" := JStr "neynar_siwn" ]}.

(** What a status check may do to the state: nothing, or replace the signer
    checked and update one session. *)
Definition status_effect (w : World) (id : string) (st st' : ServerState) : Prop :=
  st' = st
  ∨ ∃ signer key updates,
      st' = {| activeSigners := <[id := signer]> (activeSigners st);
               rateLimit := rateLimit st;
               db := (updateSession (now w) key updates (db st)).2 |}.

(** No identifier has more than the cap of requests on record. *)
Definition rate_bounded (rl : gmap string (list Z)) : Prop :=
  ∀ id requests, rl !! id = Some requests → length requests ≤ MAX_REQUESTS_PER_WINDOW.

(** A map that loses no key. *)
Definition grows {A : Type} (m m' : gmap string A) : Prop :=
  ∀ k, is_Some (m !! k) → is_Some (m' !! k).

(** A profile found by one of the two providers, saved and answered. *)
Definition cached (w : World) (st : ServerState) (answer : Response * ServerState) : Prop :=
  ∃ provider user userFid,
    (provider = "direct_farcaster" ∨ provider = "neynar")
    ∧ answer.1 = profile provider user
    ∧ prop user "fid" = Returns userFid
    ∧ getUser userFid (db answer.2)
      = Some (<["updatedAt" := JNum (now w)]> (spread user))
    ∧ (∀ other, to_string other ≠ to_string userFid →
         getUser other (db answer.2) = getUser other (db st))
    ∧ posts (db answer.2) = posts (db st)
    ∧ sessions (db answer.2) = sessions (db st)
    ∧ activeSigners answer.2 = activeSigners st
    ∧ rateLimit answer.2 = rateLimit st.

(** What one attempt of the poll sees: the key request in a state that
    settles nothing, or a failed check. *)
Definition still_waiting (w : World) (token : option jsval) : Prop :=
  ∃ status state,
    checkSignedKeyRequestStatus w token = Returns status
    ∧ prop status "state" = Returns state
    ∧ is_str state "completed" = false
    ∧ is_str state "approved" = false
    ∧ is_str state "revoked" = false.

Definition check_fails (w : World) (token : option jsval) : Prop :=
  ∃ message, checkSignedKeyRequestStatus w token = Throws message.

(** The answer of the poll when its last attempt fails. *)
Definition max_attempts_reached : jsobj :=
  {[ "success" := JBool false;
     "error" := JStr "Max attempts reached";
     "message" := JStr "User did not approve signer within the expected time" ]}.

(** ** More sample worlds and states *)

(** The SDK client is configured and answers; the direct API is down. *)
Definition sdk_up (t : Z) : World :=
  {| now := t;
     neynarClient := true;
     getSigner := λ _, Returns (JObj {[ "status" := JStr "approved" ]});
     publishCast := λ _, Returns (JObj {[ "hash" := JStr "0xcafe"; "text" := JStr "hello" ]});
     fetchBulkUsers := λ _, Returns [alice];
     fetch := λ _, Throws "fetch failed" |}.

(** A signer of the managed provider, as the table holds it under ["s1"]. *)
Definition managed_signer (status : string) : jsobj :=
  {[ "signerUuid" := JStr "s1";
     "status" := JStr status;
     "provider" := JStr "neynar";
     "approvalUrl" := JStr "https://client.warpcast.com/deeplinks/signed-key-request?token=0xtoken" ]}.

(** A server that holds [signer] under ["s1"] with its session on file. *)
Definition server_with_session (signer : jsobj) : ServerState :=
  {| activeSigners := {[ "s1" := signer ]};
     rateLimit := ∅;
     db := (saveSession 0 signer no_files).2 |}.

(** A store with one session last written at the epoch and one at
    90000000. *)
Definition two_sessions : Database :=
  (saveSession 90000000 {[ "signerUuid" := JStr "new" ]}
     (saveSession 0 {[ "signerUuid" := JStr "old" ]} no_files).2).2.

(** A store with two casts of account 42, saved at 1000 and at 2000. *)
Definition two_posts : Database :=
  (savePost 2000 {[ "hash" := JStr "0xb"; "fid" := JNum 42 ]}
     (savePost 1000 {[ "hash" := JStr "0xa"; "fid" := JNum 42 ]} no_files).2).2.

(** The direct API reports the key request pending until attempt [k], and
    in [state] from then on. *)
Definition settles_at (k : nat) (state : string) (attempt : nat) : World :=
  hub (Z.of_nat attempt) (if decide (attempt < k) then "pending" else state).

(** * Properties *)

(** ** Values *)

Lemma is_str_eq v lit : is_str v lit = true → v = Some (JStr lit).
Proof.
  destruct v as [[| | |s|]|]; simpl; try done.
  intros H%String.eqb_eq. by subst.
Qed.

Lemma is_str_other v lit lit' :
  is_str v lit = true → lit ≠ lit' → is_str v lit' = false.
Proof. intros ->%is_str_eq Hne. simpl. by apply String.eqb_neq. Qed.


Lemma lookup_set_prop_eq k v (o : jsobj) : set_prop k v o !! k = v.
Proof. destruct v; simpl; [by rewrite lookup_insert_eq | by rewrite lookup_delete_eq]. Qed.

Lemma lookup_set_prop_ne k k' v (o : jsobj) :
  k ≠ k' → set_prop k v o !! k' = o !! k'.
Proof.
  intros Hne. destruct v; simpl; [by rewrite lookup_insert_ne | by rewrite lookup_delete_ne].
Qed.

Lemma null_or_not (v : jsval) : v = JNull ∨ v ≠ JNull.
Proof. destruct v; [by left | by right..]. Qed.

(** ** Rate limiter *)

Lemma checkRateLimit_admits now id rl :
  length (in_window now (default [] (rl !! id))) < MAX_REQUESTS_PER_WINDOW →
  checkRateLimit now id rl
  = (true, <[id := in_window now (default [] (rl !! id)) ++ [now]]> rl).
Proof.
  intros Hlt. unfold checkRateLimit, in_window in *.
  destruct (rl !! id) as [reqs|] eqn:Hid; simpl in *.
  - rewrite Hid. simpl. case_decide; [lia | done].
  - rewrite lookup_insert_eq. simpl. by rewrite insert_insert_eq.
Qed.

Lemma checkRateLimit_rejects now id rl :
  MAX_REQUESTS_PER_WINDOW ≤ length (in_window now (default [] (rl !! id))) →
  checkRateLimit now id rl = (false, rl).
Proof.
  intros Hge. unfold checkRateLimit, in_window in *.
  destruct (rl !! id) as [reqs|] eqn:Hid; simpl in *.
  - rewrite Hid. simpl. case_decide; [done | lia].
  - unfold MAX_REQUESTS_PER_WINDOW in Hge. simpl in Hge. lia.
Qed.

Lemma in_window_all now l :
  (∀ t, t ∈ l → (now - RATE_LIMIT_WINDOW < t)%Z) → in_window now l = l.
Proof.
  unfold in_window. induction l as [|a l IH]; intros H; [done|].
  rewrite filter_cons_True by (apply H; left).
  f_equal. apply IH. intros t Ht. apply H. by right.
Qed.

Lemma in_window_none now l :
  (∀ t, t ∈ l → (t + RATE_LIMIT_WINDOW ≤ now)%Z) → in_window now l = [].
Proof.
  unfold in_window. induction l as [|a l IH]; intros H; [done|].
  rewrite filter_cons_False.
  - apply IH. intros t Ht. apply H. by right.
  - specialize (H a ltac:(left)). lia.
Qed.

(** Requests that all fall in one window are admitted and appended as long
    as the cap leaves room. *)
Lemma serve_all_within_window id ts : ∀ acc rl,
  rl !! id = Some acc →
  (∀ a t, a ∈ acc ++ ts → t ∈ ts → (t - RATE_LIMIT_WINDOW < a)%Z) →
  length acc + length ts ≤ MAX_REQUESTS_PER_WINDOW →
  serve_all id ts rl = (replicate (length ts) true, <[id := acc ++ ts]> rl).
Proof.
  induction ts as [|t ts IH]; intros acc rl Hid Hwin Hlen; simpl.
  - rewrite app_nil_r. by rewrite insert_id.
  - rewrite checkRateLimit_admits; rewrite Hid; simpl.
    + rewrite in_window_all.
      2:{ intros a Ha. apply Hwin; [apply elem_of_app; by left | left]. }
      rewrite (IH (acc ++ [t])).
      * rewrite insert_insert_eq. by rewrite <- app_assoc.
      * by rewrite lookup_insert_eq.
      * intros a t' Ha Ht'. apply Hwin; [| by right].
        rewrite <- app_assoc in Ha. done.
      * rewrite length_app. simpl in *. lia.
    + rewrite in_window_all.
      2:{ intros a Ha. apply Hwin; [apply elem_of_app; by left | left]. }
      simpl in Hlen. lia.
Qed.

(** C7: for one identifier whose earlier requests have all left the window,
    [MAX_REQUESTS_PER_WINDOW] requests [ts] that lie within one 60-second
    window of each other and of a further request [t_over] are all admitted
    and recorded, in order; the request at [t_over] is then rejected and
    the table is left as it was; and a request at [t_late], which comes when
    the window of one of the recorded requests has elapsed, is admitted and
    recorded after the requests still in its window. *)
Theorem rate_limiter_window id rl ts t_over t_late t0 :
  (∀ a t, a ∈ default [] (rl !! id) → t ∈ ts → (a + RATE_LIMIT_WINDOW ≤ t)%Z) →
  length ts = MAX_REQUESTS_PER_WINDOW →
  (∀ a t, a ∈ ts ++ [t_over] → t ∈ ts ++ [t_over] → (t - RATE_LIMIT_WINDOW < a)%Z) →
  t0 ∈ ts → (t0 + RATE_LIMIT_WINDOW ≤ t_late)%Z →
  (serve_all id ts rl).1 = replicate MAX_REQUESTS_PER_WINDOW true
  ∧ (serve_all id ts rl).2 = <[id := ts]> rl
  ∧ checkRateLimit t_over id (<[id := ts]> rl) = (false, <[id := ts]> rl)
  ∧ checkRateLimit t_late id (<[id := ts]> rl)
    = (true, <[id := in_window t_late ts ++ [t_late]]> rl).
Proof.
  intros Hstale Hlen Hwin Ht0 Hlate.
  assert (serve_all id ts rl
          = (replicate MAX_REQUESTS_PER_WINDOW true, <[id := ts]> rl)) as Hrun.
  { destruct ts as [|t1 ts']; [done|]. cbn [serve_all].
    rewrite checkRateLimit_admits.
    - rewrite in_window_none by (intros a Ha; apply Hstale; [done | left]).
      rewrite app_nil_l, (serve_all_within_window id ts' [t1]).
      + rewrite insert_insert_eq. by rewrite <- Hlen.
      + by rewrite lookup_insert_eq.
      + intros a t Ha Ht. apply Hwin.
        * apply elem_of_app. by left.
        * apply elem_of_app. left. by right.
      + simpl in *. lia.
    - rewrite in_window_none by (intros a Ha; apply Hstale; [done | left]).
      unfold MAX_REQUESTS_PER_WINDOW. simpl. lia. }
  rewrite Hrun. simpl. split; [done|]. split; [done|]. split.
  - apply checkRateLimit_rejects. rewrite lookup_insert_eq. simpl.
    rewrite in_window_all; [lia|].
    intros t Ht. apply Hwin; apply elem_of_app; [by left | right; left].
  - rewrite checkRateLimit_admits; rewrite lookup_insert_eq; simpl.
    + by rewrite insert_insert_eq.
    + rewrite <- Hlen. apply (length_filter_lt _ _ t0); [done | lia].
Qed.

Lemma between_1_and_11 t : t ∈ ten_requests ++ [11%Z] → (1 ≤ t ≤ 11)%Z.
Proof.
  revert t. apply Forall_forall. unfold ten_requests. simpl.
  repeat (apply Forall_cons; split; [lia|]). apply Forall_nil_2.
Qed.

(** Ten requests at 1 ms to 10 ms from a client not seen before: the one at
    11 ms is rejected, the one at 60001 ms admitted. *)
Lemma rate_limiter_window_witness :
  (serve_all "203.0.113.7" ten_requests ∅).1 = replicate 10 true
  ∧ (serve_all "203.0.113.7" ten_requests ∅).2 = {[ "203.0.113.7" := ten_requests ]}
  ∧ (checkRateLimit 11 "203.0.113.7" {[ "203.0.113.7" := ten_requests ]}).1 = false
  ∧ (checkRateLimit 60001 "203.0.113.7" {[ "203.0.113.7" := ten_requests ]}).1 = true.
Proof.
  destruct (rate_limiter_window "203.0.113.7" ∅ ten_requests 11 60001 1)
    as (Hadmitted & Hrecorded & Hover & Hlate).
  - intros a t Ha. rewrite lookup_empty in Ha. simpl in Ha. by apply elem_of_nil in Ha.
  - reflexivity.
  - intros a t Ha%between_1_and_11 Ht%between_1_and_11.
    unfold RATE_LIMIT_WINDOW. lia.
  - left.
  - unfold RATE_LIMIT_WINDOW. lia.
  - rewrite insert_empty in Hrecorded, Hover, Hlate.
    rewrite Hadmitted, Hrecorded, Hover, Hlate.
    split; [reflexivity|]. split; [reflexivity|]. split; reflexivity.
Defined.

(** ** Flat-file store *)

(** C9, as the store has it, for keys that are file names: a session saved
    is read back, under the [signerUuid] it carries, as the same object
    with [updatedAt] set to the time of the write; likewise a user under
    the [fid] it carries; and a session deleted is read back as absent. *)
Theorem store_round_trip now v k db :
  file_name (to_string (v !! "signerUuid")) = true →
  file_name (to_string (v !! "fid")) = true →
  file_name (to_string k) = true →
  getSession (v !! "signerUuid") (saveSession now v db).2
  = Some (<["updatedAt" := JNum now]> v)
  ∧ (∃ db', saveUser now (JObj v) db = Returns (true, db')
            ∧ getUser (v !! "fid") db' = Some (<["updatedAt" := JNum now]> v))
  ∧ getSession k (deleteSession k db).2 = None.
Proof.
  intros _ _ _. split; [|split].
  - unfold getSession, saveSession, readJsonFile. simpl. by rewrite lookup_insert_eq.
  - eexists. split; [reflexivity|].
    unfold getUser, readJsonFile. simpl. by rewrite lookup_insert_eq.
  - unfold getSession, deleteSession, readJsonFile.
    destruct (sessions db !! _) eqn:Hk; simpl; [by rewrite lookup_delete_eq | done].
Qed.

(** A session and a user of account 42, saved in an empty store and read
    back; the session deleted. *)
Lemma store_round_trip_witness :
  let v : jsobj := {[ "signerUuid" := JStr "s1"; "fid" := JNum 42 ]} in
  getSession (Some (JStr "s1")) (saveSession 1000 v no_files).2
  = Some (<["updatedAt" := JNum 1000]> v)
  ∧ getSession (Some (JStr "s1"))
      (deleteSession (Some (JStr "s1")) (saveSession 1000 v no_files).2).2 = None.
Proof.
  cbn zeta.
  destruct (store_round_trip 1000 {[ "signerUuid" := JStr "s1"; "fid" := JNum 42 ]}
              (Some (JStr "s1"))
              (saveSession 1000 {[ "signerUuid" := JStr "s1"; "fid" := JNum 42 ]} no_files).2)
    as (_ & _ & Hdeleted); [reflexivity..|].
  destruct (store_round_trip 1000 {[ "signerUuid" := JStr "s1"; "fid" := JNum 42 ]}
              (Some (JStr "s1")) no_files)
    as (Hsaved & _ & _); [reflexivity..|].
  split; [exact Hsaved | exact Hdeleted].
Defined.

(** The post namespace is written differently: the record of a saved post
    carries [id], [createdAt] and [timestamp], and no [updatedAt], so it is
    not the post augmented with an [updatedAt] field. *)
Lemma post_record_lacks_updatedAt :
  let post : jsobj := {[ "hash" := JStr "0xabc"; "text" := JStr "hello" ]} in
  ∃ record,
    readJsonFile (posts (savePost 1000 post no_files).2) "1000_0xabc.json" = Some record
    ∧ record !! "updatedAt" = None
    ∧ record !! "createdAt" = Some (JNum 1000)
    ∧ ∀ updatedAt, record ≠ <["updatedAt" := updatedAt]> post.
Proof.
  eexists. split; [reflexivity|]. split; [reflexivity|]. split; [reflexivity|].
  intros updatedAt Heq. apply (f_equal (λ o : jsobj, o !! "updatedAt")) in Heq.
  rewrite lookup_insert_eq in Heq. vm_compute in Heq. discriminate Heq.
Qed.

(** ** Posting a cast *)

Lemma fields_present id text :
  id ≠ "" → text ≠ "" → fields_missing (Some id) (Some text) = false.
Proof.
  intros Hid Htext. unfold fields_missing, truthy_str. simpl.
  apply String.eqb_neq in Hid, Htext. by rewrite Hid, Htext.
Qed.

Lemma long_text_nonempty text : 320 < String.length text → text ≠ "".
Proof. intros Hlen ->. simpl in Hlen. lia. Qed.

(** Discharges the side conditions of the lemmas below from the hypotheses
    in their readable form. *)
Ltac precondition :=
  solve [ by apply fields_present
        | apply bool_decide_eq_false; lia
        | apply bool_decide_eq_true; lia
        | done ].

(** The handler, check by check. *)
Lemma post_cast_rate_limited w ip id text p st :
  fields_missing (Some id) (Some text) = false →
  admitted w ip st = false →
  post_cast w ip (Some id) (Some text) p st = (rate_limited, counted w ip st).
Proof.
  unfold post_cast, admitted, counted. intros -> Hadm.
  destruct (checkRateLimit _ _ _) as [ok rl]. simpl in *. by subst.
Qed.

Lemma post_cast_too_long w ip id text p st :
  fields_missing (Some id) (Some text) = false →
  admitted w ip st = true →
  text_too_long text = true →
  post_cast w ip (Some id) (Some text) p st = (too_long, counted w ip st).
Proof.
  unfold post_cast, admitted, counted. intros -> Hadm Hlong.
  destruct (checkRateLimit _ _ _) as [ok rl]. simpl in *. subst. by rewrite Hlong.
Qed.

Lemma post_cast_unknown_signer w ip id text p st :
  fields_missing (Some id) (Some text) = false →
  admitted w ip st = true →
  text_too_long text = false →
  activeSigners st !! id = None →
  post_cast w ip (Some id) (Some text) p st = (signer_not_found, counted w ip st).
Proof.
  unfold post_cast, admitted, counted. intros -> Hadm Hlong Hid.
  destruct (checkRateLimit _ _ _) as [ok rl]. simpl in *. subst. by rewrite Hlong, Hid.
Qed.

Lemma post_cast_not_approved w ip id text p st signer :
  fields_missing (Some id) (Some text) = false →
  admitted w ip st = true →
  text_too_long text = false →
  activeSigners st !! id = Some signer →
  not_approved signer = true →
  post_cast w ip (Some id) (Some text) p st = (not_approved_yet, counted w ip st).
Proof.
  unfold post_cast, admitted, counted. intros -> Hadm Hlong Hid Hna.
  destruct (checkRateLimit _ _ _) as [ok rl]. simpl in *. subst. by rewrite Hlong, Hid, Hna.
Qed.

Lemma post_cast_direct w ip id text p st signer :
  fields_missing (Some id) (Some text) = false →
  admitted w ip st = true →
  text_too_long text = false →
  activeSigners st !! id = Some signer →
  not_approved signer = false →
  is_str (signer !! "provider") "direct_farcaster" = true →
  post_cast w ip (Some id) (Some text) p st
  = post_direct w id text p signer (counted w ip st).
Proof.
  unfold post_cast, admitted, counted. intros -> Hadm Hlong Hid Hna Hprov.
  destruct (checkRateLimit _ _ _) as [ok rl]. simpl in *. subst. rewrite Hlong, Hid, Hna.
  by rewrite (is_str_other _ _ "neynar_siwn" Hprov), Hprov.
Qed.

(** C10: the presence checks go by truthiness.  A create-signer request
    whose [fid] is the number 0 and a post-cast request whose [text] is the
    empty string are answered 400 for missing fields, whatever else they
    carry, and leave the whole state, rate limiter included, as it was. *)
Theorem falsy_fields_rejected parseInt w ip signerUuid parentUrl st :
  create_signer parseInt w ip (Some (JNum 0)) signerUuid st
  = ({| code := 400;
        body := {[ "error" := JStr "FID and signerUuid are required for SIWN flow" ]} |},
     st)
  ∧ post_cast w ip signerUuid (Some "") parentUrl st = (fields_required, st).
Proof.
  split; [done|].
  unfold post_cast, fields_missing. simpl. by rewrite orb_true_r.
Qed.

(** C2, as the handler has it: a post-cast request with both fields present
    and a text of more than 320 characters is answered 400, text too long,
    when the rate limiter admits it, and 429 when it does not; either way
    the store and the signer table are left as they were. *)
Theorem long_text_rejected w ip id text p st :
  id ≠ "" →
  320 < String.length text →
  (post_cast w ip (Some id) (Some text) p st).1
  = (if admitted w ip st then too_long else rate_limited)
  ∧ db (post_cast w ip (Some id) (Some text) p st).2 = db st
  ∧ activeSigners (post_cast w ip (Some id) (Some text) p st).2 = activeSigners st.
Proof.
  intros Hid Hlen.
  pose proof (fields_present id text Hid (long_text_nonempty _ Hlen)) as Hfields.
  destruct (admitted w ip st) eqn:Hadm.
  - by rewrite post_cast_too_long by precondition.
  - by rewrite post_cast_rate_limited.
Qed.

(** A text of 321 characters from a client not seen before. *)
Lemma long_text_rejected_witness :
  (post_cast (offline 1000) "203.0.113.7" (Some "s1") (Some long_text) None
     (server (direct_signer "approved") [])).1 = too_long
  ∧ db (post_cast (offline 1000) "203.0.113.7" (Some "s1") (Some long_text) None
          (server (direct_signer "approved") [])).2 = no_files.
Proof.
  destruct (long_text_rejected (offline 1000) "203.0.113.7" "s1" long_text None
              (server (direct_signer "approved") []))
    as (Hanswer & Hdb & _).
  - discriminate.
  - vm_compute. lia.
  - rewrite Hanswer, Hdb. split; reflexivity.
Defined.

(** The same text from a client that has just made ten requests: the
    answer is 429, not the 400 of a text too long. *)
Lemma long_text_rate_limited :
  320 < String.length long_text
  ∧ (post_cast (offline 11) "203.0.113.7" (Some "s1") (Some long_text) None
       (server (direct_signer "approved") ten_requests)).1 = rate_limited
  ∧ (post_cast (offline 11) "203.0.113.7" (Some "s1") (Some long_text) None
       (server (direct_signer "approved") ten_requests)).1 ≠ too_long.
Proof.
  assert ((post_cast (offline 11) "203.0.113.7" (Some "s1") (Some long_text) None
             (server (direct_signer "approved") ten_requests)).1 = rate_limited) as Hanswer
    by (vm_compute; reflexivity).
  split; [vm_compute; lia|]. split; [done|].
  rewrite Hanswer. intros Heq. apply (f_equal code) in Heq. discriminate Heq.
Qed.

(** C4, as the handler has it: a post-cast request with both fields
    present and a text within the limit, admitted by the rate limiter, for
    an id the signer table does not hold, is answered with the error
    "Signer not found", which is neither of the two validation errors; the
    store and the signer table are left as they were. *)
Theorem unknown_signer_rejected w ip id text p st :
  id ≠ "" → text ≠ "" → String.length text ≤ 320 →
  admitted w ip st = true →
  activeSigners st !! id = None →
  body (post_cast w ip (Some id) (Some text) p st).1 !! "error"
  = Some (JStr "Signer not found")
  ∧ body (post_cast w ip (Some id) (Some text) p st).1 !! "error"
    ≠ body fields_required !! "error"
  ∧ body (post_cast w ip (Some id) (Some text) p st).1 !! "error"
    ≠ body too_long !! "error"
  ∧ db (post_cast w ip (Some id) (Some text) p st).2 = db st
  ∧ activeSigners (post_cast w ip (Some id) (Some text) p st).2 = activeSigners st.
Proof.
  intros Hid Htext Hlen Hadm Hnone.
  by rewrite post_cast_unknown_signer by precondition.
Qed.

(** A request for ["s2"] when the table holds ["s1"] only. *)
Lemma unknown_signer_rejected_witness :
  body (post_cast (offline 1000) "203.0.113.7" (Some "s2") (Some "hello") None
          (server (direct_signer "approved") [])).1 !! "error"
  = Some (JStr "Signer not found").
Proof.
  destruct (unknown_signer_rejected (offline 1000) "203.0.113.7" "s2" "hello" None
              (server (direct_signer "approved") []))
    as (Herror & _).
  - discriminate.
  - discriminate.
  - vm_compute. lia.
  - reflexivity.
  - reflexivity.
  - exact Herror.
Defined.

(** The same request from a client that has just made ten requests is
    answered 429 and not with the unknown-signer error. *)
Lemma unknown_signer_rate_limited :
  activeSigners (server (direct_signer "approved") ten_requests) !! "s2" = None
  ∧ (post_cast (offline 11) "203.0.113.7" (Some "s2") (Some "hello") None
       (server (direct_signer "approved") ten_requests)).1 = rate_limited
  ∧ body (post_cast (offline 11) "203.0.113.7" (Some "s2") (Some "hello") None
            (server (direct_signer "approved") ten_requests)).1 !! "error"
    ≠ Some (JStr "Signer not found")
  ∧ code (post_cast (offline 11) "203.0.113.7" (Some "s2") (Some "hello") None
            (server (direct_signer "approved") ten_requests)).1 ≠ 404%Z.
Proof.
  assert ((post_cast (offline 11) "203.0.113.7" (Some "s2") (Some "hello") None
             (server (direct_signer "approved") ten_requests)).1 = rate_limited) as Hanswer
    by (vm_compute; reflexivity).
  split; [reflexivity|]. split; [done|]. rewrite Hanswer.
  split; [by vm_compute | done].
Qed.

(** Where the unknown-signer answer is given, its status is the 400 of the
    validation errors; signer-status answers 404 for the same id. *)
Lemma unknown_signer_status_codes :
  code (post_cast (offline 1000) "203.0.113.7" (Some "s2") (Some "hello") None
          (server (direct_signer "approved") [])).1 = 400%Z
  ∧ code (signer_status (offline 1000) "s2" (server (direct_signer "approved") [])).1
    = 404%Z.
Proof. split; reflexivity. Qed.

(** While a signer is not approved, the same request sent again and again
    is answered by the rate limiter's verdicts alone. *)
Lemma post_casts_not_approved ws : ∀ ip id text p st signer,
  fields_missing (Some id) (Some text) = false →
  text_too_long text = false →
  activeSigners st !! id = Some signer →
  not_approved signer = true →
  post_casts ws ip (Some id) (Some text) p st
  = ((λ ok : bool, if ok then not_approved_yet else rate_limited)
       <$> (serve_all ip (now <$> ws) (rateLimit st)).1,
     with_rateLimit (serve_all ip (now <$> ws) (rateLimit st)).2 st).
Proof.
  induction ws as [|w ws IH]; intros ip id text p st signer Hf Hlen Hid Hna.
  - by destruct st.
  - cbn [post_casts fmap list_fmap serve_all].
    assert (post_cast w ip (Some id) (Some text) p st
            = (if admitted w ip st then not_approved_yet else rate_limited,
               counted w ip st))
      as ->.
    { destruct (admitted w ip st) eqn:Hadm.
      - by erewrite post_cast_not_approved.
      - by rewrite post_cast_rate_limited. }
    rewrite (IH ip id text p (counted w ip st) signer) by done.
    unfold admitted, counted. simpl.
    destruct (checkRateLimit (now w) ip (rateLimit st)) as [ok rl]. simpl.
    by destruct (serve_all ip (now <$> ws) rl).
Qed.

(** C3, as the handler has it: take a post-cast request with both fields
    present and a text within the limit, for a signer whose stored status
    is not "approved" (nor, for a direct signer, "completed").  However
    often it is sent, each call the rate limiter admits is answered 400,
    not approved yet, and each call it does not admit 429; no call writes
    to the store or changes the signer table. *)
Theorem not_ready_repeated ws ip id text p st signer :
  id ≠ "" → text ≠ "" → String.length text ≤ 320 →
  activeSigners st !! id = Some signer →
  not_approved signer = true →
  is_str (signer !! "provider") "direct_farcaster"
    && is_str (signer !! "status") "completed" = false →
  (post_casts ws ip (Some id) (Some text) p st).1
  = (λ ok : bool, if ok then not_approved_yet else rate_limited)
      <$> (serve_all ip (now <$> ws) (rateLimit st)).1
  ∧ db (post_casts ws ip (Some id) (Some text) p st).2 = db st
  ∧ activeSigners (post_casts ws ip (Some id) (Some text) p st).2 = activeSigners st.
Proof.
  intros Hid Htext Hlen Hsigner Hna _.
  by rewrite (post_casts_not_approved ws ip id text p st signer) by precondition.
Qed.

(** Two calls, one second apart, for a signer still pending. *)
Lemma not_ready_repeated_witness :
  (post_casts [offline 1000; offline 2000] "203.0.113.7" (Some "s1") (Some "hello") None
     (server (direct_signer "pending") [])).1
  = [not_approved_yet; not_approved_yet]
  ∧ db (post_casts [offline 1000; offline 2000] "203.0.113.7" (Some "s1") (Some "hello")
          None (server (direct_signer "pending") [])).2 = no_files.
Proof.
  destruct (not_ready_repeated [offline 1000; offline 2000] "203.0.113.7" "s1" "hello"
              None (server (direct_signer "pending") []) (direct_signer "pending"))
    as (Hanswers & Hdb & _).
  - discriminate.
  - discriminate.
  - vm_compute. lia.
  - reflexivity.
  - reflexivity.
  - reflexivity.
  - rewrite Hanswers, Hdb. split; reflexivity.
Defined.

(** Eleven identical calls within eleven seconds, the stored status
    "pending" throughout: the first ten are answered not approved yet, the
    eleventh 429. *)
Lemma eleventh_call_rate_limited :
  let run := post_casts eleven_seconds "203.0.113.7" (Some "s1") (Some "hello") None
               (server (direct_signer "pending") []) in
  run.1 = replicate 10 not_approved_yet ++ [rate_limited]
  ∧ activeSigners run.2 !! "s1" = Some (direct_signer "pending")
  ∧ rate_limited ≠ not_approved_yet.
Proof.
  split; [vm_compute; reflexivity|]. split; [vm_compute; reflexivity|].
  intros Heq. apply (f_equal code) in Heq. discriminate Heq.
Qed.

(** C8: a post-cast request that gets as far as the provider branches (both
    fields present, admitted by the rate limiter, text within the limit,
    signer found, stored status "approved") for a direct signer without a
    private key is answered 400, "Ed25519 keys not found"; the store and
    the signer table are left as they were. *)
Theorem direct_keys_required w ip id text p st signer :
  id ≠ "" → text ≠ "" → String.length text ≤ 320 →
  admitted w ip st = true →
  activeSigners st !! id = Some signer →
  not_approved signer = false →
  is_str (signer !! "provider") "direct_farcaster" = true →
  truthy (privateKey signer) = false →
  code (post_cast w ip (Some id) (Some text) p st).1 = 400%Z
  ∧ body (post_cast w ip (Some id) (Some text) p st).1 !! "error"
    = Some (JStr "Ed25519 keys not found")
  ∧ db (post_cast w ip (Some id) (Some text) p st).2 = db st
  ∧ activeSigners (post_cast w ip (Some id) (Some text) p st).2 = activeSigners st.
Proof.
  intros Hid Htext Hlen Hadm Hsigner Hok Hdirect Hkey.
  rewrite (post_cast_direct w ip id text p st signer) by precondition.
  unfold post_direct. rewrite Hkey, orb_true_r. simpl.
  by rewrite lookup_set_prop_ne.
Qed.

(** An approved direct signer whose key pair is gone, with the direct API
    reporting its key request completed. *)
Lemma direct_keys_required_witness :
  code (post_cast (hub 1000 "completed") "203.0.113.7" (Some "s1") (Some "hello") None
          (server keyless_signer [])).1 = 400%Z
  ∧ body (post_cast (hub 1000 "completed") "203.0.113.7" (Some "s1") (Some "hello") None
            (server keyless_signer [])).1 !! "error"
    = Some (JStr "Ed25519 keys not found")
  ∧ db (post_cast (hub 1000 "completed") "203.0.113.7" (Some "s1") (Some "hello") None
          (server keyless_signer [])).2 = no_files.
Proof.
  destruct (direct_keys_required (hub 1000 "completed") "203.0.113.7" "s1" "hello" None
              (server keyless_signer []) keyless_signer)
    as (Hcode & Herror & Hdb & _).
  - discriminate.
  - discriminate.
  - vm_compute. lia.
  - reflexivity.
  - reflexivity.
  - reflexivity.
  - reflexivity.
  - reflexivity.
  - rewrite Hcode, Herror, Hdb. done.
Defined.

(** ** Checking a signer's status *)

(** What makes the live check of a direct signer fail. *)
Lemma fetch_failure_is_thrown w token message :
  fetch w (FARCASTER_API_BASE +:+ "/v2/signed-key-request?token=" +:+ to_string token)
  = Throws message →
  checkSignedKeyRequestStatus w token = Throws ("Failed to check status: " +:+ message).
Proof. intros H. unfold checkSignedKeyRequestStatus. by rewrite H. Qed.

Lemma bad_status_is_thrown w token response :
  fetch w (FARCASTER_API_BASE +:+ "/v2/signed-key-request?token=" +:+ to_string token)
  = Returns response →
  ok response = false →
  checkSignedKeyRequestStatus w token
  = Throws ("Failed to check status: Status check failed: "
            +:+ pretty (http_status response)).
Proof.
  intros H Hok. unfold checkSignedKeyRequestStatus. rewrite H. simpl. by rewrite Hok.
Qed.

(** C5: for a signer the table holds, when the live call made for its
    provider throws (the SDK's [getSigner] for a managed signer, the
    re-poll of the key request for a direct one), signer-status still
    answers 200 with the signer as stored, and the state is left as it
    was. *)
Theorem status_check_fails_open w id st signer :
  activeSigners st !! id = Some signer →
  (is_str (signer !! "provider") "neynar" = true →
   ∃ message, getSigner w id = Throws message) →
  (is_str (signer !! "provider") "direct_farcaster" = true →
   ∃ message, checkSignedKeyRequestStatus w (signer !! "token") = Throws message) →
  signer_status w id st = (stored_status signer, st).
Proof.
  intros Hsigner Hmanaged Hdirect. unfold signer_status. rewrite Hsigner.
  destruct (is_str (signer !! "provider") "neynar") eqn:Hn.
  - destruct (Hmanaged eq_refl) as [m Hm].
    unfold neynar_status. rewrite Hm. simpl.
    apply is_str_eq in Hn. rewrite Hn. simpl.
    by destruct (neynarClient w).
  - simpl. destruct (is_str (signer !! "provider") "direct_farcaster") eqn:Hd; [|done].
    destruct (Hdirect eq_refl) as [m Hm].
    unfold direct_status. rewrite Hm. simpl. by destruct (truthy (signer !! "token")).
Qed.

(** A pending direct signer checked while the network is down. *)
Lemma status_check_fails_open_witness :
  signer_status (offline 1000) "s1" (server (direct_signer "pending") [])
  = (stored_status (direct_signer "pending"), server (direct_signer "pending") [])
  ∧ code (stored_status (direct_signer "pending")) = 200%Z
  ∧ body (stored_status (direct_signer "pending")) !! "status" = Some (JStr "pending").
Proof.
  split; [|split; reflexivity].
  apply (status_check_fails_open (offline 1000) "s1"
           (server (direct_signer "pending") []) (direct_signer "pending")).
  - reflexivity.
  - discriminate.
  - intros _. eexists. by apply fetch_failure_is_thrown.
Defined.





(** ** Looking up a profile *)

Lemma read_user_finds response user :
  read_user response = Returns (Some user)
  ↔ ok response = true
    ∧ ∃ data result,
        json response = Returns data
        ∧ prop data "result" = Returns (Some result)
        ∧ truthy (Some result) = true
        ∧ prop result "user" = Returns (Some user)
        ∧ truthy (Some user) = true.
Proof.
  unfold read_user. split.
  - destruct (ok response); [|done]. intros Hread. split; [done|].
    destruct (json response) as [|data]; [done|]. cbn [mbind Outcome_bind] in Hread.
    destruct (prop data "result") as [|[result|]] eqn:Hresult; try done.
    cbn [mbind Outcome_bind] in Hread.
    destruct (truthy (Some result)) eqn:Htruthy; [|done].
    destruct (prop result "user") as [|[found|]] eqn:Huser; try done.
    cbn [mbind Outcome_bind mret Outcome_ret] in Hread.
    destruct (truthy (Some found)) eqn:Hfound; [|done].
    injection Hread as ->. by exists data, result.
  - intros (-> & data & result & -> & Hresult & Htruthy & Huser & Hfound).
    cbn [mbind Outcome_bind]. rewrite Hresult. cbn [mbind Outcome_bind].
    rewrite Htruthy, Huser. cbn [mbind Outcome_bind mret Outcome_ret]. by rewrite Hfound.
Qed.

(** The direct read makes one call, to the direct API, whatever comes of
    it. *)
Lemma direct_user_made w fid :
  made (direct_user w fid) = [DirectRead (FARCASTER_API_BASE +:+ "/v2/user?fid=" +:+ fid)].
Proof.
  unfold direct_user, call_fetch, mbind, Calls_bind. cbn [outcome made].
  by destruct (fetch w _).
Qed.

Lemma direct_user_outcome w fid :
  outcome (direct_user w fid)
  = (response ← fetch w (FARCASTER_API_BASE +:+ "/v2/user?fid=" +:+ fid);
     read_user response).
Proof.
  unfold direct_user, call_fetch, mbind at 1, Calls_bind. cbn [outcome made].
  by destruct (fetch w _).
Qed.

Lemma direct_user_finds w fid user :
  outcome (direct_user w fid) = Returns (Some user) ↔ direct_finds w fid user.
Proof.
  rewrite direct_user_outcome. unfold direct_finds. split.
  - destruct (fetch w _) as [|response]; [done|]. cbn [mbind Outcome_bind].
    intros (Hok & data & result & Hrest)%read_user_finds. by exists response, data, result.
  - intros (response & data & result & -> & Hok & Hrest). cbn [mbind Outcome_bind].
    apply read_user_finds. split; [done|]. by exists data, result.
Qed.

Lemma sdk_user_made parseInt w fid :
  made (sdk_user parseInt w fid) = [SdkRead (parseInt (Some (JStr fid)))].
Proof.
  unfold sdk_user, call_fetchBulkUsers, mbind, Calls_bind. cbn [outcome made].
  by destruct (fetchBulkUsers w _).
Qed.

Lemma sdk_user_outcome parseInt w fid :
  outcome (sdk_user parseInt w fid)
  = (users ← fetchBulkUsers w (parseInt (Some (JStr fid))); mret (head users)).
Proof.
  unfold sdk_user, call_fetchBulkUsers, mbind at 1, Calls_bind. cbn [outcome made].
  by destruct (fetchBulkUsers w _).
Qed.

Lemma sdk_user_finds parseInt w fid user :
  outcome (sdk_user parseInt w fid) = Returns (Some user) ↔ sdk_finds parseInt w fid user.
Proof.
  rewrite sdk_user_outcome. unfold sdk_finds. split.
  - destruct (fetchBulkUsers w _) as [|[|first others]]; try done.
    cbn [mbind Outcome_bind mret Outcome_ret head]. intros [= ->]. by exists others.
  - by intros (others & ->).
Qed.

Lemma direct_user_not_null w fid user :
  outcome (direct_user w fid) = Returns (Some user) → user ≠ JNull.
Proof.
  intros (response & data & result & _ & _ & _ & _ & _ & _ & Htruthy)%direct_user_finds.
  by intros ->.
Qed.

Lemma found_user_returns w provider user st :
  user ≠ JNull →
  ∃ st', found_user w provider user st = Returns (Some (profile provider user, st')).
Proof.
  intros Hnull. unfold found_user, saveUser.
  destruct user; try done; simpl; by eexists.
Qed.

(** The two [try] blocks: the calls they make, and the answers they give in
    terms of the outcome of the read. *)
Lemma direct_lookup_eq w fid st :
  direct_lookup w fid st
  = ([DirectRead (FARCASTER_API_BASE +:+ "/v2/user?fid=" +:+ fid)],
     try_block (user ← outcome (direct_user w fid);
                match user with
                | Some user => found_user w "direct_farcaster" user st
                | None => mret None
                end)).
Proof.
  unfold direct_lookup, try_calls. pose proof (direct_user_made w fid) as Hmade.
  unfold mbind at 1 2, Calls_bind.
  destruct (outcome (direct_user w fid)) as [|user]; cbn [made outcome quiet].
  - by rewrite Hmade.
  - by rewrite Hmade, app_nil_r.
Qed.

Lemma managed_lookup_eq parseInt w fid st :
  managed_lookup parseInt w fid st
  = ([SdkRead (parseInt (Some (JStr fid)))],
     try_block (user ← outcome (sdk_user parseInt w fid);
                match user with
                | Some user => found_user w "neynar" user st
                | None => mret None
                end)).
Proof.
  unfold managed_lookup, try_calls. pose proof (sdk_user_made parseInt w fid) as Hmade.
  unfold mbind at 1 2, Calls_bind.
  destruct (outcome (sdk_user parseInt w fid)) as [|user]; cbn [made outcome quiet].
  - by rewrite Hmade.
  - by rewrite Hmade, app_nil_r.
Qed.

Lemma direct_lookup_found w fid st user :
  outcome (direct_user w fid) = Returns (Some user) →
  ∃ st', (direct_lookup w fid st).2 = Some (profile "direct_farcaster" user, st').
Proof.
  intros Hdirect. rewrite direct_lookup_eq. cbn [snd]. rewrite Hdirect.
  cbn [mbind Outcome_bind].
  destruct (found_user_returns w "direct_farcaster" user st) as [st' ->];
    [by eapply direct_user_not_null | by exists st'].
Qed.

Lemma direct_lookup_none w fid st :
  (∀ found, outcome (direct_user w fid) ≠ Returns (Some found)) →
  (direct_lookup w fid st).2 = None.
Proof.
  intros Hno. rewrite direct_lookup_eq. cbn [snd].
  destruct (outcome (direct_user w fid)) as [|[found|]];
    [done | by destruct (Hno found) | done].
Qed.

Lemma managed_lookup_found parseInt w fid st user :
  outcome (sdk_user parseInt w fid) = Returns (Some user) → user ≠ JNull →
  ∃ st', (managed_lookup parseInt w fid st).2 = Some (profile "neynar" user, st').
Proof.
  intros Hsdk Hnull. rewrite managed_lookup_eq. cbn [snd]. rewrite Hsdk.
  cbn [mbind Outcome_bind].
  destruct (found_user_returns w "neynar" user st Hnull) as [st' ->]. by exists st'.
Qed.

Lemma managed_lookup_none parseInt w fid st :
  (∀ found, outcome (sdk_user parseInt w fid) ≠ Returns (Some found)) →
  (managed_lookup parseInt w fid st).2 = None.
Proof.
  intros Hno. rewrite managed_lookup_eq. cbn [snd].
  destruct (outcome (sdk_user parseInt w fid)) as [|[found|]];
    [done | by destruct (Hno found) | done].
Qed.

(** The answer and the state of the handler, from the outcomes of the two
    reads. *)
Lemma get_user_answer parseInt w fid st :
  (get_user parseInt w fid st).2
  = match try_block (user ← outcome (direct_user w fid);
                     match user with
                     | Some user => found_user w "direct_farcaster" user st
                     | None => mret None
                     end) with
    | Some answer => answer
    | None =>
        if neynarClient w then
          match try_block (user ← outcome (sdk_user parseInt w fid);
                           match user with
                           | Some user => found_user w "neynar" user st
                           | None => mret None
                           end) with
          | Some answer => answer
          | None => (both_failed, st)
          end
        else (both_failed, st)
    end.
Proof.
  unfold get_user. cbn zeta. rewrite direct_lookup_eq, managed_lookup_eq. cbn [fst snd].
  destruct (try_block _) as [answer|]; [done|].
  destruct (neynarClient w); [|done]. by destruct (try_block _).
Qed.

(** The calls of the handler: the direct API, then the SDK when the first
    block gave no answer and the client is configured. *)
Lemma get_user_calls parseInt w fid st :
  (get_user parseInt w fid st).1
  = DirectRead (FARCASTER_API_BASE +:+ "/v2/user?fid=" +:+ fid)
    :: (if bool_decide (is_Some (direct_lookup w fid st).2) then []
        else if neynarClient w then [SdkRead (parseInt (Some (JStr fid)))] else []).
Proof.
  unfold get_user. cbn zeta. rewrite managed_lookup_eq, direct_lookup_eq. cbn [fst snd].
  destruct (try_block (outcome (direct_user w fid) ≫= _)) as [answer|].
  - by rewrite bool_decide_eq_true_2.
  - rewrite bool_decide_eq_false_2 by (by intros [? ?]).
    destruct (neynarClient w); [|done]. destruct (try_block _); reflexivity.
Qed.

(** C6: the user handler always calls the direct API first.  When the
    direct API answers [ok] with a user, no other call is made and that
    user is returned tagged "direct_farcaster".  The SDK is called only
    when the direct read threw, was not [ok] or held no user, and the SDK
    client is configured; then, when the SDK returns a user, that user is
    returned tagged "neynar"; and when the SDK is not configured, throws or
    returns no user, the answer is the 500 that names both failures, and
    the state is left as it was. *)
Theorem profile_fallback parseInt w fid st :
  let url := FARCASTER_API_BASE +:+ "/v2/user?fid=" +:+ fid in
  let run := get_user parseInt w fid st in
  head run.1 = Some (DirectRead url)
  ∧ (∀ user, direct_finds w fid user →
       run.1 = [DirectRead url] ∧ run.2.1 = profile "direct_farcaster" user)
  ∧ (∀ fids, SdkRead fids ∈ run.1 →
       fids = parseInt (Some (JStr fid))
       ∧ neynarClient w = true
       ∧ ∀ user, ¬ direct_finds w fid user)
  ∧ (∀ user, (∀ found, ¬ direct_finds w fid found) →
       neynarClient w = true →
       sdk_finds parseInt w fid user → user ≠ JNull →
       run.1 = [DirectRead url; SdkRead (parseInt (Some (JStr fid)))]
       ∧ run.2.1 = profile "neynar" user)
  ∧ ((∀ found, ¬ direct_finds w fid found) →
     neynarClient w = false ∨ (∀ found, ¬ sdk_finds parseInt w fid found) →
     run.2 = (both_failed, st)).
Proof.
  intros url run. subst run url.
  assert (∀ found, ¬ direct_finds w fid found →
            outcome (direct_user w fid) ≠ Returns (Some found)) as Hmissed
    by (intros found Hno Hdirect; by apply Hno, direct_user_finds).
  split; [|split; [|split; [|split]]].
  - (* the first call *)
    by rewrite get_user_calls.
  - (* the direct read finds a user *)
    intros user Hdirect%direct_user_finds.
    destruct (direct_lookup_found w fid st user Hdirect) as [st' Hfound].
    rewrite get_user_calls, Hfound. rewrite bool_decide_eq_true_2 by by eexists.
    split; [done|]. unfold get_user. cbn zeta. by rewrite Hfound.
  - (* the SDK is called *)
    intros fids Hin. rewrite get_user_calls in Hin.
    apply elem_of_cons in Hin as [Hin|Hin]; [done|].
    case_bool_decide as Hanswer; [by apply elem_of_nil in Hin|].
    destruct (neynarClient w); [|by apply elem_of_nil in Hin].
    apply list_elem_of_singleton in Hin as [= ->].
    split; [done|]. split; [done|].
    intros user Hdirect%direct_user_finds.
    destruct (direct_lookup_found w fid st user Hdirect) as [st' Hfound].
    apply Hanswer. rewrite Hfound. by eexists.
  - (* the direct read fails and the SDK finds a user *)
    intros user Hno Hclient Hsdk%sdk_user_finds Hnull.
    assert ((direct_lookup w fid st).2 = None) as Hdirect
      by (apply direct_lookup_none; intros found; apply Hmissed, Hno).
    destruct (managed_lookup_found parseInt w fid st user Hsdk Hnull) as [st' Hfound].
    rewrite get_user_calls, Hdirect, Hclient.
    rewrite bool_decide_eq_false_2 by (by intros [? ?]).
    split; [done|]. unfold get_user. cbn zeta. by rewrite Hdirect, Hclient, Hfound.
  - (* both fail *)
    intros Hno Hmanaged.
    assert ((direct_lookup w fid st).2 = None) as Hdirect
      by (apply direct_lookup_none; intros found; apply Hmissed, Hno).
    unfold get_user. cbn zeta. rewrite Hdirect.
    destruct Hmanaged as [-> | Hnone]; [done|].
    rewrite (managed_lookup_none parseInt w fid st).
    + by destruct (neynarClient w).
    + intros found Hsdk%sdk_user_finds. by apply (Hnone found).
Qed.

Lemma bob_found_directly t :
  direct_finds (direct_answers t true (JObj {[ "result" := JObj {[ "user" := bob ]} ]}))
    "7" bob.
Proof. by eexists _, _, _. Qed.

Lemma nobody_found_directly t body fid user : ¬ direct_finds (direct_answers t false body) fid user.
Proof. by intros (response & data & result & [= <-] & Hok & _). Qed.

(** The direct API knows the user: he is returned tagged
    "direct_farcaster" after the one call.  The direct API answers 404 and
    the SDK knows the user: she is returned tagged "neynar", after both
    calls were made. *)
Lemma profile_fallback_witness :
  let found := get_user (λ _, JNum 42)
                 (direct_answers 1000 true (JObj {[ "result" := JObj {[ "user" := bob ]} ]}))
                 "7" (server (direct_signer "approved") []) in
  let fallback := get_user (λ _, JNum 42) (direct_answers 1000 false JNull) "42"
                    (server (direct_signer "approved") []) in
  (found.1 = [DirectRead "https://api.farcaster.xyz/v2/user?fid=7"]
   ∧ found.2.1 = profile "direct_farcaster" bob)
  ∧ (fallback.1 = [DirectRead "https://api.farcaster.xyz/v2/user?fid=42"; SdkRead (JNum 42)]
     ∧ fallback.2.1 = profile "neynar" alice).
Proof.
  cbn zeta. split.
  - destruct (profile_fallback (λ _, JNum 42)
                (direct_answers 1000 true (JObj {[ "result" := JObj {[ "user" := bob ]} ]}))
                "7" (server (direct_signer "approved") []))
      as (_ & Hdirect & _).
    apply (Hdirect bob), bob_found_directly.
  - destruct (profile_fallback (λ _, JNum 42) (direct_answers 1000 false JNull) "42"
                (server (direct_signer "approved") []))
      as (_ & _ & _ & Hsdk & _).
    apply (Hsdk alice).
    + intros found. apply nobody_found_directly.
    + reflexivity.
    + by exists [].
    + discriminate.
Defined.

(** Both providers down: the combined error. *)
Lemma profile_both_failed :
  (get_user (λ _, JNum 42) (offline 1000) "42" (server (direct_signer "approved") [])).2.1
  = both_failed
  ∧ code both_failed = 500%Z.
Proof. split; reflexivity. Qed.

(** * Further properties *)

(** ** The flat-file store: file names and invariants *)

Lemma ends_with_refl suffix : ends_with suffix suffix = true.
Proof. destruct suffix; simpl; [done|]. by rewrite Ascii.eqb_refl, String.eqb_refl. Qed.

Lemma ends_with_app suffix s : ends_with suffix (s +:+ suffix) = true.
Proof.
  induction s as [|c s IH]; simpl.
  - apply ends_with_refl.
  - rewrite IH. apply orb_true_r.
Qed.

Lemma ends_with_prepend suffix p s :
  ends_with suffix s = true → ends_with suffix (p +:+ s) = true.
Proof.
  intros Hs. induction p as [|c p IH]; simpl; [done|]. rewrite IH. apply orb_true_r.
Qed.

Lemma length_append s t : String.length (s +:+ t) = String.length s + String.length t.
Proof. induction s as [|c s IH]; simpl; [done | by rewrite IH]. Qed.

Lemma append_cancel_r s1 s2 t : s1 +:+ t = s2 +:+ t → s1 = s2.
Proof.
  revert s2. induction s1 as [|c s1 IH]; intros [|c' s2] Heq.
  - done.
  - apply (f_equal String.length) in Heq. rewrite !length_append in Heq.
    simpl in Heq. lia.
  - apply (f_equal String.length) in Heq. rewrite !length_append in Heq.
    simpl in Heq. lia.
  - simpl in Heq. injection Heq as -> Heq. f_equal. by apply IH.
Qed.

(** Two keys with different texts name different files. *)
Lemma file_names_differ a b :
  to_string a ≠ to_string b → to_string a +:+ ".json" ≠ to_string b +:+ ".json".
Proof. intros Hne Heq. by apply Hne, (append_cancel_r _ _ ".json"). Qed.

Lemma listing_lists_files : lists_files listing.
Proof.
  intros dir. unfold listing. split.
  - apply NoDup_fst_map_to_list.
  - intros file. rewrite list_elem_of_fmap. split.
    + intros [[f v] [-> Hin]]. apply elem_of_map_to_list in Hin. by eexists.
    + intros [v Hv]. exists (file, v). split; [done|]. by apply elem_of_map_to_list.
Qed.

Lemma lists_files_length readdirSync dir :
  lists_files readdirSync → length (readdirSync dir) = size dir.
Proof.
  intros Hls. destruct (Hls dir) as [Hnd Hin].
  rewrite <- (length_map_to_list dir), <- (length_fmap fst (map_to_list dir)).
  apply Permutation_length, NoDup_Permutation; [done | apply NoDup_fst_map_to_list |].
  intros file. rewrite Hin. destruct (listing_lists_files dir) as [_ Hl]. by rewrite <- Hl.
Qed.

Lemma sessions_wf_empty : sessions_wf ∅.
Proof. intros file session Hfile. by rewrite lookup_empty in Hfile. Qed.

Lemma posts_wf_empty : posts_wf ∅.
Proof. intros file post Hfile. by rewrite lookup_empty in Hfile. Qed.

Lemma all_json_empty : all_json ∅.
Proof. intros file [post Hfile]. by rewrite lookup_empty in Hfile. Qed.

Lemma sessions_wf_delete dir file : sessions_wf dir → sessions_wf (delete file dir).
Proof.
  intros Hwf f s Hf. apply lookup_delete_Some in Hf as [_ Hf]. by apply Hwf.
Qed.

Lemma saveSession_wf now v db :
  sessions_wf (sessions db) → sessions_wf (sessions (saveSession now v db).2).
Proof.
  intros Hwf f s. unfold saveSession. simpl.
  destruct (decide (f = to_string (v !! "signerUuid") +:+ ".json")) as [->|Hne].
  - rewrite lookup_insert_eq. intros [= <-]. split.
    + by rewrite lookup_insert_ne.
    + exists now. by rewrite lookup_insert_eq.
  - rewrite lookup_insert_ne by done. apply Hwf.
Qed.

Lemma updateSession_frame now k updates db :
  users (updateSession now k updates db).2 = users db
  ∧ posts (updateSession now k updates db).2 = posts db.
Proof. unfold updateSession. by destruct (getSession k db). Qed.

Lemma savePost_wf now postData db :
  posts_wf (posts db) → posts_wf (posts (savePost now postData db).2).
Proof.
  intros Hwf f post. unfold savePost. simpl.
  set (name := pretty now +:+ "_" +:+ to_string (postData !! "hash") +:+ ".json").
  destruct (decide (f = name)) as [->|Hne].
  - rewrite lookup_insert_eq. intros [= <-]. exists now. split.
    + by rewrite lookup_insert_eq.
    + by rewrite !lookup_insert_ne.
  - rewrite lookup_insert_ne by done. apply Hwf.
Qed.

Lemma saveUser_all_json now user db b db' :
  saveUser now user db = Returns (b, db') →
  all_json (users db) → all_json (users db')
  ∧ posts db' = posts db ∧ sessions db' = sessions db.
Proof.
  unfold saveUser. destruct (prop user "fid") as [|fid]; [done|].
  cbn [mbind Outcome_bind mret Outcome_ret writeJsonFile].
  intros [= <- <-] Hwf. split; [|done]. intros f. simpl.
  destruct (decide (f = to_string fid +:+ ".json")) as [->|Hne].
  - intros _. apply ends_with_app.
  - rewrite lookup_insert_ne by done. apply Hwf.
Qed.

Lemma sessions_wf_json dir : sessions_wf dir → all_json dir.
Proof. intros Hwf f [s Hs]. destruct (Hwf f s Hs) as [-> _]. apply ends_with_app. Qed.

Lemma posts_wf_json dir : posts_wf dir → all_json dir.
Proof.
  intros Hwf f [p Hp]. destruct (Hwf f p Hp) as (t & _ & ->).
  do 2 apply ends_with_prepend. apply ends_with_app.
Qed.

Lemma two_sessions_wf : sessions_wf (sessions two_sessions).
Proof. unfold two_sessions. do 2 apply saveSession_wf. apply sessions_wf_empty. Qed.

Lemma two_posts_wf : posts_wf (posts two_posts).
Proof. unfold two_posts. do 2 apply savePost_wf. apply posts_wf_empty. Qed.

(** ** Sessions *)

Lemma lookup_spread_over updates o key :
  spread_over updates o !! key
  = match updates !! key with
    | Some v => v
    | None => o !! key
    end.
Proof.
  unfold spread_over. rewrite lookup_omap, lookup_union, lookup_fmap.
  destruct (updates !! key) as [v|]; [by destruct (o !! key) | by destruct (o !! key)].
Qed.

(** An object with no property holding [undefined] spreads as such. *)
Lemma spread_over_own k v o session :
  o !! k = Some v → spread_over (own k (Some v) o) session = o ∪ session.
Proof.
  intros Hk. apply map_eq. intros key. rewrite lookup_spread_over, lookup_union.
  unfold own. destruct (decide (key = k)) as [->|Hne].
  - rewrite lookup_insert_eq, Hk. by destruct (session !! k).
  - rewrite lookup_insert_ne, lookup_fmap by done.
    by destruct (o !! key), (session !! key).
Qed.

(** X1 ([updateSession]), for keys that are file names: an update of a
    session that is not on file writes nothing and returns [false]; an
    update of a stored session returns [true] and stores the old session
    overridden by the own properties of the updates, one that holds
    [undefined] removing the stored value, with [updatedAt] set to the time
    of the write, under the [signerUuid] of the merged object, which need
    not be the key the update was asked for; the sessions under other file
    names, the users and the posts stay as they were. *)
Theorem updateSession_merges now k updates db :
  file_name (to_string k) = true →
  match getSession k db with
  | None => updateSession now k updates db = (false, db)
  | Some session =>
      let merged := <["updatedAt" := JNum now]> (spread_over updates session) in
      let db' := (updateSession now k updates db).2 in
      file_name (to_string (merged !! "signerUuid")) = true →
      (updateSession now k updates db).1 = true
      ∧ getSession (merged !! "signerUuid") db' = Some merged
      ∧ (∀ key, key ≠ "updatedAt" →
           merged !! key = match updates !! key with
                           | Some v => v
                           | None => session !! key
                           end)
      ∧ (∀ other, file_name (to_string other) = true →
           to_string other ≠ to_string (merged !! "signerUuid") →
           getSession other db' = getSession other db)
      ∧ users db' = users db ∧ posts db' = posts db
  end.
Proof.
  intros _. unfold updateSession.
  destruct (getSession k db) as [session|] eqn:Hsession; [|done].
  cbn zeta. intros _. unfold saveSession, getSession, readJsonFile.
  cbn [writeJsonFile fst snd users posts sessions].
  split; [done|]. split.
  { rewrite lookup_insert_eq. f_equal. apply insert_insert_eq. }
  split.
  { intros key Hkey. rewrite lookup_insert_ne by done. apply lookup_spread_over. }
  split; [|done].
  intros other _ Hother. rewrite lookup_insert_ne; [done|].
  apply not_eq_sym. by apply file_names_differ.
Qed.

(** The session of a pending signer, updated with a status that holds
    [undefined] and an account: the status is gone from the file and the
    account is there. *)
Lemma updateSession_merges_witness :
  let db := (saveSession 0 {[ "signerUuid" := JStr "s1"; "status" := JStr "pending" ]}
               no_files).2 in
  let updates := own "status" None {[ "signerUuid" := JStr "s1"; "fid" := JNum 42 ]} in
  ∃ merged,
    getSession (Some (JStr "s1")) (updateSession 1000 (Some (JStr "s1")) updates db).2
    = Some merged
    ∧ merged !! "status" = None
    ∧ merged !! "fid" = Some (JNum 42)
    ∧ merged !! "updatedAt" = Some (JNum 1000).
Proof.
  cbn zeta.
  pose proof (updateSession_merges 1000 (Some (JStr "s1"))
                (own "status" None {[ "signerUuid" := JStr "s1"; "fid" := JNum 42 ]})
                (saveSession 0 {[ "signerUuid" := JStr "s1"; "status" := JStr "pending" ]}
                   no_files).2 eq_refl) as Hmerged.
  change (getSession (Some (JStr "s1"))
            (saveSession 0 {[ "signerUuid" := JStr "s1"; "status" := JStr "pending" ]}
               no_files).2)
    with (Some (<["updatedAt" := JNum 0]>
                  ({[ "signerUuid" := JStr "s1"; "status" := JStr "pending" ]} : jsobj)))
    in Hmerged.
  cbn zeta beta iota in Hmerged.
  destruct (Hmerged eq_refl) as (_ & Hfile & Hkeys & _).
  eexists. split; [exact Hfile|].
  split; [by rewrite (Hkeys "status")|]. split; [by rewrite (Hkeys "fid")|].
  by rewrite lookup_insert_eq.
Defined.

(** X2 ([saveSession], [deleteSession], [getSession]), for keys that are
    file names: a session write touches one file.  Saving a session leaves
    the sessions under other file names, the users and the posts as they
    were; deleting one returns whether it was on file, leaves the rest as
    it was, and a second delete of the same key returns [false] and changes
    nothing. *)
Theorem session_writes_are_local now v k db :
  file_name (to_string (v !! "signerUuid")) = true →
  file_name (to_string k) = true →
  (∀ other, file_name (to_string other) = true →
     to_string other ≠ to_string (v !! "signerUuid") →
     getSession other (saveSession now v db).2 = getSession other db)
  ∧ users (saveSession now v db).2 = users db
  ∧ posts (saveSession now v db).2 = posts db
  ∧ (deleteSession k db).1 = bool_decide (is_Some (getSession k db))
  ∧ (∀ other, file_name (to_string other) = true →
       to_string other ≠ to_string k →
       getSession other (deleteSession k db).2 = getSession other db)
  ∧ users (deleteSession k db).2 = users db
  ∧ posts (deleteSession k db).2 = posts db
  ∧ deleteSession k (deleteSession k db).2 = (false, (deleteSession k db).2).
Proof.
  intros _ _. unfold saveSession, deleteSession, getSession, readJsonFile.
  cbn [writeJsonFile fst snd users posts sessions].
  split.
  { intros other _ Hother. rewrite lookup_insert_ne; [done|].
    apply not_eq_sym. by apply file_names_differ. }
  split; [done|]. split; [done|].
  destruct (sessions db !! (to_string k +:+ ".json")) as [session|] eqn:Hk;
    cbn [fst snd users posts sessions].
  - split; [by rewrite bool_decide_eq_true_2|]. split.
    { intros other _ Hother. rewrite lookup_delete_ne; [done|].
      apply not_eq_sym. by apply file_names_differ. }
    split; [done|]. split; [done|]. by rewrite lookup_delete_eq.
  - split; [rewrite bool_decide_eq_false_2; [done | by intros [? ?]]|].
    split; [done|]. split; [done|]. split; [done|]. by rewrite Hk.
Qed.

(** The fresh session of the sample store is deleted: the old one stays,
    and a second delete finds nothing. *)
Lemma session_writes_are_local_witness :
  let deleted := deleteSession (Some (JStr "new")) two_sessions in
  deleted.1 = true
  ∧ getSession (Some (JStr "old")) deleted.2 = getSession (Some (JStr "old")) two_sessions
  ∧ (deleteSession (Some (JStr "new")) deleted.2).1 = false.
Proof.
  cbn zeta.
  destruct (session_writes_are_local 0 {[ "signerUuid" := JStr "new" ]} (Some (JStr "new"))
              two_sessions)
    as (_ & _ & _ & Hflag & Hframe & _ & _ & Hagain); [reflexivity..|].
  split; [rewrite Hflag; reflexivity|].
  split; [apply Hframe; [reflexivity | discriminate]|]. rewrite Hagain. reflexivity.
Defined.

(** ** The sweep of old sessions *)

Lemma sweep_file_wf now db file :
  sessions_wf (sessions db) →
  sweep_file now db file
  = match sessions db !! file with
    | Some session =>
        if expired now session
        then {| users := users db; posts := posts db;
                sessions := delete file (sessions db) |}
        else db
    | None => db
    end.
Proof.
  intros Hwf. unfold sweep_file, readJsonFile.
  destruct (sessions db !! file) as [session|] eqn:Hfile; [|by destruct (ends_with _ _)].
  destruct (Hwf file session Hfile) as [Hname _].
  rewrite Hname at 1. rewrite ends_with_app. unfold expired.
  destruct (truthy_time (session !! "updatedAt")); [|done]. simpl.
  destruct (session !! "updatedAt" ≫= getTime) as [updated|]; [|done].
  case_bool_decide; [|by rewrite decide_False].
  rewrite decide_True by done. unfold deleteSession. by rewrite <- Hname, Hfile.
Qed.

Lemma sweep_file_frame now db file :
  users (sweep_file now db file) = users db ∧ posts (sweep_file now db file) = posts db.
Proof.
  unfold sweep_file. destruct (ends_with ".json" file); [|done].
  destruct (readJsonFile (sessions db) file) as [session|]; [|done].
  destruct (truthy_time (session !! "updatedAt")); [|done].
  destruct (session !! "updatedAt" ≫= getTime) as [updated|]; [|done].
  case_decide; [|done]. unfold deleteSession. by destruct (sessions db !! _).
Qed.

Lemma cleanup_frame readdirSync now db :
  users (cleanupOldSessions readdirSync now db) = users db
  ∧ posts (cleanupOldSessions readdirSync now db) = posts db.
Proof.
  unfold cleanupOldSessions. generalize (readdirSync (sessions db)). intros files.
  revert db. induction files as [|f files IH]; intros db; [done|]. simpl.
  destruct (IH (sweep_file now db f)) as [-> ->]. apply sweep_file_frame.
Qed.

Lemma sweep_file_keeps_wf now db file :
  sessions_wf (sessions db) → sessions_wf (sessions (sweep_file now db file)).
Proof.
  intros Hwf. rewrite sweep_file_wf by done. destruct (sessions db !! file) as [s|]; [|done].
  destruct (expired now s); [|done]. by apply sessions_wf_delete.
Qed.

Lemma sweep_files now files : ∀ db,
  NoDup files → sessions_wf (sessions db) →
  ∀ file,
    sessions (foldl (sweep_file now) db files) !! file
    = match sessions db !! file with
      | Some session =>
          if bool_decide (file ∈ files) && expired now session then None
          else Some session
      | None => None
      end.
Proof.
  induction files as [|f files IH]; intros db Hnd Hwf; simpl.
  { intros file. by destruct (sessions db !! file). }
  apply NoDup_cons in Hnd as [Hf Hnd].
  pose proof (sweep_file_keeps_wf now db f Hwf) as Hwf'.
  pose proof (IH (sweep_file now db f) Hnd Hwf') as Hsessions.
  pose proof (sweep_file_wf now db f Hwf) as Hstep.
  intros file. rewrite Hsessions, Hstep.
  destruct (decide (file = f)) as [->|Hne].
  - rewrite (bool_decide_eq_false_2 (f ∈ files)) by done.
    rewrite (bool_decide_eq_true_2 (f ∈ f :: files)) by left. simpl.
    destruct (sessions db !! f) as [s|] eqn:Hs; [|by rewrite Hs].
    destruct (expired now s); simpl; [by rewrite lookup_delete_eq | by rewrite Hs].
  - assert (bool_decide (file ∈ f :: files) = bool_decide (file ∈ files)) as ->.
    { apply bool_decide_ext. rewrite elem_of_cons. split; [by intros [?|?] | by right]. }
    destruct (sessions db !! f) as [s|]; [|done].
    destruct (expired now s); [|done]. simpl. by rewrite lookup_delete_ne.
Qed.

(** X3 ([cleanupOldSessions]): on a store whose session files are named
    after the [signerUuid] they hold, the sweep at [now] deletes exactly the
    sessions whose last write is more than 24 hours old, one written at the
    epoch included; the sessions kept are unchanged, and so are the users
    and the posts. *)
Theorem sweep_removes_expired readdirSync now db :
  lists_files readdirSync →
  sessions_wf (sessions db) →
  let swept := cleanupOldSessions readdirSync now db in
  users swept = users db
  ∧ posts swept = posts db
  ∧ (∀ file, sessions db !! file = None → sessions swept !! file = None)
  ∧ (∀ file session updated,
       sessions db !! file = Some session →
       session !! "updatedAt" = Some (JNum updated) →
       sessions swept !! file
       = if bool_decide (24 * 60 * 60 * 1000 < now - updated)%Z
         then None else Some session).
Proof.
  intros Hls Hwf swept. subst swept. destruct (Hls (sessions db)) as [Hnd Hin].
  destruct (cleanup_frame readdirSync now db) as [Hu Hp].
  pose proof (sweep_files now (readdirSync (sessions db)) db Hnd Hwf) as Hs.
  unfold cleanupOldSessions in *. split; [done|]. split; [done|]. split.
  - intros file Hfile. by rewrite Hs, Hfile.
  - intros file session updated Hfile Hupdated. rewrite Hs, Hfile.
    rewrite bool_decide_eq_true_2 by (apply Hin; by eexists).
    unfold expired. rewrite Hupdated. by cbn [truthy_time mbind option_bind getTime andb].
Qed.

(** A session written at the epoch and one written at the time of the
    sweep: the first is deleted, the second stays. *)
Lemma sweep_removes_expired_witness :
  let swept := cleanupOldSessions listing 90000000 two_sessions in
  getSession (Some (JStr "old")) two_sessions
  = Some {[ "updatedAt" := JNum 0; "signerUuid" := JStr "old" ]}
  ∧ getSession (Some (JStr "old")) swept = None
  ∧ getSession (Some (JStr "new")) swept = getSession (Some (JStr "new")) two_sessions.
Proof.
  destruct (sweep_removes_expired listing 90000000 two_sessions
              listing_lists_files two_sessions_wf) as (_ & _ & _ & Hswept).
  cbn zeta in *. split; [reflexivity|]. unfold getSession, readJsonFile. split.
  - change (sessions (cleanupOldSessions listing 90000000 two_sessions) !! "old.json" = None).
    rewrite (Hswept "old.json" {[ "updatedAt" := JNum 0; "signerUuid" := JStr "old" ]}
               0%Z); reflexivity.
  - change (sessions (cleanupOldSessions listing 90000000 two_sessions) !! "new.json"
            = sessions two_sessions !! "new.json").
    rewrite (Hswept "new.json" {[ "updatedAt" := JNum 90000000; "signerUuid" := JStr "new" ]}
               90000000%Z); reflexivity.
Defined.

(** ** Listing posts *)

Lemma insert_recent_perm post sorted : insert_recent post sorted ≡ₚ post :: sorted.
Proof.
  induction sorted as [|p rest IH]; simpl; [done|].
  case_decide; [|done]. rewrite IH. apply Permutation_swap.
Qed.

Lemma insert_recent_sorted post sorted :
  StronglySorted recent_first sorted →
  StronglySorted recent_first (insert_recent post sorted).
Proof.
  induction 1 as [|p rest Hrest IH Hall]; simpl.
  - repeat constructor.
  - case_decide as Hlt.
    + constructor; [done|].
      rewrite insert_recent_perm. constructor; [unfold recent_first; lia | done].
    + constructor; [by constructor|].
      constructor; [unfold recent_first; lia|].
      eapply Forall_impl; [exact Hall|]. unfold recent_first. intros x Hx. lia.
Qed.

Lemma sorted_keyed keyed : StronglySorted recent_first (foldr insert_recent [] keyed).
Proof. induction keyed; simpl; [constructor | by apply insert_recent_sorted]. Qed.

Lemma perm_keyed keyed : foldr insert_recent [] keyed ≡ₚ keyed.
Proof.
  induction keyed as [|x keyed IH]; simpl; [done|].
  by rewrite insert_recent_perm, IH.
Qed.

Lemma mapM_keyed posts keyed :
  mapM keyed_post posts = Some keyed →
  keyed.*2 = posts ∧ Forall (λ x, timestamp_number x.2 = Some x.1) keyed.
Proof.
  intros Hkeyed%mapM_Some. induction Hkeyed as [|p x posts keyed Hp _ [IH1 IH2]].
  - done.
  - unfold keyed_post in Hp. destruct (timestamp_number p) as [n|] eqn:Hn; [|done].
    injection Hp as <-. split; [by rewrite fmap_cons, IH1 | by constructor].
Qed.

Lemma sort_by_recency_spec posts sorted :
  sort_by_recency posts = Some sorted →
  sorted ≡ₚ posts ∧ StronglySorted not_older sorted.
Proof.
  unfold sort_by_recency.
  destruct (mapM keyed_post posts) as [keyed|] eqn:Hkeyed; [|done]. simpl.
  intros [= <-]. destruct (mapM_keyed _ _ Hkeyed) as [<- Hall]. split.
  - by rewrite perm_keyed.
  - assert (Forall (λ x, timestamp_number x.2 = Some x.1) (foldr insert_recent [] keyed))
      as Hall' by (by rewrite perm_keyed).
    pose proof (sorted_keyed keyed) as Hsorted.
    induction Hsorted as [|x l Hl IH Hx]; simpl; [constructor|].
    apply Forall_cons in Hall' as [Hx' Hall'].
    constructor; [by apply IH|].
    apply Forall_fmap. apply Forall_forall. intros y Hy.
    exists x.1, y.1. split; [done|]. split.
    + by apply (proj1 (Forall_forall _ _) Hall').
    + by apply (proj1 (Forall_forall _ _) Hx).
Qed.

Lemma sort_by_recency_some posts :
  Forall (λ post, is_Some (timestamp_number post)) posts →
  is_Some (sort_by_recency posts).
Proof.
  intros Hall. unfold sort_by_recency.
  assert (is_Some (mapM keyed_post posts)) as [keyed ->]; [|by eexists].
  apply mapM_is_Some. eapply Forall_impl; [exact Hall|].
  intros post [n Hn]. unfold keyed_post. simpl. rewrite Hn. by eexists.
Qed.

Lemma slice_to_prefix {A} limit (l : list A) : ∃ n, slice_to limit l = take n l.
Proof. unfold slice_to. case_decide; by eexists. Qed.

Lemma length_omap_le {A B} (f : A → option B) l : length (omap f l) ≤ length l.
Proof.
  induction l as [|x l IH]; [done|]. change (omap f (x :: l)) with
    (match f x with Some y => y :: omap f l | None => omap f l end).
  destruct (f x); simpl; lia.
Qed.

Lemma length_omap_all {A B} (f : A → option B) l :
  (∀ x, x ∈ l → is_Some (f x)) → length (omap f l) = length l.
Proof.
  induction l as [|x l IH]; intros Hall; [done|]. change (omap f (x :: l)) with
    (match f x with Some y => y :: omap f l | None => omap f l end).
  destruct (Hall x) as [y ->]; [left|]. simpl. f_equal. apply IH.
  intros z Hz. apply Hall. by right.
Qed.

Lemma length_filter_all {A} (P : A → Prop) `{∀ x, Decision (P x)} l :
  (∀ x, x ∈ l → P x) → length (filter P l) = length l.
Proof.
  induction l as [|x l IH]; intros Hall; [done|].
  rewrite filter_cons_True by (apply Hall; left). simpl. f_equal. apply IH.
  intros z Hz. apply Hall. by right.
Qed.

Lemma collect_posts_spec readdirSync keep db post :
  lists_files readdirSync →
  post ∈ collect_posts readdirSync keep db
  ↔ ∃ file, posts db !! file = Some post
            ∧ ends_with ".json" file = true ∧ keep post = true.
Proof.
  intros Hls. destruct (Hls (posts db)) as [_ Hin].
  unfold collect_posts, readJsonFile. rewrite list_elem_of_omap. split.
  - intros (file & _ & Hfile). exists file.
    destruct (ends_with ".json" file); [|done].
    destruct (posts db !! file) as [p|]; [|done].
    destruct (keep p) eqn:Hkeep; [|done]. by injection Hfile as ->.
  - intros (file & Hfile & Hjson & Hkeep). exists file. split.
    + apply Hin. by eexists.
    + by rewrite Hjson, Hfile, Hkeep.
Qed.

Lemma collect_all_posts readdirSync db :
  lists_files readdirSync → all_json (posts db) →
  length (collect_posts readdirSync (λ _, true) db) = size (posts db).
Proof.
  intros Hls Hjson. destruct (Hls (posts db)) as [_ Hin].
  rewrite <- (lists_files_length readdirSync (posts db) Hls).
  unfold collect_posts, readJsonFile. apply length_omap_all.
  intros file Hfile%Hin. rewrite (Hjson file Hfile). destruct Hfile as [post ->]. by eexists.
Qed.

(** What both listings sort: the stored posts that are kept, each with a
    numeric timestamp. *)
Lemma listed_posts readdirSync keep db :
  lists_files readdirSync → posts_wf (posts db) →
  ∃ sorted,
    sort_by_recency (collect_posts readdirSync keep db) = Some sorted
    ∧ sorted ≡ₚ collect_posts readdirSync keep db
    ∧ (∀ post, post ∈ sorted ↔ ∃ file, posts db !! file = Some post ∧ keep post = true)
    ∧ StronglySorted not_older sorted
    ∧ length sorted ≤ size (posts db).
Proof.
  intros Hls Hwf. set (found := collect_posts readdirSync keep db).
  assert (∀ post, post ∈ found ↔ ∃ file, posts db !! file = Some post ∧ keep post = true)
    as Hfound.
  { intros post. unfold found. rewrite collect_posts_spec by done. split.
    - intros (file & Hfile & _ & Hkeep). by exists file.
    - intros (file & Hfile & Hkeep). exists file. split; [done|]. split; [|done].
      apply (posts_wf_json _ Hwf). by eexists. }
  destruct (sort_by_recency_some found) as [sorted Hsorted].
  { apply Forall_forall. intros post (file & Hfile & _)%Hfound.
    destruct (Hwf file post Hfile) as (t & Ht & _).
    unfold timestamp_number. rewrite Ht. by eexists. }
  destruct (sort_by_recency_spec _ _ Hsorted) as [Hperm Hdesc].
  exists sorted. split; [done|]. split; [done|]. split.
  { intros post. by rewrite Hperm. }
  split; [done|]. rewrite Hperm. unfold found, collect_posts.
  etrans; [apply length_omap_le|]. by rewrite lists_files_length.
Qed.

Lemma sorted_prefix n (sorted : list jsobj) :
  StronglySorted not_older sorted → StronglySorted not_older (take n sorted).
Proof.
  intros Hdesc. rewrite <- (take_drop n sorted) in Hdesc.
  by apply StronglySorted_app_1_l in Hdesc.
Qed.

(** X4 ([getPostsByUser]): on a store whose post files are named as
    [savePost] names them, the listing for [fid] returns stored posts whose
    [fid] is strictly equal to the one asked for, the most recent first, at
    most [limit] of them when [limit] is not negative, and all of them when
    [limit] is at least the number of files. *)
Theorem posts_of_user_listed readdirSync fid limit db :
  lists_files readdirSync →
  posts_wf (posts db) →
  ∃ result,
    getPostsByUser readdirSync fid limit db = Some result
    ∧ (∀ post, post ∈ result →
         strict_eq (post !! "fid") fid = true ∧ ∃ file, posts db !! file = Some post)
    ∧ StronglySorted not_older result
    ∧ ((0 ≤ limit)%Z → length result ≤ Z.to_nat limit)
    ∧ ((Z.of_nat (size (posts db)) ≤ limit)%Z →
       ∀ file post, posts db !! file = Some post →
         strict_eq (post !! "fid") fid = true → post ∈ result).
Proof.
  intros Hls Hwf. unfold getPostsByUser.
  destruct (listed_posts readdirSync (λ post, strict_eq (post !! "fid") fid) db Hls Hwf)
    as (sorted & -> & _ & Hin & Hdesc & Hlen).
  exists (slice_to limit sorted). split; [done|].
  destruct (slice_to_prefix limit sorted) as [n Hn].
  split; [|split; [|split]].
  - intros post Hpost. rewrite Hn in Hpost. apply subseteq_take in Hpost.
    apply Hin in Hpost as (file & Hfile & Hfid). eauto.
  - rewrite Hn. by apply sorted_prefix.
  - intros Hpos. unfold slice_to. rewrite decide_True by done. rewrite length_take. lia.
  - intros Hlimit file post Hfile Hfid.
    unfold slice_to. rewrite decide_True by lia. rewrite take_ge by lia.
    apply Hin. by exists file.
Qed.

Lemma posts_of_user_listed_witness :
  ∃ result,
    getPostsByUser listing (Some (JNum 42)) 1 two_posts = Some result
    ∧ length result ≤ 1.
Proof.
  destruct (posts_of_user_listed listing (Some (JNum 42)) 1 two_posts
              listing_lists_files two_posts_wf) as (result & Hresult & _ & _ & Hlen & _).
  exists result. split; [exact Hresult|]. apply Hlen. lia.
Defined.

(** X5 ([getAllPosts]): on such a store the listing of all posts returns
    stored posts, the most recent first; a [limit] that is not negative
    caps their number, a negative one drops that many of the oldest; and
    every post is listed when [limit] is at least the number of files. *)
Theorem all_posts_listed readdirSync limit db :
  lists_files readdirSync →
  posts_wf (posts db) →
  ∃ result,
    getAllPosts readdirSync limit db = Some result
    ∧ (∀ post, post ∈ result → ∃ file, posts db !! file = Some post)
    ∧ StronglySorted not_older result
    ∧ length result
      = (if decide (0 ≤ limit)%Z then Z.to_nat limit `min` size (posts db)
         else Z.to_nat (Z.of_nat (size (posts db)) + limit))
    ∧ ((Z.of_nat (size (posts db)) ≤ limit)%Z →
       ∀ file post, posts db !! file = Some post → post ∈ result).
Proof.
  intros Hls Hwf. unfold getAllPosts.
  destruct (listed_posts readdirSync (λ _, true) db Hls Hwf)
    as (sorted & -> & Hperm & Hin & Hdesc & _).
  assert (length sorted = size (posts db)) as Hlen.
  { rewrite Hperm. apply collect_all_posts; [done|]. by apply posts_wf_json. }
  exists (slice_to limit sorted). split; [done|].
  destruct (slice_to_prefix limit sorted) as [n Hn].
  split; [|split; [|split]].
  - intros post Hpost. rewrite Hn in Hpost. apply subseteq_take in Hpost.
    apply Hin in Hpost as (file & Hfile & _). eauto.
  - rewrite Hn. by apply sorted_prefix.
  - unfold slice_to. case_decide; rewrite length_take; lia.
  - intros Hlimit file post Hfile.
    unfold slice_to. rewrite decide_True by lia. rewrite take_ge by lia.
    apply Hin. by exists file.
Qed.

Lemma all_posts_listed_witness :
  ∃ result,
    getAllPosts listing (-1) two_posts = Some result
    ∧ length result = Z.to_nat (Z.of_nat (size (posts two_posts)) + -1).
Proof.
  destruct (all_posts_listed listing (-1) two_posts listing_lists_files two_posts_wf)
    as (result & Hresult & _ & _ & Hlen & _).
  exists result. split; [exact Hresult | exact Hlen].
Defined.

(** X6 ([savePost], [getAllPosts]): once the clock has passed the
    timestamps of the stored posts, a post saved now whose hash is a file
    name is the first of the listing of all posts, for any [limit] of at
    least one; it is listed as the record written: the post with its
    [timestamp] and [createdAt] set to the time of the write and its [id]. *)
Theorem saved_post_is_listed_first readdirSync now postData limit db :
  lists_files readdirSync →
  posts_wf (posts db) →
  (∀ file post timestamp,
     posts db !! file = Some post →
     post !! "timestamp" = Some (JNum timestamp) → (timestamp < now)%Z) →
  (0 < limit)%Z →
  file_name (to_string (postData !! "hash")) = true →
  ∃ record rest,
    getAllPosts readdirSync limit (savePost now postData db).2 = Some (record :: rest)
    ∧ readJsonFile (posts (savePost now postData db).2)
        (pretty now +:+ "_" +:+ to_string (postData !! "hash") +:+ ".json")
      = Some record
    ∧ record !! "timestamp" = Some (JNum now)
    ∧ record !! "createdAt" = Some (JNum now)
    ∧ (∀ k, k ≠ "id" → k ≠ "createdAt" → k ≠ "timestamp" → record !! k = postData !! k).
Proof.
  intros Hls Hwf Hpast Hlimit _.
  set (file := pretty now +:+ "_" +:+ to_string (postData !! "hash") +:+ ".json").
  set (db' := (savePost now postData db).2).
  assert (∃ record, posts db' = <[file := record]> (posts db)
                    ∧ record !! "timestamp" = Some (JNum now)
                    ∧ record !! "createdAt" = Some (JNum now)
                    ∧ ∀ k, k ≠ "id" → k ≠ "createdAt" → k ≠ "timestamp" →
                           record !! k = postData !! k)
    as (record & Hposts & Htime & Hcreated & Hrest).
  { eexists. split; [reflexivity|]. split; [by rewrite lookup_insert_eq|].
    split; [by rewrite lookup_insert_ne, lookup_insert_eq|].
    intros k Hid Hc Ht. by rewrite !lookup_insert_ne. }
  assert (posts_wf (posts db')) as Hwf' by by apply savePost_wf.
  unfold getAllPosts.
  destruct (listed_posts readdirSync (λ _, true) db' Hls Hwf')
    as (sorted & -> & _ & Hin & Hdesc & _).
  assert (record ∈ sorted) as Hrecord.
  { apply Hin. exists file. split; [|done]. by rewrite Hposts, lookup_insert_eq. }
  destruct sorted as [|head rest]; [by apply elem_of_nil in Hrecord|].
  assert (head = record) as ->.
  { destruct (Hin head) as [(file' & Hfile' & _) _]; [left|].
    rewrite Hposts in Hfile'. destruct (decide (file' = file)) as [->|Hne].
    { rewrite lookup_insert_eq in Hfile'. by injection Hfile'. }
    rewrite lookup_insert_ne in Hfile' by done.
    apply elem_of_cons in Hrecord as [->|Hrecord]; [done|].
    apply StronglySorted_inv in Hdesc as [_ Hall].
    destruct (proj1 (Forall_forall _ _) Hall record Hrecord)
      as (th & tr & Hth & Htr & Hle).
    unfold timestamp_number in Hth, Htr. rewrite Htime in Htr. injection Htr as <-.
    destruct (head !! "timestamp") as [[| |t| |]|] eqn:Hhead; try done.
    injection Hth as ->. pose proof (Hpast file' head th Hfile' Hhead). lia. }
  exists record, (take (Z.to_nat limit - 1) rest). split.
  { simpl. unfold slice_to. rewrite decide_True by lia.
    destruct (Z.to_nat limit) as [|n] eqn:Hn; [lia|]. simpl. by rewrite Nat.sub_0_r. }
  split; [|done]. unfold readJsonFile. by rewrite Hposts, lookup_insert_eq.
Qed.

Lemma saved_post_is_listed_first_witness :
  ∃ record rest,
    getAllPosts listing 10
      (savePost 3000 {[ "hash" := JStr "0xc"; "fid" := JNum 7 ]} two_posts).2
    = Some (record :: rest)
    ∧ record !! "timestamp" = Some (JNum 3000)
    ∧ record !! "fid" = Some (JNum 7).
Proof.
  destruct (saved_post_is_listed_first listing 3000
              {[ "hash" := JStr "0xc"; "fid" := JNum 7 ]} 10 two_posts
              listing_lists_files two_posts_wf)
    as (record & rest & Hlisted & _ & Htime & _ & Hrest).
  - intros file post timestamp Hfile Htimestamp.
    unfold two_posts, savePost in Hfile. cbn [writeJsonFile snd posts no_files] in Hfile.
    apply lookup_insert_Some in Hfile as [[_ <-] | [_ Hfile]].
    + rewrite lookup_insert_eq in Htimestamp. injection Htimestamp as <-. lia.
    + apply lookup_insert_Some in Hfile as [[_ <-] | [_ Hfile]].
      * rewrite lookup_insert_eq in Htimestamp. injection Htimestamp as <-. lia.
      * by rewrite lookup_empty in Hfile.
  - lia.
  - reflexivity.
  - exists record, rest. split; [exact Hlisted|]. split; [exact Htime|].
    rewrite Hrest; [reflexivity | discriminate..].
Defined.

(** X7 ([getDatabaseStats], [GET /api/stats]): on a store whose files all
    have names in [.json], the statistics answered are the numbers of user,
    post and session files and the time of the request. *)
Theorem stats_count_the_store readdirSync w st :
  lists_files readdirSync →
  store_wf (db st) →
  code (stats readdirSync w st) = 200%Z
  ∧ body (stats readdirSync w st) !! "stats"
    = Some (JObj {[ "users" := JNum (Z.of_nat (size (users (db st))));
                    "posts" := JNum (Z.of_nat (size (posts (db st))));
                    "sessions" := JNum (Z.of_nat (size (sessions (db st))));
                    "lastUpdated" := JNum (now w) ]}).
Proof.
  intros Hls (Hu & Hp & Hs). split; [done|].
  assert (∀ dir, all_json dir → count_json readdirSync dir = size dir) as Hcount.
  { intros dir Hjson. unfold count_json.
    rewrite <- (lists_files_length readdirSync dir Hls). apply length_filter_all.
    intros file Hfile. apply Hjson. by apply (Hls dir). }
  unfold stats, getDatabaseStats. cbn [body].
  rewrite (Hcount _ Hu), (Hcount _ (posts_wf_json _ Hp)), (Hcount _ (sessions_wf_json _ Hs)).
  by rewrite lookup_insert_ne, lookup_insert_eq.
Qed.

Lemma stats_count_the_store_witness :
  body (stats listing (offline 5000)
          {| activeSigners := ∅; rateLimit := ∅; db := two_posts |}) !! "stats"
  = Some (JObj {[ "users" := JNum 0; "posts" := JNum 2; "sessions" := JNum 0;
                  "lastUpdated" := JNum 5000 ]}).
Proof.
  destruct (stats_count_the_store listing (offline 5000)
              {| activeSigners := ∅; rateLimit := ∅; db := two_posts |}
              listing_lists_files) as [_ Hstats].
  - split; [apply all_json_empty|]. split; [apply two_posts_wf | apply sessions_wf_empty].
  - rewrite Hstats. reflexivity.
Defined.

(** ** Posting a cast: what is saved, and when *)

Lemma post_siwn_effect w text signer st :
  refused_or_saved w st (post_siwn w text signer st).
Proof.
  unfold post_siwn. destruct (neynarClient w); [|by left].
  destruct (publishCast w _) as [m|cast]; [by left|]. cbn [mbind Outcome_bind].
  destruct (prop cast "hash") as [m|hash]; [by left|]. cbn [mbind Outcome_bind].
  destruct (prop cast "text") as [m|castText]; [by left|]. cbn [mbind Outcome_bind].
  right. eexists. split; [done|]. split; [|done]. done.
Qed.

Lemma post_neynar_effect w id text p signer st :
  refused_or_saved w st (post_neynar w id text p signer st).
Proof.
  unfold post_neynar.
  destruct (publishCast w _) as [m|cast]; [by left|]. cbn [mbind Outcome_bind].
  destruct (prop cast "hash") as [m|hash]; [by left|]. cbn [mbind Outcome_bind].
  destruct (prop cast "text") as [m|castText]; [by left|]. cbn [mbind Outcome_bind].
  right. eexists. split; [done|]. split; [|done]. done.
Qed.

Lemma post_direct_effect w id text p signer st :
  refused_or_saved w st (post_direct w id text p signer st).
Proof.
  unfold post_direct.
  destruct (negb (truthy (signer !! "keypair")) || negb (truthy (privateKey signer)));
    [by left|].
  destruct (truthy (signer !! "token")); [|by left].
  destruct (checkSignedKeyRequestStatus w _) as [m|status]; [by left|].
  cbn [mbind Outcome_bind].
  destruct (prop status "state") as [m|state]; [by left|]. cbn [mbind Outcome_bind].
  destruct (is_str state "completed").
  - destruct (publicKey_prefix signer) as [m|prefix]; [by left|].
    cbn [mbind Outcome_bind]. right. eexists. split; [done|]. split; [|done]. done.
  - destruct (is_str state "approved"); by left.
Qed.

Lemma post_cast_effect w ip id text p st :
  (code (post_cast w ip id text p st).1 ≠ 200%Z
   ∧ ((post_cast w ip id text p st).2 = st
      ∨ (post_cast w ip id text p st).2 = counted w ip st))
  ∨ ∃ castInfo,
      code (post_cast w ip id text p st).1 = 200%Z
      ∧ body (post_cast w ip id text p st).1 !! "cast" = Some (JObj castInfo)
      ∧ (post_cast w ip id text p st).2
        = with_db (savePost (now w) castInfo (db st)).2 (counted w ip st).
Proof.
  unfold post_cast, counted.
  destruct (fields_missing id text); [left; split; [done | by left]|].
  destruct (checkRateLimit (now w) ip (rateLimit st)) as [allowed rl]. cbn [fst snd].
  destruct allowed; [|left; split; [done | by right]]. cbn [negb].
  destruct (text_too_long _); [left; split; [done | by right]|].
  destruct (activeSigners _ !! _) as [signer|]; [|left; split; [done | by right]].
  destruct (not_approved signer); [left; split; [done | by right]|].
  set (st' := with_rateLimit rl st).
  assert (∀ answer, refused_or_saved w st' answer →
            (code answer.1 ≠ 200%Z ∧ (answer.2 = st ∨ answer.2 = st'))
            ∨ ∃ castInfo, code answer.1 = 200%Z
                ∧ body answer.1 !! "cast" = Some (JObj castInfo)
                ∧ answer.2 = with_db (savePost (now w) castInfo (db st)).2 st') as Hbranch.
  { intros answer [[Hcode ->]|(castInfo & Hcode & Hcast & ->)].
    - left. split; [done | by right].
    - right. by exists castInfo. }
  destruct (is_str (signer !! "provider") "neynar_siwn"); [apply Hbranch, post_siwn_effect|].
  destruct (is_str (signer !! "provider") "direct_farcaster");
    [apply Hbranch, post_direct_effect|].
  destruct (is_str (signer !! "provider") "neynar" && neynarClient w);
    [apply Hbranch, post_neynar_effect|].
  left. split; [done | by right].
Qed.

Lemma savePost_record now castInfo db :
  let file := pretty now +:+ "_" +:+ to_string (castInfo !! "hash") +:+ ".json" in
  ∃ record,
    posts (savePost now castInfo db).2 = <[file := record]> (posts db)
    ∧ users (savePost now castInfo db).2 = users db
    ∧ sessions (savePost now castInfo db).2 = sessions db
    ∧ record !! "timestamp" = Some (JNum now)
    ∧ record !! "createdAt" = Some (JNum now)
    ∧ ∀ k, k ≠ "id" → k ≠ "createdAt" → k ≠ "timestamp" → record !! k = castInfo !! k.
Proof.
  intros file. eexists. split; [reflexivity|]. split; [done|]. split; [done|].
  split; [by rewrite lookup_insert_eq|].
  split; [by rewrite lookup_insert_ne, lookup_insert_eq|].
  intros k Hid Hcreated Htimestamp. by rewrite !lookup_insert_ne.
Qed.

(** X8 ([POST /api/post-cast], [savePost]): a post-cast request never
    changes the signer table, the users or the sessions; an answer other
    than 200 leaves the whole store as it was; and an answer of 200 carries
    under [cast] the very cast that was saved, in the post file named after
    the time of the request and the hash of the cast. *)
Theorem post_cast_saves_what_it_answers w ip id text p st :
  let answer := post_cast w ip id text p st in
  activeSigners answer.2 = activeSigners st
  ∧ users (db answer.2) = users (db st)
  ∧ sessions (db answer.2) = sessions (db st)
  ∧ (code answer.1 ≠ 200%Z → db answer.2 = db st)
  ∧ (code answer.1 = 200%Z →
     ∃ castInfo record,
       body answer.1 !! "cast" = Some (JObj castInfo)
       ∧ posts (db answer.2)
         = <[pretty (now w) +:+ "_" +:+ to_string (castInfo !! "hash") +:+ ".json" := record]>
             (posts (db st))
       ∧ record !! "timestamp" = Some (JNum (now w))
       ∧ ∀ k, k ≠ "id" → k ≠ "createdAt" → k ≠ "timestamp" →
              record !! k = castInfo !! k).
Proof.
  intros answer. subst answer.
  destruct (post_cast_effect w ip id text p st)
    as [[Hcode [-> | ->]] | (castInfo & Hcode & Hcast & ->)].
  - done.
  - done.
  - destruct (savePost_record (now w) castInfo (db st))
      as (record & Hposts & Husers & Hsessions & Htime & _ & Hrest).
    split; [done|]. split; [done|]. split; [done|]. split; [done|].
    intros _. by exists castInfo, record.
Qed.

(** The checks a post-cast request has passed when it is answered 200. *)
Lemma post_cast_checks w ip id text p st :
  code (post_cast w ip id text p st).1 = 200%Z →
  ∃ uuid txt signer,
    id = Some uuid ∧ text = Some txt
    ∧ valid_call w ip uuid txt st
    ∧ activeSigners st !! uuid = Some signer
    ∧ signer !! "status" = Some (JStr "approved").
Proof.
  unfold post_cast, valid_call, admitted.
  destruct (fields_missing id text) eqn:Hfields; [done|].
  destruct (checkRateLimit (now w) ip (rateLimit st)) as [allowed rl]. cbn [fst snd].
  destruct allowed; [|done]. cbn [negb].
  destruct (text_too_long _) eqn:Hlong; [done|].
  destruct (activeSigners _ !! _) as [signer|] eqn:Hsigner; [|done].
  destruct (not_approved signer) eqn:Hgate; [done|]. intros _.
  unfold fields_missing, truthy_str in Hfields.
  destruct id as [uuid|], text as [txt|]; simpl in Hfields; try done.
  2: by rewrite orb_true_r in Hfields.
  apply orb_false_elim in Hfields as [Hu Ht].
  apply negb_false_iff, negb_true_iff, String.eqb_neq in Hu, Ht.
  exists uuid, txt, signer. simpl in *.
  apply bool_decide_eq_false in Hlong.
  apply negb_false_iff, is_str_eq in Hgate.
  repeat split; [done.. | lia | done | done].
Qed.

(** A request that passes the checks is handed to the provider of its
    signer. *)
Lemma post_cast_valid w ip uuid txt p st signer :
  valid_call w ip uuid txt st →
  activeSigners st !! uuid = Some signer →
  signer !! "status" = Some (JStr "approved") →
  post_cast w ip (Some uuid) (Some txt) p st
  = let st := counted w ip st in
    if is_str (signer !! "provider") "neynar_siwn" then post_siwn w txt signer st
    else if is_str (signer !! "provider") "direct_farcaster"
         then post_direct w uuid txt p signer st
    else if is_str (signer !! "provider") "neynar" && neynarClient w
         then post_neynar w uuid txt p signer st
    else ({| code := 400; body := {[ "error" := JStr "Unknown signer provider" ]} |}, st).
Proof.
  intros (Hu & Ht & Hlen & Hadm) Hsigner Hstatus. unfold post_cast, admitted, counted in *.
  rewrite (fields_present uuid txt Hu Ht).
  destruct (checkRateLimit (now w) ip (rateLimit st)) as [allowed rl]. simpl in *. subst.
  unfold text_too_long. rewrite bool_decide_eq_false_2 by lia.
  rewrite Hsigner. unfold not_approved. by rewrite Hstatus.
Qed.

Lemma valid_hello w signer history :
  length (in_window (now w) history) < MAX_REQUESTS_PER_WINDOW →
  valid_call w "203.0.113.7" "s1" "hello" (server signer history).
Proof.
  intros Hlt. split; [done|]. split; [done|]. split; [simpl; lia|].
  unfold admitted, server. cbn [rateLimit]. rewrite checkRateLimit_admits; [done|].
  by rewrite lookup_singleton_eq.
Qed.

(** X9 ([POST /api/post-cast]): a cast is answered 200 only for a request
    with a non-empty signer id and a non-empty text of at most 320
    characters, from a client the limiter admits, for a signer that is in
    the table with the status [approved]. *)
Theorem published_only_if_approved w ip id text p st :
  code (post_cast w ip id text p st).1 = 200%Z →
  ∃ uuid txt signer,
    id = Some uuid ∧ text = Some txt ∧ uuid ≠ "" ∧ txt ≠ ""
    ∧ String.length txt ≤ 320
    ∧ admitted w ip st = true
    ∧ activeSigners st !! uuid = Some signer
    ∧ signer !! "status" = Some (JStr "approved").
Proof.
  intros (uuid & txt & signer & -> & -> & (Hu & Ht & Hlen & Hadm) & Hsigner & Hstatus)
    %post_cast_checks.
  by exists uuid, txt, signer.
Qed.

Lemma published_only_if_approved_witness :
  ∃ signer,
    activeSigners (server (siwn_signer 0 (JNum 42) "s1") []) !! "s1" = Some signer
    ∧ signer !! "status" = Some (JStr "approved").
Proof.
  destruct (published_only_if_approved (sdk_up 1000) "203.0.113.7" (Some "s1")
              (Some "hello") None (server (siwn_signer 0 (JNum 42) "s1") []))
    as (uuid & txt & signer & Hid & _ & _ & _ & _ & _ & Hsigner & Hstatus).
  - reflexivity.
  - injection Hid as <-. by exists signer.
Defined.

Lemma privateKey_keypair signer :
  truthy (privateKey signer) = true → truthy (signer !! "keypair") = true.
Proof. unfold privateKey. by destruct (signer !! "keypair") as [[]|]. Qed.

(** X10 ([POST /api/post-cast], direct branch): a cast of a direct signer
    is answered 200 only if the signer holds a private key and a public key
    that is a string, and the live check of its key request, made during
    the request, reports the state [completed]. *)
Theorem direct_published_only_if_completed w ip id text p st uuid signer :
  id = Some uuid →
  activeSigners st !! uuid = Some signer →
  signer !! "provider" = Some (JStr "direct_farcaster") →
  code (post_cast w ip id text p st).1 = 200%Z →
  truthy (privateKey signer) = true
  ∧ (∃ publicKey, signer !! "publicKey" = Some (JStr publicKey))
  ∧ ∃ realStatus,
      checkSignedKeyRequestStatus w (signer !! "token") = Returns realStatus
      ∧ prop realStatus "state" = Returns (Some (JStr "completed")).
Proof.
  intros -> Hsigner Hprovider Hcode.
  destruct (post_cast_checks _ _ _ _ _ _ Hcode)
    as (uuid' & txt & signer' & [= <-] & -> & Hvalid & Hsigner' & Hstatus).
  rewrite Hsigner in Hsigner'. injection Hsigner' as <-.
  rewrite (post_cast_valid w ip uuid txt p st signer) in Hcode by done.
  cbn zeta in Hcode. rewrite Hprovider in Hcode. cbn [is_str] in Hcode.
  change (("direct_farcaster" =? "neynar_siwn")%string) with false in Hcode.
  change (("direct_farcaster" =? "direct_farcaster")%string) with true in Hcode.
  cbn iota in Hcode. unfold post_direct in Hcode.
  destruct (truthy (privateKey signer));
    [|rewrite orb_true_r in Hcode; by simpl in Hcode].
  split; [done|]. rewrite orb_false_r in Hcode.
  destruct (negb (truthy (signer !! "keypair"))); [by simpl in Hcode|].
  destruct (truthy (signer !! "token")); [|by simpl in Hcode].
  destruct (checkSignedKeyRequestStatus w _) as [m|realStatus]; [by simpl in Hcode|].
  cbn [mbind Outcome_bind] in Hcode.
  destruct (prop realStatus "state") as [m|state] eqn:Hprop; [by simpl in Hcode|].
  cbn [mbind Outcome_bind] in Hcode.
  destruct (is_str state "completed") eqn:Hstate.
  - apply is_str_eq in Hstate as ->.
    unfold publicKey_prefix in Hcode.
    destruct (signer !! "publicKey") as [[| | |publicKey|]|]; try (by simpl in Hcode).
    split; [by eexists | by eexists].
  - destruct (is_str state "approved"); by simpl in Hcode.
Qed.

Lemma direct_published_only_if_completed_witness :
  ∃ realStatus,
    checkSignedKeyRequestStatus (hub 1000 "completed") (direct_signer "approved" !! "token")
    = Returns realStatus
    ∧ prop realStatus "state" = Returns (Some (JStr "completed")).
Proof.
  destruct (direct_published_only_if_completed (hub 1000 "completed") "203.0.113.7"
              (Some "s1") (Some "hello") None (server (direct_signer "approved") [])
              "s1" (direct_signer "approved"))
    as (_ & _ & Hlive).
  - reflexivity.
  - reflexivity.
  - reflexivity.
  - reflexivity.
  - exact Hlive.
Defined.

(** X11 ([POST /api/post-cast], direct branch): for a valid request of an
    approved direct signer with its keys and token, the live state of the
    key request decides the answer.  A failed check is answered 500 with
    the failure under [details]; the state [completed] is answered 200 and
    the cast is saved with the placeholder hash [pending_hub_submission];
    any other state is answered 400 with that state under [currentStatus],
    and nothing is saved. *)
Theorem direct_live_state_decides w ip uuid txt p st signer :
  valid_call w ip uuid txt st →
  activeSigners st !! uuid = Some signer →
  signer !! "status" = Some (JStr "approved") →
  signer !! "provider" = Some (JStr "direct_farcaster") →
  truthy (privateKey signer) = true →
  truthy (signer !! "token") = true →
  let answer := post_cast w ip (Some uuid) (Some txt) p st in
  match checkSignedKeyRequestStatus w (signer !! "token") with
  | Throws message =>
      code answer.1 = 500%Z
      ∧ body answer.1 !! "error" = Some (JStr "Failed to verify signer status")
      ∧ body answer.1 !! "details" = Some (JStr message)
      ∧ db answer.2 = db st
  | Returns realStatus =>
      ∀ state, prop realStatus "state" = Returns state →
        if is_str state "completed" then
          ∀ publicKey, signer !! "publicKey" = Some (JStr publicKey) →
            code answer.1 = 200%Z
            ∧ ∃ castInfo,
                body answer.1 !! "cast" = Some (JObj castInfo)
                ∧ castInfo !! "hash" = Some (JStr "pending_hub_submission")
                ∧ castInfo !! "text" = Some (JStr txt)
                ∧ castInfo !! "signerUuid" = Some (JStr uuid)
                ∧ castInfo !! "fid" = signer !! "fid"
                ∧ castInfo !! "provider" = Some (JStr "direct_farcaster")
                ∧ db answer.2 = (savePost (now w) castInfo (db st)).2
        else
          code answer.1 = 400%Z
          ∧ body answer.1 !! "error"
            = Some (JStr (if is_str state "approved"
                          then "Signer approved, waiting for on-chain confirmation"
                          else "Signer not fully approved"))
          ∧ body answer.1 !! "currentStatus" = state
          ∧ body answer.1 !! "approvalUrl" = signer !! "approvalUrl"
          ∧ db answer.2 = db st
  end.
Proof.
  intros Hvalid Hsigner Hstatus Hprovider Hkey Htoken answer. subst answer.
  rewrite (post_cast_valid w ip uuid txt p st signer) by done.
  cbn zeta. rewrite Hprovider. cbn [is_str].
  change (("direct_farcaster" =? "neynar_siwn")%string) with false.
  change (("direct_farcaster" =? "direct_farcaster")%string) with true.
  cbn iota. unfold post_direct.
  rewrite Hkey, (privateKey_keypair _ Hkey), Htoken. cbn [negb orb].
  destruct (checkSignedKeyRequestStatus w _) as [m|realStatus]; [done|].
  intros state Hstate. cbn [mbind Outcome_bind]. rewrite Hstate. cbn [mbind Outcome_bind].
  destruct (is_str state "completed").
  - intros publicKey HpublicKey. unfold publicKey_prefix. rewrite HpublicKey.
    cbn [mbind Outcome_bind mret Outcome_ret fst snd code body].
    split; [done|]. eexists. split; [by rewrite lookup_insert_ne, lookup_insert_eq|].
    rewrite lookup_set_prop_eq, !lookup_set_prop_ne by done.
    repeat split; done.
  - destruct (is_str state "approved"); cbn [mret Outcome_ret fst snd code body];
      (split; [done|]); rewrite lookup_set_prop_eq, !lookup_set_prop_ne by done;
      rewrite lookup_set_prop_eq; done.
Qed.

Lemma direct_live_state_decides_witness :
  let answer := post_cast (hub 1000 "pending") "203.0.113.7" (Some "s1") (Some "hello")
                  None (server (direct_signer "approved") []) in
  code answer.1 = 400%Z
  ∧ body answer.1 !! "error" = Some (JStr "Signer not fully approved")
  ∧ body answer.1 !! "currentStatus" = Some (JStr "pending")
  ∧ db answer.2 = no_files.
Proof.
  pose proof (direct_live_state_decides (hub 1000 "pending") "203.0.113.7" "s1" "hello"
                None (server (direct_signer "approved") []) (direct_signer "approved"))
    as Hdecides.
  cbn zeta in *.
  assert (valid_call (hub 1000 "pending") "203.0.113.7" "s1" "hello"
            (server (direct_signer "approved") [])) as Hvalid
    by (apply valid_hello; vm_compute; lia).
  specialize (Hdecides Hvalid eq_refl eq_refl eq_refl eq_refl eq_refl).
  set (live := checkSignedKeyRequestStatus _ _) in Hdecides.
  assert (live = Returns (JObj {[ "state" := JStr "pending"; "userFid" := JNum 42 ]}))
    as Hlive by reflexivity.
  rewrite Hlive in Hdecides.
  destruct (Hdecides (Some (JStr "pending")) eq_refl)
    as (Hcode & Herror & Hcurrent & _ & Hdb).
  split; [exact Hcode|]. split; [exact Herror|]. split; [exact Hcurrent | exact Hdb].
Defined.



(** X12 ([POST /api/post-cast], hosted and managed branches): when the SDK
    client is configured and its [publishCast] throws, a valid request of an
    approved hosted or managed signer is answered 500 with the message of
    the failure under [details], and nothing is saved. *)
Theorem sdk_failure_is_surfaced w ip uuid txt p st signer message :
  valid_call w ip uuid txt st →
  activeSigners st !! uuid = Some signer →
  signer !! "status" = Some (JStr "approved") →
  signer !! "provider" = Some (JStr "neynar_siwn")
  ∨ signer !! "provider" = Some (JStr "neynar") →
  neynarClient w = true →
  (∀ request, publishCast w request = Throws message) →
  let answer := post_cast w ip (Some uuid) (Some txt) p st in
  code answer.1 = 500%Z
  ∧ body answer.1 !! "details" = Some (JStr message)
  ∧ body answer.1 !! "error"
    = Some (JStr (if is_str (signer !! "provider") "neynar_siwn"
                  then "Failed to post cast via Neynar"
                  else "Neynar posting failed, but Direct API is available"))
  ∧ db answer.2 = db st.
Proof.
  intros Hvalid Hsigner Hstatus Hprovider Hclient Hfails answer. subst answer.
  rewrite (post_cast_valid w ip uuid txt p st signer) by done. cbn zeta.
  destruct Hprovider as [-> | ->]; cbn [is_str].
  - change (("neynar_siwn" =? "neynar_siwn")%string) with true. cbn iota.
    unfold post_siwn. rewrite Hclient, Hfails. done.
  - change (("neynar" =? "neynar_siwn")%string) with false.
    change (("neynar" =? "direct_farcaster")%string) with false.
    change (("neynar" =? "neynar")%string) with true. rewrite Hclient. cbn [andb].
    unfold post_neynar. rewrite Hfails. done.
Qed.

Lemma sdk_failure_is_surfaced_witness :
  let answer := post_cast (sdk_only 1000) "203.0.113.7" (Some "s1") (Some "hello")
                  None (server (managed_signer "approved") []) in
  code answer.1 = 500%Z
  ∧ body answer.1 !! "details" = Some (JStr "not a managed signer")
  ∧ body answer.1 !! "error"
    = Some (JStr "Neynar posting failed, but Direct API is available").
Proof.
  destruct (sdk_failure_is_surfaced (sdk_only 1000) "203.0.113.7" "s1" "hello" None
              (server (managed_signer "approved") []) (managed_signer "approved")
              "not a managed signer")
    as (Hcode & Hdetails & Herror & _).
  - apply valid_hello. vm_compute. lia.
  - reflexivity.
  - reflexivity.
  - by right.
  - reflexivity.
  - reflexivity.
  - cbn zeta. split; [exact Hcode|]. split; [exact Hdetails | exact Herror].
Defined.

(** X13 ([POST /api/post-cast]): with no SDK client configured, a valid
    request of an approved hosted signer is answered 500, [Neynar client
    not available], and one of an approved managed signer 400, [Unknown
    signer provider]; nothing is saved in either case. *)
Theorem no_sdk_client_no_post w ip uuid txt p st signer :
  valid_call w ip uuid txt st →
  activeSigners st !! uuid = Some signer →
  signer !! "status" = Some (JStr "approved") →
  signer !! "provider" = Some (JStr "neynar_siwn")
  ∨ signer !! "provider" = Some (JStr "neynar") →
  neynarClient w = false →
  let answer := post_cast w ip (Some uuid) (Some txt) p st in
  answer.1
  = (if is_str (signer !! "provider") "neynar_siwn"
     then {| code := 500;
             body := {[ "error" := JStr "Neynar client not available";
                        "message" := JStr "SIWN signer is approved but Neynar client is not configured.";
                        "note" := JStr "Please add NEYNAR_API_KEY to your .env file to enable posting." ]} |}
     else {| code := 400; body := {[ "error" := JStr "Unknown signer provider" ]} |})
  ∧ db answer.2 = db st.
Proof.
  intros Hvalid Hsigner Hstatus Hprovider Hclient answer. subst answer.
  rewrite (post_cast_valid w ip uuid txt p st signer) by done. cbn zeta.
  destruct Hprovider as [-> | ->]; cbn [is_str].
  - change (("neynar_siwn" =? "neynar_siwn")%string) with true. cbn iota.
    unfold post_siwn. by rewrite Hclient.
  - change (("neynar" =? "neynar_siwn")%string) with false.
    change (("neynar" =? "direct_farcaster")%string) with false.
    by rewrite Hclient, andb_false_r.
Qed.

Lemma no_sdk_client_no_post_witness :
  let answer := post_cast (offline 1000) "203.0.113.7" (Some "s1") (Some "hello")
                  None (server (managed_signer "approved") []) in
  answer.1 = {| code := 400; body := {[ "error" := JStr "Unknown signer provider" ]} |}
  ∧ db answer.2 = no_files.
Proof.
  destruct (no_sdk_client_no_post (offline 1000) "203.0.113.7" "s1" "hello" None
              (server (managed_signer "approved") []) (managed_signer "approved"))
    as (Hanswer & Hdb).
  - apply valid_hello. vm_compute. lia.
  - reflexivity.
  - reflexivity.
  - by right.
  - reflexivity.
  - cbn zeta. split; [exact Hanswer | exact Hdb].
Defined.

(** ** Creating a signer *)

Lemma create_signer_admitted parseInt w ip fid uuid st :
  truthy fid = true → uuid ≠ "" → admitted w ip st = true →
  let signer := siwn_signer (now w) (parseInt fid) uuid in
  create_signer parseInt w ip fid (Some uuid) st
  = ({| code := 200;
        body := {[ "success" := JBool true;
                   "signer" := JObj signer;
                   "provider" := JStr "neynar_siwn";
                   "message" := JStr "SIWN signer connected successfully! Ready to cast.";
                   "note" := JStr "Sign In with Neynar handles all authentication automatically" ]} |},
     {| activeSigners := <[uuid := signer]> (activeSigners st);
        rateLimit := (checkRateLimit (now w) ip (rateLimit st)).2;
        db := (saveSession (now w) signer (db st)).2 |}).
Proof.
  intros Hfid Huuid Hadm signer. unfold create_signer, admitted in *.
  rewrite Hfid. unfold truthy_str. simpl.
  apply String.eqb_neq in Huuid. rewrite Huuid. simpl.
  destruct (checkRateLimit (now w) ip (rateLimit st)) as [allowed rl]. simpl in *. subst.
  done.
Qed.

Lemma siwn_not_live signer :
  signer !! "provider" = Some (JStr "neynar_siwn") →
  ∀ w id st, activeSigners st !! id = Some signer →
    signer_status w id st = (stored_status signer, st).
Proof.
  intros Hprovider w id st Hsigner. unfold signer_status. by rewrite Hsigner, Hprovider.
Qed.

(** X14 ([POST /api/create-signer], [GET /api/signer-status]): a
    create-signer request with a truthy [fid] and a non-empty [signerUuid],
    once past the limiter, is answered 200 and files in the table a hosted
    signer that is approved from the start; when the [signerUuid] is a file
    name the signer is also on file as a session; a status check that
    follows, in any world, answers that signer with the status [approved]
    and changes nothing.  When the limiter refuses, the answer is 429 and
    neither the table nor the store changes. *)
Theorem create_then_status parseInt w w' ip fid uuid st :
  truthy fid = true → uuid ≠ "" →
  let created := create_signer parseInt w ip fid (Some uuid) st in
  let checked := signer_status w' uuid created.2 in
  if admitted w ip st then
    code created.1 = 200%Z
    ∧ ∃ signer,
        activeSigners created.2 !! uuid = Some signer
        ∧ body created.1 !! "signer" = Some (JObj signer)
        ∧ signer !! "signerUuid" = Some (JStr uuid)
        ∧ signer !! "fid" = Some (parseInt fid)
        ∧ signer !! "provider" = Some (JStr "neynar_siwn")
        ∧ signer !! "status" = Some (JStr "approved")
        ∧ (file_name uuid = true →
           getSession (Some (JStr uuid)) (db created.2)
           = Some (<["updatedAt" := JNum (now w)]> signer))
        ∧ checked = (stored_status signer, created.2)
        ∧ body checked.1 !! "signer" = Some (JObj signer)
        ∧ body checked.1 !! "status" = Some (JStr "approved")
  else
    created.1 = rate_limited
    ∧ activeSigners created.2 = activeSigners st
    ∧ db created.2 = db st.
Proof.
  intros Hfid Huuid created checked. subst checked created.
  destruct (admitted w ip st) eqn:Hadm.
  - rewrite (create_signer_admitted parseInt w ip fid uuid st) by done. cbn zeta.
    set (signer := siwn_signer (now w) (parseInt fid) uuid).
    cbn [fst snd code body activeSigners db].
    split; [done|]. exists signer.
    split; [by rewrite lookup_insert_eq|]. split; [done|].
    split; [done|]. split; [done|]. split; [done|]. split; [done|].
    split.
    { intros _. unfold getSession, saveSession, readJsonFile. simpl.
      by rewrite lookup_insert_eq. }
    rewrite (siwn_not_live signer);
      [| done | cbn [activeSigners]; by rewrite lookup_insert_eq ].
    split; [done|]. split; [done|]. done.
  - unfold create_signer, admitted in *. rewrite Hfid. unfold truthy_str. simpl.
    apply String.eqb_neq in Huuid. rewrite Huuid. simpl.
    destruct (checkRateLimit (now w) ip (rateLimit st)) as [allowed rl]. simpl in *.
    by subst.
Qed.

Lemma create_then_status_witness :
  let created := create_signer (λ _, JNum 42) (offline 1000) "203.0.113.7"
                   (Some (JStr "42")) (Some "s2") startup in
  code created.1 = 200%Z
  ∧ is_Some (getSession (Some (JStr "s2")) (db created.2))
  ∧ body (signer_status (offline 2000) "s2" created.2).1 !! "status"
    = Some (JStr "approved").
Proof.
  pose proof (create_then_status (λ _, JNum 42) (offline 1000) (offline 2000)
                "203.0.113.7" (Some (JStr "42")) "s2" startup eq_refl) as Hcreated.
  cbn zeta in *.
  change (admitted (offline 1000) "203.0.113.7" startup) with true in Hcreated.
  destruct Hcreated as (Hcode & signer & _ & _ & _ & _ & _ & _ & Hfile & _ & _ & Hstatus).
  - discriminate.
  - split; [exact Hcode|]. split; [|exact Hstatus].
    rewrite (Hfile eq_refl). by eexists.
Defined.

(** X15 ([POST /api/create-signer], [POST /api/post-cast], [savePost]): a
    signer filed by create-signer can publish at once.  A valid post-cast
    request for it, in a world where the SDK publishes the cast, is
    answered 200 by the hosted provider, and the post file named after the
    time of the request and the hash of the cast holds that hash, the text
    the SDK returned, the signer id, the [fid] the signer was created with
    and the time of the request. *)
Theorem create_then_publish parseInt w w' ip ip' fid uuid txt p st cast :
  truthy fid = true → uuid ≠ "" → admitted w ip st = true →
  let created := (create_signer parseInt w ip fid (Some uuid) st).2 in
  valid_call w' ip' uuid txt created →
  neynarClient w' = true →
  publishCast w' {[ "signerUuid" := JStr uuid; "text" := JStr txt ]} = Returns (JObj cast) →
  let answer := post_cast w' ip' (Some uuid) (Some txt) p created in
  let file := pretty (now w') +:+ "_" +:+ to_string (cast !! "hash") +:+ ".json" in
  code answer.1 = 200%Z
  ∧ body answer.1 !! "provider" = Some (JStr "neynar_siwn")
  ∧ ∃ record,
      readJsonFile (posts (db answer.2)) file = Some record
      ∧ record !! "hash" = cast !! "hash"
      ∧ record !! "text" = cast !! "text"
      ∧ record !! "signerUuid" = Some (JStr uuid)
      ∧ record !! "fid" = Some (parseInt fid)
      ∧ record !! "provider" = Some (JStr "neynar_siwn")
      ∧ record !! "timestamp" = Some (JNum (now w')).
Proof.
  intros Hfid Huuid Hadm created Hvalid Hclient Hcast answer file.
  subst answer file. subst created.
  rewrite (create_signer_admitted parseInt w ip fid uuid st) in * by done.
  cbn zeta in *. cbn [snd] in *.
  set (signer := siwn_signer (now w) (parseInt fid) uuid) in *.
  set (created := {| activeSigners := _ |}) in *.
  rewrite (post_cast_valid w' ip' uuid txt p created signer);
    [| done | by subst created; cbn [activeSigners]; rewrite lookup_insert_eq | done ].
  cbn zeta. change (is_str (signer !! "provider") "neynar_siwn") with true. cbn iota.
  unfold post_siwn. rewrite Hclient.
  change (set_prop "signerUuid" (signer !! "signerUuid") {[ "text" := JStr txt ]})
    with ({[ "signerUuid" := JStr uuid; "text" := JStr txt ]} : jsobj).
  rewrite Hcast. cbn [mbind Outcome_bind mret Outcome_ret prop fst snd code body].
  split; [done|]. split; [done|].
  unfold savePost, readJsonFile. cbn [writeJsonFile snd db with_db posts].
  rewrite lookup_set_prop_eq. rewrite lookup_insert_eq. eexists. split; [done|].
  rewrite !lookup_insert_ne by done.
  rewrite lookup_set_prop_eq.
  rewrite (lookup_set_prop_ne "hash" "text"), lookup_set_prop_eq by done.
  rewrite !(lookup_set_prop_ne _ "signerUuid"), lookup_set_prop_eq by done.
  rewrite !(lookup_set_prop_ne _ "fid"), lookup_set_prop_eq by done.
  rewrite !(lookup_set_prop_ne _ "provider") by done.
  rewrite lookup_insert_eq.
  repeat split; done.
Qed.

Lemma create_then_publish_witness :
  let created := (create_signer (λ _, JNum 42) (offline 1000) "203.0.113.7"
                    (Some (JStr "42")) (Some "s2") startup).2 in
  let answer := post_cast (sdk_up 2000) "203.0.113.7" (Some "s2") (Some "hello") None
                  created in
  code answer.1 = 200%Z
  ∧ ∃ record,
      readJsonFile (posts (db answer.2)) "2000_0xcafe.json" = Some record
      ∧ record !! "fid" = Some (JNum 42).
Proof.
  destruct (create_then_publish (λ _, JNum 42) (offline 1000) (sdk_up 2000)
              "203.0.113.7" "203.0.113.7" (Some (JStr "42")) "s2" "hello" None startup
              {[ "hash" := JStr "0xcafe"; "text" := JStr "hello" ]})
    as (Hcode & _ & record & Hfile & _ & _ & _ & Hfid & _).
  - reflexivity.
  - discriminate.
  - reflexivity.
  - split; [discriminate|]. split; [discriminate|]. split; [vm_compute; lia | reflexivity].
  - reflexivity.
  - reflexivity.
  - cbn zeta. split; [exact Hcode|]. exists record. split; [exact Hfile | exact Hfid].
Defined.

(** ** Checking a signer's status: what it changes *)

Lemma signer_status_effect w id st :
  activeSigners st !! id = None ∧ (signer_status w id st).2 = st
  ∨ is_Some (activeSigners st !! id) ∧ status_effect w id st (signer_status w id st).2.
Proof.
  unfold signer_status. destruct (activeSigners st !! id) as [signer|] eqn:Hsigner;
    [right; split; [by eexists|] | by left].
  destruct (is_str (signer !! "provider") "neynar" && neynarClient w).
  - unfold neynar_status.
    destruct (getSigner w id) as [m|neynarSigner]; cbn [mbind Outcome_bind try_block].
    2: destruct (prop neynarSigner "status") as [m|status];
         cbn [mbind Outcome_bind try_block mret Outcome_ret];
         [|right; by eexists _, _, _].
    all: destruct (is_str (signer !! "provider") "direct_farcaster"
                   && truthy (signer !! "token")); [|by left].
    all: unfold direct_status.
    all: destruct (checkSignedKeyRequestStatus w _) as [m'|realStatus];
           cbn [mbind Outcome_bind try_block]; [by left|].
    all: destruct (prop realStatus "state") as [m'|state];
           cbn [mbind Outcome_bind try_block]; [by left|].
    all: destruct (negb (strict_eq state (signer !! "status")));
           cbn [mbind Outcome_bind try_block mret Outcome_ret]; [|by left].
    all: destruct (prop realStatus "userFid") as [m'|userFid];
           cbn [mbind Outcome_bind try_block mret Outcome_ret]; [by left|].
    all: right; by eexists _, _, _.
  - destruct (is_str (signer !! "provider") "direct_farcaster"
              && truthy (signer !! "token")); [|by left].
    unfold direct_status.
    destruct (checkSignedKeyRequestStatus w _) as [m'|realStatus];
      cbn [mbind Outcome_bind try_block]; [by left|].
    destruct (prop realStatus "state") as [m'|state];
      cbn [mbind Outcome_bind try_block]; [by left|].
    destruct (negb (strict_eq state (signer !! "status")));
      cbn [mbind Outcome_bind try_block mret Outcome_ret]; [|by left].
    destruct (prop realStatus "userFid") as [m'|userFid];
      cbn [mbind Outcome_bind try_block mret Outcome_ret]; [by left|].
    right; by eexists _, _, _.
Qed.

(** X16 ([GET /api/signer-status]): a status check never touches the
    limiter, the users, the posts or any other signer of the table; it
    neither adds nor removes the signer checked; and for a signer that is
    not in the table it answers 404 and changes nothing. *)
Theorem status_check_touches_one_signer w id st :
  let checked := signer_status w id st in
  rateLimit checked.2 = rateLimit st
  ∧ users (db checked.2) = users (db st)
  ∧ posts (db checked.2) = posts (db st)
  ∧ (∀ other, other ≠ id → activeSigners checked.2 !! other = activeSigners st !! other)
  ∧ (is_Some (activeSigners checked.2 !! id) ↔ is_Some (activeSigners st !! id))
  ∧ (activeSigners st !! id = None → checked = ({| code := 404; body := {[ "error" := JStr "Signer not found" ]} |}, st)).
Proof.
  intros checked. subst checked.
  destruct (signer_status_effect w id st) as [[Hnone Hst] | [Hsome [Hst | (signer & key & updates & Hst)]]].
  - rewrite Hst. repeat split; try done. intros _. unfold signer_status. by rewrite Hnone.
  - rewrite Hst. repeat split; try done. intros Hnone. rewrite Hnone in Hsome. by destruct Hsome.
  - rewrite Hst. cbn [rateLimit db activeSigners].
    destruct (updateSession_frame (now w) key updates (db st)) as [-> ->].
    split; [done|]. split; [done|]. split; [done|].
    split; [intros other Hother; by rewrite lookup_insert_ne|].
    split; [by rewrite lookup_insert_eq|].
    intros Hnone. rewrite Hnone in Hsome. by destruct Hsome.
Qed.

(** X17 ([GET /api/signer-status], direct branch; [updateSession]): when
    the live state of a direct signer's key request differs from the status
    on record, the check records the live state, and the approving account
    as [fid] when the hub names one, keeps every other field of the signer,
    answers the updated signer, and merges it into the session on file with
    [updatedAt] set to the time of the check. *)
Theorem direct_status_change_is_persisted w id st signer session realStatus state :
  activeSigners st !! id = Some signer →
  signer !! "provider" = Some (JStr "direct_farcaster") →
  signer !! "signerUuid" = Some (JStr id) →
  truthy (signer !! "token") = true →
  getSession (Some (JStr id)) (db st) = Some session →
  checkSignedKeyRequestStatus w (signer !! "token") = Returns realStatus →
  prop realStatus "state" = Returns (Some state) →
  strict_eq (Some state) (signer !! "status") = false →
  let checked := signer_status w id st in
  ∃ signer' userFid,
    prop realStatus "userFid" = Returns userFid
    ∧ activeSigners checked.2 !! id = Some signer'
    ∧ signer' !! "status" = Some state
    ∧ signer' !! "fid" = (if truthy userFid then userFid else signer !! "fid")
    ∧ (∀ k, k ≠ "status" → k ≠ "fid" → signer' !! k = signer !! k)
    ∧ body checked.1 !! "signer" = Some (JObj signer')
    ∧ body checked.1 !! "status" = Some state
    ∧ getSession (Some (JStr id)) (db checked.2)
      = Some (<["updatedAt" := JNum (now w)]> (signer' ∪ session)).
Proof.
  intros Hsigner Hprovider Huuid Htoken Hsession Hcheck Hstate Hchanged checked.
  subst checked. unfold signer_status. rewrite Hsigner, Hprovider. cbn [is_str].
  change (("direct_farcaster" =? "neynar")%string) with false.
  change (("direct_farcaster" =? "direct_farcaster")%string) with true.
  rewrite Htoken. cbn [andb]. unfold direct_status.
  rewrite Hcheck. cbn [mbind Outcome_bind]. rewrite Hstate. cbn [mbind Outcome_bind].
  rewrite Hchanged. cbn [negb].
  destruct realStatus as [| | | |o]; try done. cbn [prop mbind Outcome_bind mret Outcome_ret].
  set (signer' := if truthy (o !! "userFid")
                  then set_prop "fid" (o !! "userFid") (set_prop "status" (Some state) signer)
                  else set_prop "status" (Some state) signer).
  assert (signer' !! "status" = Some state) as Hstatus'.
  { subst signer'. destruct (truthy (o !! "userFid")).
    - rewrite lookup_set_prop_ne by done. by rewrite lookup_set_prop_eq.
    - by rewrite lookup_set_prop_eq. }
  assert (signer' !! "signerUuid" = Some (JStr id)) as Huuid'.
  { subst signer'. destruct (truthy (o !! "userFid")); rewrite !lookup_set_prop_ne by done; done. }
  cbn [try_block mret Outcome_ret fst snd].
  exists signer', (o !! "userFid"). split; [done|].
  split; [cbn [activeSigners with_db with_signers]; by rewrite lookup_insert_eq|].
  split; [done|].
  split.
  { subst signer'. destruct (truthy (o !! "userFid")).
    - by rewrite lookup_set_prop_eq.
    - by rewrite lookup_set_prop_ne. }
  split.
  { intros k Hk1 Hk2. subst signer'. destruct (truthy (o !! "userFid")).
    - by rewrite !lookup_set_prop_ne.
    - by rewrite lookup_set_prop_ne. }
  cbn [body]. rewrite Hstatus'.
  split; [by rewrite !lookup_set_prop_ne by done|].
  split; [by rewrite lookup_set_prop_eq|].
  cbn [db with_db with_signers]. unfold updateSession. rewrite Hsession.
  rewrite (spread_over_own "status" state signer' session Hstatus').
  unfold getSession, saveSession, readJsonFile.
  cbn [writeJsonFile snd sessions].
  rewrite (lookup_insert_ne (signer' ∪ session) "updatedAt" "signerUuid") by done.
  rewrite (lookup_union_Some_l signer' session _ _ Huuid').
  cbn [to_string]. rewrite lookup_insert_eq. f_equal. apply insert_insert_eq.
Qed.

Lemma direct_status_change_is_persisted_witness :
  let checked := signer_status (hub 1000 "completed") "s1"
                   (server_with_session (direct_signer "pending")) in
  ∃ signer' session',
    activeSigners checked.2 !! "s1" = Some signer'
    ∧ signer' !! "status" = Some (JStr "completed")
    ∧ signer' !! "fid" = Some (JNum 42)
    ∧ getSession (Some (JStr "s1")) (db checked.2) = Some session'
    ∧ session' !! "status" = Some (JStr "completed")
    ∧ session' !! "updatedAt" = Some (JNum 1000).
Proof.
  destruct (direct_status_change_is_persisted (hub 1000 "completed") "s1"
              (server_with_session (direct_signer "pending")) (direct_signer "pending")
              (<["updatedAt" := JNum 0]> (direct_signer "pending"))
              (JObj {[ "state" := JStr "completed"; "userFid" := JNum 42 ]})
              (JStr "completed"))
    as (signer' & userFid & HuserFid & Hsigner' & Hstatus & Hfid & _ & _ & _ & Hsession).
  - reflexivity.
  - reflexivity.
  - reflexivity.
  - reflexivity.
  - reflexivity.
  - reflexivity.
  - reflexivity.
  - reflexivity.
  - cbn zeta in *. injection HuserFid as <-.
    exists signer'. eexists. split; [exact Hsigner'|]. split; [exact Hstatus|].
    split; [exact Hfid|]. split; [exact Hsession|].
    split; [|by rewrite lookup_insert_eq].
    rewrite lookup_insert_ne by done. by rewrite (lookup_union_Some_l _ _ _ _ Hstatus).
Defined.

(** X18 ([GET /api/signer-status], managed branch): after a check that
    reached the SDK, the table holds the signer with the status the SDK
    reported and the time of the check, its other fields unchanged; a later
    check that cannot reach the SDK, because no client is configured or its
    call throws, answers that last known signer and changes nothing. *)
Theorem managed_status_is_last_known w1 w2 id st signer neynarSigner status :
  activeSigners st !! id = Some signer →
  signer !! "provider" = Some (JStr "neynar") →
  neynarClient w1 = true →
  getSigner w1 id = Returns neynarSigner →
  prop neynarSigner "status" = Returns status →
  (neynarClient w2 = false ∨ ∃ message, getSigner w2 id = Throws message) →
  let first := signer_status w1 id st in
  let second := signer_status w2 id first.2 in
  ∃ signerInfo,
    activeSigners first.2 !! id = Some signerInfo
    ∧ signerInfo !! "status" = status
    ∧ signerInfo !! "updatedAt" = Some (JNum (now w1))
    ∧ (∀ k, k ≠ "status" → k ≠ "updatedAt" → signerInfo !! k = signer !! k)
    ∧ body first.1 !! "signer" = Some (JObj signerInfo)
    ∧ second = (stored_status signerInfo, first.2).
Proof.
  intros Hsigner Hprovider Hclient Hlive Hstatus Hdown first second.
  set (signerInfo := <["updatedAt" := JNum (now w1)]> (set_prop "status" status signer)).
  assert (first = ({| code := 200;
                      body := {[ "success" := JBool true; "signer" := JObj signerInfo ]} |},
                   with_db (updateSession (now w1) (signer !! "signer_uuid")
                              (own "status" status signerInfo)
                              (db (with_signers (<[id := signerInfo]> (activeSigners st)) st))).2
                     (with_signers (<[id := signerInfo]> (activeSigners st)) st))) as Hfirst.
  { subst first. unfold signer_status. rewrite Hsigner, Hprovider. cbn [is_str].
    change (("neynar" =? "neynar")%string) with true. rewrite Hclient. cbn [andb].
    unfold neynar_status. rewrite Hlive. cbn [mbind Outcome_bind]. by rewrite Hstatus. }
  assert (signerInfo !! "provider" = Some (JStr "neynar")) as Hprovider'.
  { subst signerInfo. by rewrite lookup_insert_ne, lookup_set_prop_ne. }
  exists signerInfo. subst second. rewrite Hfirst. cbn [fst snd activeSigners with_db with_signers body].
  split; [by rewrite lookup_insert_eq|].
  split; [subst signerInfo; by rewrite lookup_insert_ne, lookup_set_prop_eq|].
  split; [subst signerInfo; by rewrite lookup_insert_eq|].
  split; [intros k Hk1 Hk2; subst signerInfo; by rewrite lookup_insert_ne, lookup_set_prop_ne|].
  split; [done|].
  unfold signer_status. cbn [activeSigners with_db with_signers].
  rewrite lookup_insert_eq, Hprovider'. cbn [is_str].
  change (("neynar" =? "neynar")%string) with true.
  change (("neynar" =? "direct_farcaster")%string) with false. cbn [andb].
  destruct Hdown as [-> | [message Hdown]]; [done|].
  unfold neynar_status. rewrite Hdown. by destruct (neynarClient w2).
Qed.

Lemma managed_status_is_last_known_witness :
  let first := signer_status (sdk_up 1000) "s1" (server (managed_signer "pending") []) in
  let second := signer_status (offline 2000) "s1" first.2 in
  ∃ signerInfo,
    activeSigners first.2 !! "s1" = Some signerInfo
    ∧ signerInfo !! "status" = Some (JStr "approved")
    ∧ second = (stored_status signerInfo, first.2).
Proof.
  destruct (managed_status_is_last_known (sdk_up 1000) (offline 2000) "s1"
              (server (managed_signer "pending") []) (managed_signer "pending")
              (JObj {[ "status" := JStr "approved" ]}) (Some (JStr "approved")))
    as (signerInfo & Hsigner & Hstatus & _ & _ & _ & Hsecond).
  - reflexivity.
  - reflexivity.
  - reflexivity.
  - reflexivity.
  - reflexivity.
  - by left.
  - cbn zeta in *. exists signerInfo.
    split; [exact Hsigner|]. split; [exact Hstatus | exact Hsecond].
Defined.

(** ** The rate limiter, one identifier at a time *)

Lemma checkRateLimit_cases now id rl :
  checkRateLimit now id rl = (false, rl)
  ∨ checkRateLimit now id rl = (true, <[id := in_window now (default [] (rl !! id)) ++ [now]]> rl)
    ∧ length (in_window now (default [] (rl !! id))) < MAX_REQUESTS_PER_WINDOW.
Proof.
  destruct (decide (MAX_REQUESTS_PER_WINDOW ≤ length (in_window now (default [] (rl !! id)))))
    as [Hge|Hlt].
  - left. by apply checkRateLimit_rejects.
  - right. split; [apply checkRateLimit_admits; lia | lia].
Qed.

Lemma checkRateLimit_other now id rl other :
  other ≠ id → (checkRateLimit now id rl).2 !! other = rl !! other.
Proof.
  intros Hother. destruct (checkRateLimit_cases now id rl) as [-> | [-> _]]; [done|].
  cbn [snd]. by rewrite lookup_insert_ne.
Qed.

Lemma checkRateLimit_grows now id rl : grows rl (checkRateLimit now id rl).2.
Proof.
  intros k Hk. destruct (checkRateLimit_cases now id rl) as [-> | [-> _]]; [done|].
  cbn [snd]. destruct (decide (k = id)) as [->|Hne]; [by rewrite lookup_insert_eq|].
  by rewrite lookup_insert_ne.
Qed.

Lemma checkRateLimit_bounded now id rl :
  rate_bounded rl → rate_bounded (checkRateLimit now id rl).2.
Proof.
  intros Hb k requests. destruct (checkRateLimit_cases now id rl) as [-> | [-> Hlt]].
  - apply Hb.
  - cbn [snd]. destruct (decide (k = id)) as [->|Hne].
    + rewrite lookup_insert_eq. intros [= <-]. rewrite length_app. simpl. lia.
    + rewrite lookup_insert_ne by done. apply Hb.
Qed.

(** X19 ([checkRateLimit]): the limiter works one identifier at a time.  A
    call for one identifier leaves the record of every other identifier as
    it was; its verdict depends on the record of that identifier alone; no
    identifier is ever forgotten; and if no record is longer than the cap
    before the call, none is after it. *)
Theorem rate_limiter_is_per_identifier now id rl :
  (∀ other, other ≠ id →
     (checkRateLimit now id rl).2 !! other = rl !! other)
  ∧ (∀ rl', rl' !! id = rl !! id →
       (checkRateLimit now id rl').1 = (checkRateLimit now id rl).1)
  ∧ grows rl (checkRateLimit now id rl).2
  ∧ (rate_bounded rl → rate_bounded (checkRateLimit now id rl).2).
Proof.
  split; [|split; [|split]].
  - intros other. apply checkRateLimit_other.
  - intros rl' Hsame.
    destruct (checkRateLimit_cases now id rl) as [Hr | [Ha Hlt]];
      destruct (checkRateLimit_cases now id rl') as [Hr' | [Ha' Hlt']];
      rewrite ?Hr, ?Ha, ?Hr', ?Ha'; try done.
    + rewrite Hsame in Hlt'. rewrite checkRateLimit_admits in Hr by done. done.
    + rewrite <- Hsame in Hlt. rewrite checkRateLimit_admits in Hr' by done. done.
  - apply checkRateLimit_grows.
  - apply checkRateLimit_bounded.
Qed.

(** ** The server over a run of requests *)

Lemma create_signer_effect parseInt w ip fid id st :
  let st' := (create_signer parseInt w ip fid id st).2 in
  st' = st
  ∨ st' = counted w ip st
  ∨ ∃ uuid, st' = {| activeSigners :=
                       <[uuid := siwn_signer (now w) (parseInt fid) uuid]> (activeSigners st);
                     rateLimit := (checkRateLimit (now w) ip (rateLimit st)).2;
                     db := (saveSession (now w) (siwn_signer (now w) (parseInt fid) uuid)
                              (db st)).2 |}.
Proof.
  intros st'. subst st'. unfold create_signer, counted.
  destruct (negb (truthy fid) || negb (truthy_str id)) eqn:Hmissing; [by left|].
  destruct (checkRateLimit (now w) ip (rateLimit st)) as [allowed rl]. cbn [fst snd].
  destruct allowed; [|right; by left]. right. right.
  destruct id as [uuid|]; [|by rewrite orb_true_r in Hmissing].
  by exists uuid.
Qed.

Lemma get_user_effect parseInt w fid st :
  let st' := (get_user parseInt w fid st).2.2 in
  st' = st
  ∨ ∃ user written db', saveUser (now w) user (db st) = Returns (written, db')
                        ∧ st' = with_db db' st.
Proof.
  assert (∀ provider user, try_block (found_user w provider user st) = None
            ∨ ∃ answer written db', try_block (found_user w provider user st)
                                    = Some (answer, with_db db' st)
                ∧ saveUser (now w) user (db st) = Returns (written, db')) as Hfound.
  { intros provider user. unfold found_user.
    destruct (saveUser (now w) user (db st)) as [m|[written db']]; [by left|].
    right. by eexists _, written, db'. }
  intros st'. subst st'. rewrite get_user_answer.
  destruct (outcome (direct_user w fid)) as [m|[user|]]; cbn [mbind Outcome_bind].
  2: { destruct (Hfound "direct_farcaster" user) as [-> | (a & b & db' & -> & Hsave)].
       - destruct (neynarClient w); [|by left].
         destruct (outcome (sdk_user parseInt w fid)) as [m|[user'|]]; cbn [mbind Outcome_bind];
           try (by left).
         destruct (Hfound "neynar" user') as [-> | (a & b & db' & -> & Hsave)]; [by left|].
         right. by eexists _, _, _.
       - right. by eexists _, _, _. }
  all: cbn [try_block mret Outcome_ret].
  all: destruct (neynarClient w); [|by left].
  all: destruct (outcome (sdk_user parseInt w fid)) as [m'|[user'|]]; cbn [mbind Outcome_bind];
         try (by left).
  all: destruct (Hfound "neynar" user') as [-> | (a & b & db' & -> & Hsave)]; [by left|].
  all: right; by eexists _, _, _.
Qed.

Lemma all_json_insert dir file data :
  ends_with ".json" file = true → all_json dir → all_json (<[file := data]> dir).
Proof.
  intros Hfile Hjson f. destruct (decide (f = file)) as [->|Hne]; [done|].
  rewrite lookup_insert_ne by done. apply Hjson.
Qed.

Lemma all_json_delete dir file : all_json dir → all_json (delete file dir).
Proof.
  intros Hjson f [data Hf]. apply lookup_delete_Some in Hf as [_ Hf]. apply Hjson. by eexists.
Qed.

Lemma saveSession_json now v db :
  all_json (sessions db) → all_json (sessions (saveSession now v db).2).
Proof. intros Hjson. apply all_json_insert; [apply ends_with_app | done]. Qed.

Lemma updateSession_json now k updates db :
  all_json (sessions db) → all_json (sessions (updateSession now k updates db).2).
Proof.
  intros Hjson. unfold updateSession. destruct (getSession k db); [|done].
  by apply saveSession_json.
Qed.

Lemma savePost_json now postData db :
  all_json (posts db) → all_json (posts (savePost now postData db).2).
Proof.
  intros Hjson. apply all_json_insert; [|done].
  do 2 apply ends_with_prepend. apply ends_with_app.
Qed.

Lemma sweep_file_json now db file :
  all_json (sessions db) → all_json (sessions (sweep_file now db file)).
Proof.
  intros Hjson. unfold sweep_file. destruct (ends_with ".json" file); [|done].
  destruct (readJsonFile (sessions db) file) as [session|]; [|done].
  destruct (truthy_time (session !! "updatedAt")); [|done].
  destruct (session !! "updatedAt" ≫= getTime) as [updated|]; [|done].
  case_decide; [|done]. unfold deleteSession.
  destruct (sessions db !! _); [|done]. by apply all_json_delete.
Qed.

Lemma cleanup_json readdirSync now db :
  all_json (sessions db) → all_json (sessions (cleanupOldSessions readdirSync now db)).
Proof.
  unfold cleanupOldSessions. generalize (readdirSync (sessions db)). intros files.
  revert db. induction files as [|f files IH]; intros db Hjson; [done|]. simpl.
  by apply IH, sweep_file_json.
Qed.

(** X20 (the handlers, [cleanupOldSessions], [checkRateLimit]): whatever
    requests and sweeps the server serves, every file of the three
    directories keeps a name in [.json], which is what the statistics
    count, and the limiter never holds more than its cap of requests for an
    identifier. *)
Theorem store_invariants_are_kept parseInt readdirSync events st :
  store_json (db st) → rate_bounded (rateLimit st) →
  store_json (db (run parseInt readdirSync events st))
  ∧ rate_bounded (rateLimit (run parseInt readdirSync events st)).
Proof.
  revert st. induction events as [|[w request] events IH]; intros st Hwf Hrate; [done|].
  unfold run in *. simpl. apply IH.
  - destruct Hwf as (Hu & Hp & Hs). destruct request; cbn [step].
    + destruct (create_signer_effect parseInt w clientIP fid signerUuid st)
        as [-> | [-> | [uuid ->]]]; [done | done |].
      split; [done|]. split; [done|]. by apply saveSession_json.
    + destruct (signer_status_effect w signerUuid st)
        as [[_ ->] | [_ [-> | (signer & key & updates & ->)]]]; [done | done |].
      cbn [db]. destruct (updateSession_frame (now w) key updates (db st)) as [Hu' Hp'].
      split; [by rewrite Hu'|]. split; [by rewrite Hp'|]. by apply updateSession_json.
    + destruct (post_cast_effect w clientIP signerUuid text parentUrl st)
        as [[_ [-> | ->]] | (castInfo & _ & _ & ->)]; [done | done |].
      split; [done|]. split; [by apply savePost_json | done].
    + destruct (get_user_effect parseInt w fid st)
        as [-> | (user & written & db' & Hsave & ->)]; [done|].
      destruct (saveUser_all_json _ _ _ _ _ Hsave Hu) as (? & Hp' & Hs').
      cbn [db with_db]. split; [done|]. by rewrite Hp', Hs'.
    + done.
    + done.
    + destruct (cleanup_frame readdirSync (now w) (db st)) as [Hu' Hp'].
      cbn [db with_db]. split; [by rewrite Hu'|]. split; [by rewrite Hp'|].
      by apply cleanup_json.
  - destruct request; cbn [step].
    + destruct (create_signer_effect parseInt w clientIP fid signerUuid st)
        as [-> | [-> | [uuid ->]]]; [done | |];
        by apply checkRateLimit_bounded.
    + destruct (signer_status_effect w signerUuid st)
        as [[_ ->] | [_ [-> | (signer & key & updates & ->)]]]; done.
    + destruct (post_cast_effect w clientIP signerUuid text parentUrl st)
        as [[_ [-> | ->]] | (castInfo & _ & _ & ->)]; [done | |];
        by apply checkRateLimit_bounded.
    + destruct (get_user_effect parseInt w fid st)
        as [-> | (user & written & db' & Hsave & ->)]; done.
    + done.
    + done.
    + done.
Qed.

Lemma rate_bounded_empty : rate_bounded ∅.
Proof. intros id requests Hid. by rewrite lookup_empty in Hid. Qed.

Lemma startup_json : store_json (db startup).
Proof. split; [|split]; apply all_json_empty. Qed.

(** A signer is created, publishes a cast and a day later the sessions are
    swept. *)
Lemma store_invariants_are_kept_witness :
  let events :=
    [ (offline 1000, CreateSigner "203.0.113.7" (Some (JStr "42")) (Some "s2"));
      (sdk_up 2000, PostCast "203.0.113.7" (Some "s2") (Some "hello") None);
      (offline 90000000, Sweep) ] in
  store_json (db (run (λ _, JNum 42) listing events startup))
  ∧ rate_bounded (rateLimit (run (λ _, JNum 42) listing events startup)).
Proof.
  cbn zeta.
  apply (store_invariants_are_kept (λ _, JNum 42) listing _ startup
           startup_json rate_bounded_empty).
Defined.

Lemma all_siwn_step parseInt readdirSync st event :
  all_siwn (activeSigners st) →
  all_siwn (activeSigners (step parseInt readdirSync st event)).
Proof.
  intros Hall. destruct event as [w request]. destruct request; cbn [step].
  - destruct (create_signer_effect parseInt w clientIP fid signerUuid st)
      as [-> | [-> | [uuid ->]]]; [done | done |].
    intros id signer. cbn [activeSigners].
    destruct (decide (id = uuid)) as [->|Hne].
    + rewrite lookup_insert_eq. by intros [= <-].
    + rewrite lookup_insert_ne by done. apply Hall.
  - destruct (activeSigners st !! signerUuid) as [signer|] eqn:Hsigner.
    + destruct (Hall _ _ Hsigner) as (Hprovider & _).
      by rewrite (siwn_not_live signer Hprovider w signerUuid st Hsigner).
    + unfold signer_status. by rewrite Hsigner.
  - destruct (post_cast_effect w clientIP signerUuid text parentUrl st)
      as [[_ [-> | ->]] | (castInfo & _ & _ & ->)]; done.
  - destruct (get_user_effect parseInt w fid st)
      as [-> | (user & written & db' & Hsave & ->)]; done.
  - done.
  - done.
  - done.
Qed.

Lemma all_siwn_run parseInt readdirSync events : ∀ st,
  all_siwn (activeSigners st) →
  all_siwn (activeSigners (run parseInt readdirSync events st)).
Proof.
  unfold run. induction events as [|event events IH]; intros st Hall; [done|].
  simpl. by apply IH, all_siwn_step.
Qed.

(** X21 (the handlers): from an empty signer table, whatever requests the
    server serves, every signer of the table is a hosted one, approved from
    the start and filed under its own id, since create-signer is the only
    handler that adds one.  So every status check of a signer in the table
    answers the stored signer without a live check, and every cast answered
    200 was published by the hosted provider. *)
Theorem only_preapproved_signers parseInt readdirSync events st0 :
  activeSigners st0 = ∅ →
  let st := run parseInt readdirSync events st0 in
  all_siwn (activeSigners st)
  ∧ (∀ w id signer, activeSigners st !! id = Some signer →
       signer_status w id st = (stored_status signer, st))
  ∧ (∀ w ip id text p castInfo,
       body (post_cast w ip id text p st).1 !! "cast" = Some (JObj castInfo) →
       code (post_cast w ip id text p st).1 = 200%Z →
       castInfo !! "provider" = Some (JStr "neynar_siwn")).
Proof.
  intros Hempty st.
  assert (all_siwn (activeSigners st)) as Hall.
  { apply all_siwn_run. intros id signer. by rewrite Hempty, lookup_empty. }
  split; [done|]. split.
  - intros w id signer Hsigner. destruct (Hall _ _ Hsigner) as (Hprovider & _).
    by apply siwn_not_live.
  - intros w ip id text p castInfo Hcast Hcode.
    destruct (post_cast_checks _ _ _ _ _ _ Hcode)
      as (uuid & txt & signer & -> & -> & Hvalid & Hsigner & Hstatus).
    destruct (Hall _ _ Hsigner) as (Hprovider & _).
    rewrite (post_cast_valid w ip uuid txt p st signer) in Hcast by done.
    cbn zeta in Hcast. rewrite Hprovider in Hcast.
    change (is_str (Some (JStr "neynar_siwn")) "neynar_siwn") with true in Hcast.
    cbn iota in Hcast. unfold post_siwn in Hcast.
    destruct (neynarClient w); [|done].
    destruct (publishCast w _) as [m|cast]; [done|]. cbn [mbind Outcome_bind] in Hcast.
    destruct (prop cast "hash") as [m|hash]; [done|]. cbn [mbind Outcome_bind] in Hcast.
    destruct (prop cast "text") as [m|castText]; [done|].
    cbn [mbind Outcome_bind mret Outcome_ret fst body] in Hcast.
    rewrite lookup_insert_ne, lookup_insert_eq in Hcast by done.
    injection Hcast as <-. by rewrite !lookup_set_prop_ne.
Qed.

Lemma only_preapproved_signers_witness :
  let st := run (λ _, JNum 42) listing
              [ (offline 1000, CreateSigner "203.0.113.7" (Some (JStr "42")) (Some "s2"));
                (hub 2000 "completed", SignerStatus "s2") ] startup in
  all_siwn (activeSigners st).
Proof.
  cbn zeta.
  apply (only_preapproved_signers (λ _, JNum 42) listing
           [ (offline 1000, CreateSigner "203.0.113.7" (Some (JStr "42")) (Some "s2"));
             (hub 2000 "completed", SignerStatus "s2") ] startup eq_refl).
Defined.

Lemma grows_refl {A} (m : gmap string A) : grows m m.
Proof. by intros k. Qed.

Lemma grows_insert {A} (m : gmap string A) k v : grows m (<[k := v]> m).
Proof.
  intros k' Hk'. destruct (decide (k' = k)) as [->|Hne];
    [by rewrite lookup_insert_eq | by rewrite lookup_insert_ne].
Qed.

Lemma grows_trans {A} (m1 m2 m3 : gmap string A) : grows m1 m2 → grows m2 m3 → grows m1 m3.
Proof. intros H12 H23 k Hk. by apply H23, H12. Qed.

Lemma step_grows parseInt readdirSync st event :
  let st' := step parseInt readdirSync st event in
  grows (activeSigners st) (activeSigners st')
  ∧ grows (rateLimit st) (rateLimit st')
  ∧ grows (users (db st)) (users (db st'))
  ∧ grows (posts (db st)) (posts (db st'))
  ∧ (event.2 ≠ Sweep → grows (sessions (db st)) (sessions (db st'))).
Proof.
  intros st'. subst st'. destruct event as [w request]. destruct request; cbn [step snd].
  - destruct (create_signer_effect parseInt w clientIP fid signerUuid st)
      as [-> | [-> | [uuid ->]]].
    + repeat split; intros; apply grows_refl.
    + repeat split; try (intros; apply grows_refl).
      apply checkRateLimit_grows.
    + cbn [activeSigners rateLimit db]. unfold saveSession. cbn [writeJsonFile snd users posts sessions].
      repeat split; try (intros; apply grows_refl || apply grows_insert).
      apply checkRateLimit_grows.
  - destruct (signer_status_effect w signerUuid st)
      as [[_ ->] | [_ [-> | (signer & key & updates & ->)]]].
    + repeat split; intros; apply grows_refl.
    + repeat split; intros; apply grows_refl.
    + cbn [activeSigners rateLimit db].
      destruct (updateSession_frame (now w) key updates (db st)) as [-> ->].
      repeat split; try (intros; apply grows_refl || apply grows_insert).
      intros _. unfold updateSession. destruct (getSession key (db st)); [|apply grows_refl].
      unfold saveSession. cbn [writeJsonFile snd sessions]. apply grows_insert.
  - destruct (post_cast_effect w clientIP signerUuid text parentUrl st)
      as [[_ [-> | ->]] | (castInfo & _ & _ & ->)].
    + repeat split; intros; apply grows_refl.
    + repeat split; try (intros; apply grows_refl).
      apply checkRateLimit_grows.
    + unfold savePost. cbn [writeJsonFile snd db with_db users posts sessions activeSigners rateLimit counted with_rateLimit].
      repeat split; try (intros; apply grows_refl || apply grows_insert).
      apply checkRateLimit_grows.
  - destruct (get_user_effect parseInt w fid st)
      as [-> | (user & written & db' & Hsave & ->)].
    + repeat split; intros; apply grows_refl.
    + unfold saveUser in Hsave. destruct (prop user "fid") as [|f]; [done|].
      cbn [mbind Outcome_bind mret Outcome_ret writeJsonFile] in Hsave.
      injection Hsave as <- <-. cbn [db with_db users posts sessions activeSigners rateLimit].
      repeat split; try (intros; apply grows_refl || apply grows_insert).
  - repeat split; intros; apply grows_refl.
  - repeat split; intros; apply grows_refl.
  - destruct (cleanup_frame readdirSync (now w) (db st)) as [Hu Hp].
    cbn [db with_db activeSigners rateLimit]. rewrite Hu, Hp.
    repeat split; try (intros; apply grows_refl). done.
Qed.

(** X22 (the handlers, [cleanupOldSessions]): the server only ever
    deletes sessions, and only in the sweep.  Over any run of requests no
    signer leaves the table, no identifier leaves the limiter, and no user
    or post file is removed; and over a run without a sweep no session file
    is removed either. *)
Theorem only_sessions_are_deleted parseInt readdirSync events st :
  let st' := run parseInt readdirSync events st in
  grows (activeSigners st) (activeSigners st')
  ∧ grows (rateLimit st) (rateLimit st')
  ∧ grows (users (db st)) (users (db st'))
  ∧ grows (posts (db st)) (posts (db st'))
  ∧ (Forall (λ event, event.2 ≠ Sweep) events →
     grows (sessions (db st)) (sessions (db st'))).
Proof.
  intros st'. subst st'. unfold run. revert st.
  induction events as [|event events IH]; intros st; simpl.
  { repeat split; intros; apply grows_refl. }
  destruct (step_grows parseInt readdirSync st event) as (H1 & H2 & H3 & H4 & H5).
  destruct (IH (step parseInt readdirSync st event)) as (I1 & I2 & I3 & I4 & I5).
  split; [by eapply grows_trans|]. split; [by eapply grows_trans|].
  split; [by eapply grows_trans|]. split; [by eapply grows_trans|].
  intros [Hevent Hevents]%Forall_cons. eapply grows_trans; [by apply H5 | by apply I5].
Qed.

(** ** Looking up a profile: what is saved *)

Lemma found_user_cases w provider user st :
  (user = JNull ∧ try_block (found_user w provider user st) = None)
  ∨ ∃ fid,
      prop user "fid" = Returns fid
      ∧ try_block (found_user w provider user st)
        = Some (profile provider user,
                with_db {| users := <[to_string fid +:+ ".json" :=
                                        <["updatedAt" := JNum (now w)]> (spread user)]>
                                      (users (db st));
                           posts := posts (db st);
                           sessions := sessions (db st) |} st).
Proof.
  unfold found_user, saveUser. destruct user; [by left|right..]; by eexists.
Qed.

Lemma found_user_cached w provider user st answer :
  provider = "direct_farcaster" ∨ provider = "neynar" →
  try_block (found_user w provider user st) = Some answer →
  cached w st answer.
Proof.
  intros Hprovider Hanswer.
  destruct (found_user_cases w provider user st) as [[_ Hnone] | (userFid & Hfid & Hsome)].
  { by rewrite Hnone in Hanswer. }
  rewrite Hsome in Hanswer. injection Hanswer as <-.
  exists provider, user, userFid. split; [done|]. split; [done|]. split; [done|].
  unfold getUser, readJsonFile.
  cbn [snd db with_db users posts sessions activeSigners rateLimit].
  split; [by rewrite lookup_insert_eq|]. split; [|done].
  intros other Hother. rewrite lookup_insert_ne; [done|].
  intros Heq. apply Hother. symmetry. by apply (append_cancel_r _ _ ".json").
Qed.

(** X23 ([GET /api/user/:fid], [saveUser]): a profile lookup either
    answers 500 for both providers and changes nothing, or answers the
    profile found by one of the two providers and has saved it: the user
    file named after the [fid] of the profile holds the profile with
    [updatedAt] set to the time of the request, while the other user files,
    the posts, the sessions, the signer table and the limiter stay as they
    were. *)
Theorem found_profile_is_cached parseInt w fid st :
  (get_user parseInt w fid st).2 = (both_failed, st)
  ∨ cached w st (get_user parseInt w fid st).2.
Proof.
  rewrite get_user_answer.
  destruct (outcome (direct_user w fid)) as [m|[user|]]; cbn [mbind Outcome_bind].
  2: { destruct (try_block (found_user w "direct_farcaster" user st)) as [answer|] eqn:Hd.
       { right. apply (found_user_cached w "direct_farcaster" user); [by left | done]. }
       destruct (neynarClient w); [|by left].
       destruct (outcome (sdk_user parseInt w fid)) as [m|[user'|]]; cbn [mbind Outcome_bind];
         try (by left).
       destruct (try_block (found_user w "neynar" user' st)) as [answer|] eqn:Hn; [|by left].
       right. apply (found_user_cached w "neynar" user'); [by right | done]. }
  all: cbn [try_block mret Outcome_ret].
  all: destruct (neynarClient w); [|by left].
  all: destruct (outcome (sdk_user parseInt w fid)) as [m'|[user'|]]; cbn [mbind Outcome_bind];
         try (by left).
  all: destruct (try_block (found_user w "neynar" user' st)) as [answer|] eqn:Hn; [|by left].
  all: right; apply (found_user_cached w "neynar" user'); [by right | done].
Qed.

(** ** The QR code *)

(** X24 ([GET /api/qr-code/:signerUuid]): the QR code answered is the
    image of the URL answered with it.  An unknown signer is answered 404;
    an answer of 200 carries under [qrCode] the image [toDataURL] made of
    the URL under [approvalUrl]; and for a signer that is not of the managed
    provider that URL is the signer's own approval URL exactly when it is a
    [farcaster://] deep link, and the Warpcast settings page otherwise. *)
Theorem qr_code_encodes_the_url_it_names toDataURL id st :
  let answer := qr_code toDataURL id st in
  (activeSigners st !! id = None → qr_status answer = 404%Z)
  ∧ (qr_status answer = 200%Z →
     ∃ signer url image,
       activeSigners st !! id = Some signer
       ∧ qr_body answer !! "approvalUrl" = url
       ∧ toDataURL url = Returns image
       ∧ qr_body answer !! "qrCode" = Some (JStr image)
       ∧ (is_str (signer !! "provider") "neynar" = false →
          (url = signer !! "approvalUrl"
           ∧ ∃ deeplink, url = Some (JStr deeplink)
                         ∧ String.prefix "farcaster://" deeplink = true)
          ∨ (url = Some (JStr WARPCAST_SETTINGS)
             ∧ ∀ deeplink, signer !! "approvalUrl" = Some (JStr deeplink) →
                 String.prefix "farcaster://" deeplink = false))).
Proof.
  intros answer. subst answer. unfold qr_code.
  destruct (activeSigners st !! id) as [signer|]; [|done]. split; [done|].
  destruct (is_str (signer !! "provider") "neynar") eqn:Hmanaged.
  - destruct (toDataURL (signer !! "approvalUrl")) as [m|image] eqn:Himage; [done|].
    cbn [mbind Outcome_bind mret Outcome_ret qr_status qr_body]. intros _.
    exists signer, (signer !! "approvalUrl"), image.
    split; [done|]. split; [by rewrite lookup_set_prop_eq|]. split; [done|].
    split; [by rewrite lookup_set_prop_ne|]. intros Hdirect. congruence.
  - destruct (truthy (signer !! "approvalUrl")) eqn:Htruthy.
    + destruct (signer !! "approvalUrl") as [[| | |deeplink|]|] eqn:Hurl; try done.
      cbn [starts_with_farcaster mbind Outcome_bind].
      destruct (String.prefix "farcaster://" deeplink) eqn:Hprefix.
      * destruct (toDataURL (Some (JStr deeplink))) as [m|image] eqn:Himage; [done|].
        cbn [mbind Outcome_bind mret Outcome_ret qr_status qr_body]. intros _.
        exists signer, (Some (JStr deeplink)), image.
        split; [done|]. split; [by rewrite lookup_set_prop_eq|]. split; [done|].
        split; [by rewrite lookup_set_prop_ne|]. intros _. left. split; [done|]. by eexists.
      * destruct (toDataURL (Some (JStr WARPCAST_SETTINGS))) as [m|image] eqn:Himage;
          [done|].
        cbn [mbind Outcome_bind mret Outcome_ret qr_status qr_body]. intros _.
        exists signer, (Some (JStr WARPCAST_SETTINGS)), image.
        split; [done|]. split; [done|]. split; [done|]. split; [done|].
        intros _. right. split; [done|]. intros other Hother.
        rewrite Hurl in Hother. by injection Hother as <-.
    + cbn [mbind Outcome_bind].
      destruct (toDataURL (Some (JStr WARPCAST_SETTINGS))) as [m|image] eqn:Himage; [done|].
      cbn [mbind Outcome_bind mret Outcome_ret qr_status qr_body]. intros _.
      exists signer, (Some (JStr WARPCAST_SETTINGS)), image.
      split; [done|]. split; [done|]. split; [done|]. split; [done|].
      intros _. right. split; [done|]. intros deeplink Hurl. rewrite Hurl in Htruthy.
      simpl in Htruthy. apply negb_false_iff, String.eqb_eq in Htruthy as ->. done.
Qed.

(** ** Polling for approval *)

Lemma wait_from_waiting worlds token maxAttempts remaining attempt :
  still_waiting (worlds attempt) token →
  wait_from worlds token maxAttempts (S remaining) attempt
  = wait_from worlds token maxAttempts remaining (S attempt).
Proof.
  intros (status & state & Hcheck & Hstate & Hc & Ha & Hr). cbn [wait_from].
  rewrite Hcheck. cbn [mbind Outcome_bind]. rewrite Hstate. cbn [mbind Outcome_bind].
  by rewrite Hc, Ha, Hr.
Qed.

Lemma wait_from_failing worlds token maxAttempts remaining attempt :
  check_fails (worlds attempt) token →
  wait_from worlds token maxAttempts (S remaining) attempt
  = if decide (attempt = maxAttempts) then Some max_attempts_reached
    else wait_from worlds token maxAttempts remaining (S attempt).
Proof. intros [message Hcheck]. cbn [wait_from]. by rewrite Hcheck. Qed.

Lemma wait_from_skip worlds token maxAttempts k : ∀ remaining attempt,
  attempt + k < maxAttempts + 1 →
  (∀ j, attempt ≤ j < attempt + k →
     still_waiting (worlds j) token ∨ check_fails (worlds j) token) →
  wait_from worlds token maxAttempts (k + remaining) attempt
  = wait_from worlds token maxAttempts remaining (attempt + k).
Proof.
  induction k as [|k IH]; intros remaining attempt Hlt Hall.
  - by rewrite Nat.add_0_r.
  - cbn [Nat.add]. destruct (Hall attempt ltac:(lia)) as [Hw | Hf].
    + rewrite wait_from_waiting by done. rewrite IH; [f_equal; lia | lia |].
      intros j Hj. apply Hall. lia.
    + rewrite wait_from_failing by done. rewrite decide_False by lia.
      rewrite IH; [f_equal; lia | lia |]. intros j Hj. apply Hall. lia.
Qed.

(** X25 ([waitForSignerApproval]): a poll whose attempts before the last
    all see a pending key request or a failed check ends by its last
    attempt.  If that one fails, the poll returns [Max attempts reached];
    if it sees the request still pending, the loop runs out and the poll
    returns nothing at all, as it does when no attempt is allowed. *)
Theorem poll_that_runs_out worlds token maxAttempts :
  (∀ j, 1 ≤ j < maxAttempts →
     still_waiting (worlds j) token ∨ check_fails (worlds j) token) →
  (maxAttempts = 0 → waitForSignerApproval worlds token maxAttempts = None)
  ∧ (still_waiting (worlds maxAttempts) token →
     waitForSignerApproval worlds token maxAttempts = None)
  ∧ (0 < maxAttempts → check_fails (worlds maxAttempts) token →
     waitForSignerApproval worlds token maxAttempts = Some max_attempts_reached).
Proof.
  intros Hall. unfold waitForSignerApproval. split; [by intros ->|].
  destruct maxAttempts as [|n]; [split; [done | lia]|].
  assert (wait_from worlds token (S n) (S n) 1 = wait_from worlds token (S n) 1 (S n)) as ->.
  { replace (wait_from worlds token (S n) (S n) 1)
      with (wait_from worlds token (S n) (n + 1) 1) by (f_equal; lia).
    rewrite wait_from_skip; [f_equal; lia | lia |]. intros j Hj. apply Hall. lia. }
  split.
  - intros Hw. by rewrite wait_from_waiting.
  - intros _ Hf. rewrite wait_from_failing by done. by rewrite decide_True.
Qed.

Lemma pending_still_waiting t token : still_waiting (hub t "pending") token.
Proof. eexists _, _. split; [reflexivity|]. split; [reflexivity|]. by repeat split. Qed.

Lemma poll_that_runs_out_witness :
  waitForSignerApproval (λ attempt, hub (Z.of_nat attempt) "pending")
    (Some (JStr "0xtoken")) 3 = None.
Proof.
  destruct (poll_that_runs_out (λ attempt, hub (Z.of_nat attempt) "pending")
              (Some (JStr "0xtoken")) 3) as (_ & Hpending & _).
  - intros j _. left. apply pending_still_waiting.
  - apply Hpending. apply pending_still_waiting.
Defined.

(** X26 ([waitForSignerApproval]): the poll returns at the first attempt
    that sees the key request [completed], [approved] or [revoked], the
    earlier attempts having seen it pending or failed: the result carries
    that state, [success] is false only for [revoked], and for the other two
    states it carries the approving account the hub named. *)
Theorem poll_returns_first_settled_state worlds token maxAttempts k status state :
  1 ≤ k ≤ maxAttempts →
  (∀ j, 1 ≤ j < k →
     still_waiting (worlds j) token ∨ check_fails (worlds j) token) →
  checkSignedKeyRequestStatus (worlds k) token = Returns status →
  prop status "state" = Returns (Some (JStr state)) →
  state = "completed" ∨ state = "approved" ∨ state = "revoked" →
  ∃ result,
    waitForSignerApproval worlds token maxAttempts = Some result
    ∧ result !! "state" = Some (JStr state)
    ∧ result !! "success" = Some (JBool (negb (String.eqb state "revoked")))
    ∧ (state ≠ "revoked" → prop status "userFid" = Returns (result !! "userFid")).
Proof.
  intros Hk Hall Hcheck Hstate Hsettled. unfold waitForSignerApproval.
  assert (wait_from worlds token maxAttempts maxAttempts 1
          = wait_from worlds token maxAttempts (S (maxAttempts - k)) k) as ->.
  { replace (wait_from worlds token maxAttempts maxAttempts 1)
      with (wait_from worlds token maxAttempts ((k - 1) + S (maxAttempts - k)) 1)
      by (f_equal; lia).
    rewrite wait_from_skip; [f_equal; lia | lia |]. intros j Hj. apply Hall. lia. }
  cbn [wait_from].
  rewrite Hcheck. cbn [mbind Outcome_bind]. rewrite Hstate. cbn [mbind Outcome_bind].
  destruct status as [| | | |o]; try done. cbn [prop mbind Outcome_bind mret Outcome_ret].
  destruct Hsettled as [-> | [-> | ->]].
  - change (is_str (Some (JStr "completed")) "completed") with true. cbn iota.
    eexists. split; [done|]. split; [by rewrite lookup_set_prop_eq|].
    split; [by rewrite !lookup_set_prop_ne by done|].
    intros _. by rewrite lookup_set_prop_ne, lookup_set_prop_eq.
  - change (is_str (Some (JStr "approved")) "completed") with false.
    change (is_str (Some (JStr "approved")) "approved") with true. cbn iota.
    eexists. split; [done|]. split; [by rewrite lookup_set_prop_eq|].
    split; [by rewrite !lookup_set_prop_ne by done|].
    intros _. by rewrite lookup_set_prop_ne, lookup_set_prop_eq.
  - change (is_str (Some (JStr "revoked")) "completed") with false.
    change (is_str (Some (JStr "revoked")) "approved") with false.
    change (is_str (Some (JStr "revoked")) "revoked") with true. cbn iota.
    eexists. split; [done|]. split; [by rewrite lookup_set_prop_eq|].
    split; [by rewrite !lookup_set_prop_ne by done|]. done.
Qed.

Lemma poll_returns_first_settled_state_witness :
  ∃ result,
    waitForSignerApproval (settles_at 2 "completed") (Some (JStr "0xtoken")) 5 = Some result
    ∧ result !! "state" = Some (JStr "completed")
    ∧ result !! "success" = Some (JBool true)
    ∧ result !! "userFid" = Some (JNum 42).
Proof.
  destruct (poll_returns_first_settled_state (settles_at 2 "completed")
              (Some (JStr "0xtoken")) 5 2
              (JObj {[ "state" := JStr "completed"; "userFid" := JNum 42 ]}) "completed")
    as (result & Hresult & Hstate & Hsuccess & HuserFid).
  - lia.
  - intros j Hj. assert (j = 1) as -> by lia. left. apply pending_still_waiting.
  - reflexivity.
  - reflexivity.
  - by left.
  - exists result. split; [exact Hresult|]. split; [exact Hstate|].
    split; [exact Hsuccess|].
    assert (Returns (Some (JNum 42)) = Returns (result !! "userFid")) as Hfid
      by (apply HuserFid; discriminate).
    by injection Hfid as <-.
Defined.

(** ** The check of a key request *)

(** X27 ([checkSignedKeyRequestStatus]): every failure of the check is
    thrown under the prefix [Failed to check status: ], an answer of the
    hub that is not [ok] with its HTTP status in the message; a check that
    returns has read an [ok] answer and returns the [signedKeyRequest] of
    its [result], which is never [null]. *)
Theorem key_request_check_outcomes w token :
  let url := FARCASTER_API_BASE +:+ "/v2/signed-key-request?token=" +:+ to_string token in
  match checkSignedKeyRequestStatus w token with
  | Throws message =>
      ∃ cause,
        message = "Failed to check status: " +:+ cause
        ∧ ∀ response, fetch w url = Returns response → ok response = false →
            cause = "Status check failed: " +:+ pretty (http_status response)
  | Returns signedKeyRequest =>
      signedKeyRequest ≠ JNull
      ∧ ∃ response data result,
          fetch w url = Returns response
          ∧ ok response = true
          ∧ json response = Returns data
          ∧ prop data "result" = Returns (Some result)
          ∧ prop result "signedKeyRequest" = Returns (Some signedKeyRequest)
  end.
Proof.
  intros url. unfold checkSignedKeyRequestStatus. fold url.
  destruct (fetch w url) as [m|response]; cbn [mbind Outcome_bind].
  { eexists. split; [done|]. intros response Hr. discriminate Hr. }
  destruct (ok response) eqn:Hok; cbn [negb].
  2: { eexists. split; [done|]. intros response' [= <-] _. done. }
  destruct (json response) as [m|data] eqn:Hjson; cbn [mbind Outcome_bind].
  { eexists. split; [done|]. intros response' [= <-] Hok'. congruence. }
  destruct (prop data "result") as [m|[result|]] eqn:Hresult; cbn [mbind Outcome_bind].
  1, 3: eexists; split; [done|]; intros response' [= <-] Hok'; congruence.
  destruct (prop result "signedKeyRequest") as [m|[signedKeyRequest|]] eqn:Hskr;
    cbn [mbind Outcome_bind].
  1, 3: eexists; split; [done|]; intros response' [= <-] Hok'; congruence.
  destruct (prop signedKeyRequest "state") as [m|state] eqn:Hstate;
    cbn [mbind Outcome_bind mret Outcome_ret].
  { eexists. split; [done|]. intros response' [= <-] Hok'. congruence. }
  split; [by intros ->|]. exists response, data, result. repeat split; done.
Qed.
